(** * Verification of the AVS scaffold generator

    A shallow embedding of [src/generators/scaffold.ts] and the command
    entry point (the [create] action of the CLI), together with models of
    the library calls the generator relies on:

    - [path.join] of Node.js on POSIX paths;
    - the [fs-extra] operations [pathExists], [ensureDir], [copy],
      [readFile], [writeFile] and [writeJSON], over a file system seen as a
      finite map from absolute paths to nodes;
    - [Handlebars.compile] and the rendering of a compiled template, for
      the fragment of the template language made of plain content and
      simple mustaches;
    - [JSON.stringify] with an indentation of two spaces.

    Strings stand for well-formed Unicode text in its UTF-8 encoding: the
    two escaping functions modelled below only ever touch ASCII
    characters, so every other byte goes through unchanged. *)

From Stdlib Require Import Ascii.
From stdpp Require Import gmap strings list fin_maps.

(** ** Text helpers *)

Module Text.

(** The double quote and the line feed, which a literal cannot hold. *)
Definition dq : string := String (Ascii.ascii_of_nat 34) EmptyString.
Definition nl : string := String (Ascii.ascii_of_nat 10) EmptyString.

(** [q s] is [s] between double quotes. *)
Definition q (s : string) : string := dq +:+ s +:+ dq.

(** [Array.prototype.join]. *)
Fixpoint join_with (sep : string) (l : list string) : string :=
  match l with
  | [] => ""
  | [s] => s
  | s :: l' => s +:+ sep +:+ join_with sep l'
  end.

(** The lines of a multi-line literal, put back together. *)
Definition unlines (l : list string) : string := join_with nl l.

(** [String.prototype.replace] with a global single-character pattern:
    every character is replaced by what [f] maps it to. *)
Fixpoint flat_map_chars (f : ascii → string) (s : string) : string :=
  match s with
  | EmptyString => EmptyString
  | String c s' => f c +:+ flat_map_chars f s'
  end.

(** Tests on the code of a character. *)
Definition is_char (n : nat) (c : ascii) : bool :=
  Nat.eqb (nat_of_ascii c) n.

Definition in_range (lo hi : nat) (c : ascii) : bool :=
  Nat.leb lo (nat_of_ascii c) && Nat.leb (nat_of_ascii c) hi.

Fixpoint forallb_chars (f : ascii → bool) (s : string) : bool :=
  match s with
  | EmptyString => true
  | String c s' => f c && forallb_chars f s'
  end.

End Text.

Import Text.

(** ** Paths: [path.join] on POSIX *)

Module Path.

(** An absolute, normalized path is the list of its components from the
    root; the root itself is [[]]. *)
Abbreviation path := (list string).

(** Cut a string at every slash. *)
Fixpoint split_go (cur : string) (s : string) : list string :=
  match s with
  | EmptyString => [String.rev cur]
  | String c s' =>
      if Ascii.eqb c "/" then String.rev cur :: split_go "" s'
      else split_go (String c cur) s'
  end.

Definition split (s : string) : list string := split_go "" s.

(** One step of normalization: empty and [.] components vanish, [..]
    drops the last component (and stays at the root). *)
Definition walk (acc : path) (c : string) : path :=
  if String.eqb c "" || String.eqb c "." then acc
  else if String.eqb c ".." then removelast acc
  else acc ++ [c].

(** [path.join(base, rel)] for an absolute normalized [base]. *)
Definition join (base : path) (rel : string) : path :=
  foldl walk base (split rel).

(** [path.dirname]. *)
Definition dirname (p : path) : path := removelast p.

(** All the prefixes of a path, the root first and the path itself
    last. *)
Definition ancestors_and_self (p : path) : list path :=
  (λ n, take n p) <$> seq 0 (S (length p)).

(** Printing, for messages. *)
Definition to_string (p : path) : string :=
  match p with
  | [] => "/"
  | _ => foldr (λ c acc, "/" +:+ c +:+ acc) "" p
  end.

End Path.

Import Path.

(** ** The Handlebars fragment *)

Module Handlebars.

(** [Handlebars.Utils.escapeExpression] on a string: the ampersand,
    the angle brackets, the double and single quotes, the backquote
    and the equals sign become HTML entities. *)
Definition escapeChar (c : ascii) : string :=
  if is_char 38 c then "&amp;"
  else if is_char 60 c then "&lt;"
  else if is_char 62 c then "&gt;"
  else if is_char 34 c then "&quot;"
  else if is_char 39 c then "&#x27;"
  else if is_char 96 c then "&#x60;"
  else if is_char 61 c then "&#x3D;"
  else String c "".

Definition escapeExpression (s : string) : string :=
  flat_map_chars escapeChar s.

(** A compiled template: content to copy and mustaches to evaluate.  A
    mustache written with two braces is escaped; one written with
    three braces, or with the ampersand sigil, is not. *)
Inductive segment :=
  | Content (s : string)
  | Mustache (escaped : bool) (name : string).

Abbreviation compiled := (list segment).

Definition is_blank (c : ascii) : bool :=
  is_char 32 c || is_char 9 c || is_char 10 c || is_char 13 c.

Definition is_digit (c : ascii) : bool :=
  in_range 48 57 c.

Definition is_id_char (c : ascii) : bool :=
  in_range 65 90 c || in_range 97 122 c || is_char 95 c || is_digit c.

(** Names that are not plain property lookups: literals and keywords of
    the template language, the helpers registered by default, and the
    members every object inherits from [Object.prototype]. *)
Definition reserved : list string :=
  [ "this"; "true"; "false"; "null"; "undefined"; "else"; "as";
    "if"; "unless"; "each"; "with"; "lookup"; "log";
    "helperMissing"; "blockHelperMissing";
    "constructor"; "hasOwnProperty"; "isPrototypeOf";
    "propertyIsEnumerable"; "toLocaleString"; "toString"; "valueOf";
    "__proto__"; "__defineGetter__"; "__defineSetter__";
    "__lookupGetter__"; "__lookupSetter__" ].

Definition starts_with_digit (s : string) : bool :=
  match s with
  | EmptyString => false
  | String c _ => is_digit c
  end.

(** The simple identifiers of the fragment. *)
Definition valid_name (s : string) : bool :=
  negb (String.eqb s "") && forallb_chars is_id_char s
  && negb (starts_with_digit s)
  && negb (existsb (String.eqb s) reserved).

(** The tokenizer is a machine that reads one character at a time. *)
Inductive state :=
  | SContent (bs : bool)
    (** in content; [bs]: the last character was a backslash *)
  | SBrace (bs : bool)
    (** one opening brace is pending *)
  | SOpened
    (** two opening braces were read *)
  | SBeforeName (triple escaped : bool)
  | SName (triple escaped : bool) (acc : string)
    (** reading the name, [acc] holds it reversed *)
  | SAfterName (triple escaped : bool) (name : string)
  | SClosing (triple escaped : bool) (name : string) (seen : nat).

Definition before_name (triple escaped : bool) (c : ascii)
  : option (state * list segment) :=
  if is_blank c then Some (SBeforeName triple escaped, [])
  else if is_id_char c then Some (SName triple escaped (String c ""), [])
  else None.

Definition close_name (triple escaped : bool) (name : string) (seen : nat)
  : option (state * list segment) :=
  if Nat.eqb seen (if triple then 3 else 2) then
    if valid_name name then Some (SContent false, [Mustache escaped name])
    else None
  else Some (SClosing triple escaped name seen, []).

(** What falls outside the fragment, or is malformed, is [None]:
    a backslash right before a mustache (the escape of the language),
    blocks, partials, comments, helper calls with arguments, paths,
    whitespace control, and mustaches left open. *)
Definition step (st : state) (c : ascii) : option (state * list segment) :=
  match st with
  | SContent bs =>
      if is_char 123 c then Some (SBrace bs, [])
      else Some (SContent (is_char 92 c), [Content (String c "")])
  | SBrace bs =>
      if is_char 123 c then (if bs then None else Some (SOpened, []))
      else Some (SContent (is_char 92 c), [Content (String "{" (String c ""))])
  | SOpened =>
      if is_char 123 c then Some (SBeforeName true false, [])
      else if is_char 38 c then Some (SBeforeName false false, [])
      else before_name false true c
  | SBeforeName triple escaped => before_name triple escaped c
  | SName triple escaped acc =>
      if is_id_char c then Some (SName triple escaped (String c acc), [])
      else if is_blank c then Some (SAfterName triple escaped (String.rev acc), [])
      else if is_char 125 c then close_name triple escaped (String.rev acc) 1
      else None
  | SAfterName triple escaped name =>
      if is_blank c then Some (SAfterName triple escaped name, [])
      else if is_char 125 c then close_name triple escaped name 1
      else None
  | SClosing triple escaped name seen =>
      if is_char 125 c then close_name triple escaped name (S seen)
      else None
  end.

Definition finish (st : state) : option compiled :=
  match st with
  | SContent _ => Some []
  | SBrace _ => Some [Content "{"]
  | _ => None
  end.

(** Adjacent content is one segment. *)
Definition push (seg : segment) (t : compiled) : compiled :=
  match seg, t with
  | Content s, Content s' :: t' => Content (s +:+ s') :: t'
  | _, _ => seg :: t
  end.

Fixpoint tokenize (st : state) (s : string) : option compiled :=
  match s with
  | EmptyString => finish st
  | String c s' =>
      match step st c with
      | None => None
      | Some (st', out) =>
          match tokenize st' s' with
          | None => None
          | Some t => Some (foldr push t out)
          end
      end
  end.

(** [Handlebars.compile(input)].  The library parses on the first call
    of the compiled function; the generator calls it at once, with no
    file operation in between, so both steps are taken here. *)
Definition compile (input : string) : option compiled :=
  tokenize (SContent false) input.

Section Render.
(** The context: how a property name is looked up.  A missing
    property is [None] ([undefined] in the library). *)
Variable lookupProperty : string → option string.

Definition render_segment (seg : segment) : string :=
  match seg with
  | Content s => s
  | Mustache escaped name =>
      match lookupProperty name with
      | None => ""
      | Some v => if escaped then escapeExpression v else v
      end
  end.

(** Calling the compiled template on a context. *)
Definition render (t : compiled) : string :=
  foldr (λ seg acc, render_segment seg +:+ acc) "" t.
End Render.

End Handlebars.

(** ** [JSON.stringify] *)

Module Json.

(** The values the generator serializes: strings and objects, whose
    properties are enumerated in insertion order. *)
#[local] Set Warnings "-register-all".
Inductive json :=
  | JString (s : string)
  | JObject (fields : list (string * json)).

Definition hex_digit (n : nat) : ascii :=
  match String.get n "0123456789abcdef" with
  | Some c => c
  | None => "0"%char
  end.

(** [QuoteJSONString], one character at a time. *)
Definition quoteChar (c : ascii) : string :=
  let n := nat_of_ascii c in
  if is_char 34 c then "\" +:+ dq
  else if is_char 92 c then "\\"
  else if is_char 8 c then "\b"
  else if is_char 12 c then "\f"
  else if is_char 10 c then "\n"
  else if is_char 13 c then "\r"
  else if is_char 9 c then "\t"
  else if Nat.ltb n 32 then
    "\u00" +:+ String (hex_digit (n / 16)) (String (hex_digit (n mod 16)) "")
  else String c "".

Definition quote (s : string) : string :=
  dq +:+ flat_map_chars quoteChar s +:+ dq.

(** [JSON.stringify(value, null, gap)] at the indentation [indent]. *)
Fixpoint serialize (gap indent : string) (v : json) : string :=
  match v with
  | JString s => quote s
  | JObject fields =>
      let inner := indent +:+ gap in
      let member (kv : string * json) :=
        quote kv.1 +:+ ":" +:+ (if String.eqb gap "" then "" else " ")
        +:+ serialize gap inner kv.2 in
      match fields with
      | [] => "{}"
      | _ =>
          if String.eqb gap "" then
            "{" +:+ join_with "," (map member fields) +:+ "}"
          else
            "{" +:+ nl +:+ inner
            +:+ join_with ("," +:+ nl +:+ inner) (map member fields)
            +:+ nl +:+ indent +:+ "}"
      end
  end.

(** [JSON.stringify(value, null, spaces)] for a number of spaces. *)
Definition stringify (v : json) (spaces : nat) : string :=
  serialize (String.string_of_list_ascii (replicate spaces " "%char)) "" v.

(** Looking a property up in an object. *)
Definition field (name : string) (v : json) : option json :=
  match v with
  | JString _ => None
  | JObject fields => snd <$> List.find (λ kv, String.eqb kv.1 name) fields
  end.

End Json.

(** ** The file system and the [fs-extra] operations *)

Module Fs.

Inductive node :=
  | File (data : string)
  | Dir.

(** The file system: what is at each absolute path.  In a well-formed
    one every entry lies in a directory. *)
Abbreviation files := (gmap path node).

Definition is_file (o : option node) : bool :=
  match o with Some (File _) => true | _ => false end.

Definition is_dir (o : option node) : bool :=
  match o with Some Dir => true | _ => false end.

Definition exists_at (o : option node) : bool :=
  match o with Some _ => true | None => false end.

Definition same_kind (a b : node) : bool :=
  match a, b with
  | File _, File _ | Dir, Dir => true
  | _, _ => false
  end.

Definition well_formed (m : files) : Prop :=
  ∀ p n, m !! p = Some n → ∀ a, a `prefix_of` p → a ≠ p → m !! a = Some Dir.

(** Some path on the way to [p], or [p] itself, is a regular file. *)
Definition blocked (p : path) (m : files) : bool :=
  existsb (λ a, is_file (m !! a)) (ancestors_and_self p).

(** Directories all the way down to [p]. *)
Definition with_dirs (p : path) (m : files) : files :=
  foldr (λ a acc, <[a := Dir]> acc) m (ancestors_and_self p).

(** [mkdir] with [recursive: true]: every missing directory on the way
    is made, a directory that is there is left alone, and a regular
    file in the way is an error. *)
Definition mkdirs (p : path) (m : files) : option files :=
  if blocked p m then None else Some (with_dirs p m).

(** [writeFile]: the directory of the file has to be there, and the
    path must not be a directory; a file that is there is replaced. *)
Definition write (p : path) (data : string) (m : files) : option files :=
  if is_dir (m !! dirname p) && negb (is_dir (m !! p))
  then Some (<[p := File data]> m)
  else None.

(** [readFile] with an encoding. *)
Definition read (p : path) (m : files) : option string :=
  match m !! p with
  | Some (File data) => Some data
  | _ => None
  end.

(** The entries at and below [src]. *)
Definition subtree (src : path) (m : files) : list (path * node) :=
  filter (λ e, src `prefix_of` e.1) (map_to_list m).

(** Where an entry below [src] goes when [src] is copied to [dest]. *)
Definition retarget (src dest : path) (a : path) : path :=
  dest ++ drop (length src) a.

(** An entry to copy meets an entry of the other kind. *)
Definition clashes (src dest : path) (m : files) : bool :=
  existsb
    (λ e, match m !! retarget src dest e.1 with
          | Some n => negb (same_kind e.2 n)
          | None => false
          end)
    (subtree src m).

(** The copied entries, at their places below [dest]. *)
Definition grafted (src dest : path) (m : files) : files :=
  list_to_map (prod_map (retarget src dest) id <$> subtree src m).

(** [copy(src, dest)] with the default options.  The source has to
    exist; the destination must not be the source, must not lie inside
    a source directory, and must not be reached through a regular
    file; a file is never copied over a directory nor a directory over
    a file.  The directory of the destination is made when it is
    missing; files that are there are overwritten and directories are
    merged.  On an error the model leaves the file system as it was,
    where the library may already have copied some entries. *)
Definition copy_tree (src dest : path) (m : files) : option files :=
  match m !! src with
  | None => None
  | Some n =>
      if blocked (dirname dest) m then None
      else if bool_decide (src = dest) then None
      else if is_dir (Some n) && bool_decide (src `prefix_of` dest) then None
      else if clashes src dest m then None
      else
        match (if exists_at (m !! dirname dest) then Some m
               else mkdirs (dirname dest) m) with
        | None => None
        | Some m' => Some (grafted src dest m ∪ m')
        end
  end.

(** *** Errors, events and the monad of the generator *)

Inductive error :=
  | DirectoryExists (projectName : string)
  | PromptCancelled
  | FsError (syscall : string) (p : path)
  | TemplateError.

(** [error.message].  The generator itself throws the first error, with
    this text; the others come from the libraries, whose texts are not
    modelled: nothing below depends on them. *)
Definition message (e : error) : string :=
  match e with
  | DirectoryExists projectName =>
      "Directory " +:+ projectName +:+ " already exists"
  | PromptCancelled => "prompt cancelled"
  | FsError syscall p => syscall +:+ " failed: " +:+ to_string p
  | TemplateError => "template error"
  end.

(** What the program does to the outside, in order. *)
Inductive event :=
  | EvPathExists (p : path)
  | EvEnsureDir (p : path)
  | EvCopy (src dest : path)
  | EvReadFile (p : path)
  | EvWriteFile (p : path) (data : string)
  | EvPrompt (projectName template : string)
  | EvLog (line : string)
  | EvError (line : string)
  | EvExit (code : nat).

Record world := World { disk : files; trace : list event }.

Inductive result (A : Type) :=
  | Ok (a : A)
  | Err (e : error).
Arguments Ok {A} a.
Arguments Err {A} e.

(** A computation runs in a world and leaves a world, also when it
    fails: nothing is rolled back. *)
Definition M (A : Type) : Type := world → result A * world.

Definition ret {A} (a : A) : M A := λ w, (Ok a, w).

Definition bind {A B} (m : M A) (k : A → M B) : M B :=
  λ w, match m w with
       | (Ok a, w') => k a w'
       | (Err e, w') => (Err e, w')
       end.

Definition throw {A} (e : error) : M A := λ w, (Err e, w).

(** [promise.catch(handler)]. *)
Definition catch {A} (m : M A) (handler : error → M A) : M A :=
  λ w, match m w with
       | (Ok a, w') => (Ok a, w')
       | (Err e, w') => handler e w'
       end.

Definition emit (e : event) : M unit :=
  λ w, (Ok tt, World (disk w) (trace w ++ [e])).

(** An operation on the disk that may fail. *)
Definition update (syscall : string) (p : path) (f : files → option files)
  : M unit :=
  λ w, match f (disk w) with
       | Some m => (Ok tt, World m (trace w))
       | None => (Err (FsError syscall p), w)
       end.

(** An observation of the disk. *)
Definition query {A} (f : files → result A) : M A :=
  λ w, (f (disk w), w).

#[export] Instance M_ret : MRet M := @ret.
#[export] Instance M_bind : MBind M := λ A B k m, bind m k.

Definition pathExists (p : path) : M bool :=
  emit (EvPathExists p);;
  query (λ m, Ok (exists_at (m !! p))).

Definition ensureDir (p : path) : M unit :=
  emit (EvEnsureDir p);; update "mkdir" p (mkdirs p).

Definition copy (src dest : path) : M unit :=
  emit (EvCopy src dest);; update "copy" dest (copy_tree src dest).

Definition readFile (p : path) : M string :=
  emit (EvReadFile p);;
  query (λ m, match read p m with
              | Some data => Ok data
              | None => Err (FsError "open" p)
              end).

Definition writeFile (p : path) (data : string) : M unit :=
  emit (EvWriteFile p data);; update "open" p (write p data).

(** [writeJSON(file, object, {spaces})]: the text of [JSON.stringify]
    and a final line feed. *)
Definition writeJSON (p : path) (v : Json.json) (spaces : nat) : M unit :=
  writeFile p (Json.stringify v spaces +:+ nl).

(** [console.log] and [console.error]; the colours of [chalk] are left
    out. *)
Definition console_log (line : string) : M unit := emit (EvLog line).
Definition console_error (line : string) : M unit := emit (EvError line).

End Fs.

(** ** The generator *)

Module Scaffold.
Import Fs Json.

(** The two choices of the template question. *)
Inductive Template := TaskBased | Oracle.

Definition template_name (t : Template) : string :=
  match t with
  | TaskBased => "task-based"
  | Oracle => "oracle"
  end.

(** The answers of the prompt, which the generator calls [config]. *)
Record Answers := {
  projectName : string;
  template : Template;
  description : string
}.

(** What surrounds a run: the working directory of the process, the
    directory of the compiled module ([__dirname]), and the user at the
    prompt, who is given the two defaults and answers or gives up. *)
Record Env := {
  cwd : path;
  module_dir : path;
  prompt : string → string → option Answers
}.

(** [inquirer.prompt] with the three questions. *)
Definition inquirer_prompt (env : Env) (projectName template : string)
  : M Answers :=
  emit (EvPrompt projectName template);;
  match prompt env projectName template with
  | Some answers => mret answers
  | None => throw PromptCancelled
  end.

(** The property lookup of Handlebars on the answers. *)
Definition lookupProperty (config : Answers) (name : string)
  : option string :=
  if String.eqb name "projectName" then Some (projectName config)
  else if String.eqb name "template" then
    Some (template_name (template config))
  else if String.eqb name "description" then Some (description config)
  else None.

(** [Handlebars.compile(source)(config)]. *)
Definition render_template (source : string) (config : Answers)
  : M string :=
  match Handlebars.compile source with
  | Some t => mret (Handlebars.render (lookupProperty config) t)
  | None => throw TemplateError
  end.

Definition getDefaultPackageJsonTemplate : string :=
  unlines
    [ "{";
      "  " +:+ q "name" +:+ ": " +:+ q "{{projectName}}" +:+ ",";
      "  " +:+ q "version" +:+ ": " +:+ q "0.1.0" +:+ ",";
      "  " +:+ q "description" +:+ ": " +:+ q "{{description}}" +:+ ",";
      "  " +:+ q "scripts" +:+ ": {";
      "    " +:+ q "compile" +:+ ": " +:+ q "hardhat compile" +:+ ",";
      "    " +:+ q "test" +:+ ": " +:+ q "hardhat test" +:+ ",";
      "    " +:+ q "deploy" +:+ ": " +:+ q "hardhat run scripts/deploy.ts";
      "  },";
      "  " +:+ q "devDependencies" +:+ ": {";
      "    " +:+ q "@nomicfoundation/hardhat-toolbox" +:+ ": " +:+ q "^4.0.0" +:+ ",";
      "    " +:+ q "hardhat" +:+ ": " +:+ q "^2.19.4" +:+ ",";
      "    " +:+ q "typescript" +:+ ": " +:+ q "^5.3.3";
      "  }";
      "}" ].

Definition getHardhatConfig : string :=
  unlines
    [ "import { HardhatUserConfig } from " +:+ q "hardhat/config" +:+ ";";
      "import " +:+ q "@nomicfoundation/hardhat-toolbox" +:+ ";";
      "";
      "const config: HardhatUserConfig = {";
      "  solidity: {";
      "    version: " +:+ q "0.8.20" +:+ ",";
      "    settings: {";
      "      optimizer: {";
      "        enabled: true,";
      "        runs: 200,";
      "      },";
      "    },";
      "  },";
      "  networks: {";
      "    hardhat: {";
      "      chainId: 31337,";
      "    },";
      "    localhost: {";
      "      url: " +:+ q "http://127.0.0.1:8545" +:+ ",";
      "    },";
      "  },";
      "};";
      "";
      "export default config;";
      "" ].

Definition getDeployScript : string :=
  unlines
    [ "import { ethers } from " +:+ q "hardhat" +:+ ";";
      "";
      "async function main() {";
      "  const [deployer] = await ethers.getSigners();";
      "  console.log(" +:+ q "Deploying contracts with account:" +:+ ", deployer.address);";
      "";
      "  const TaskMailbox = await ethers.getContractFactory(" +:+ q "TaskMailbox" +:+ ");";
      "  const mailbox = await TaskMailbox.deploy();";
      "  await mailbox.waitForDeployment();";
      "  console.log(" +:+ q "TaskMailbox deployed to:" +:+ ", await mailbox.getAddress());";
      "";
      "  const TaskAVSRegistrar = await ethers.getContractFactory(" +:+ q "TaskAVSRegistrar" +:+ ");";
      "  const delegationManager = process.env.DELEGATION_MANAGER || ethers.ZeroAddress;";
      "  const registrar = await TaskAVSRegistrar.deploy(";
      "    await mailbox.getAddress(),";
      "    delegationManager";
      "  );";
      "  await registrar.waitForDeployment();";
      "  console.log(" +:+ q "TaskAVSRegistrar deployed to:" +:+ ", await registrar.getAddress());";
      "}";
      "";
      "main()";
      "  .then(() => process.exit(0))";
      "  .catch((error) => {";
      "    console.error(error);";
      "    process.exit(1);";
      "  });";
      "" ].

Definition getTestFile : string :=
  unlines
    [ "import { expect } from " +:+ q "chai" +:+ ";";
      "import { ethers } from " +:+ q "hardhat" +:+ ";";
      "";
      "describe(" +:+ q "TaskMailbox" +:+ ", function () {";
      "  it(" +:+ q "Should submit a task" +:+ ", async function () {";
      "    const TaskMailbox = await ethers.getContractFactory(" +:+ q "TaskMailbox" +:+ ");";
      "    const mailbox = await TaskMailbox.deploy();";
      "    await mailbox.waitForDeployment();";
      "";
      "    const taskData = ethers.toUtf8Bytes(" +:+ q "test task" +:+ ");";
      "    const tx = await mailbox.submitTask(taskData);";
      "    const receipt = await tx.wait();";
      "";
      "    expect(receipt).to.not.be.null;";
      "  });";
      "});";
      "" ].

Definition getAggregatorCode : string :=
  unlines
    [ "import { ethers } from 'ethers';";
      "";
      "export class Aggregator {";
      "  private provider: ethers.Provider;";
      "  private contract: ethers.Contract;";
      "";
      "  constructor(providerUrl: string, contractAddress: string, abi: any[]) {";
      "    this.provider = new ethers.JsonRpcProvider(providerUrl);";
      "    this.contract = new ethers.Contract(contractAddress, abi, this.provider);";
      "  }";
      "";
      "  async aggregateTask(taskId: bigint): Promise<void> {";
      "    // Implement aggregation logic";
      "    console.log(`Aggregating task ${taskId}`);";
      "  }";
      "}";
      "" ].

Definition getExecutorCode : string :=
  unlines
    [ "import { ethers } from 'ethers';";
      "";
      "export class Executor {";
      "  private provider: ethers.Provider;";
      "  private wallet: ethers.Wallet;";
      "";
      "  constructor(providerUrl: string, privateKey: string) {";
      "    this.provider = new ethers.JsonRpcProvider(providerUrl);";
      "    this.wallet = new ethers.Wallet(privateKey, this.provider);";
      "  }";
      "";
      "  async executeTask(taskData: string): Promise<string> {";
      "    // Implement task execution logic";
      "    console.log(`Executing task: ${taskData}`);";
      "    return 'result';";
      "  }";
      "}";
      "" ].

Definition generateOffChainComponents (projectPath : path)
  (config : Answers) : M unit :=
  (* Aggregator *)
  let aggregatorCode := getAggregatorCode in
  writeFile (join projectPath "off-chain/aggregator/index.ts")
    aggregatorCode;;
  (* Executor *)
  let executorCode := getExecutorCode in
  writeFile (join projectPath "off-chain/executor/index.ts")
    executorCode;;
  (* Off-chain package.json *)
  let offChainPackageJson :=
    JObject
      [ ("name", JString (projectName config +:+ "-off-chain"));
        ("version", JString "0.1.0");
        ("type", JString "module");
        ("dependencies",
          JObject [ ("ethers", JString "^6.9.2");
                    ("dotenv", JString "^16.3.1") ]) ] in
  writeJSON (join projectPath "off-chain/package.json")
    offChainPackageJson 2.

Definition createProjectStructure (env : Env) (projectPath : path)
  (config : Answers) : M unit :=
  (* Create directories *)
  ensureDir (join projectPath "contracts");;
  ensureDir (join projectPath "contracts/interfaces");;
  ensureDir (join projectPath "scripts");;
  ensureDir (join projectPath "test");;
  ensureDir (join projectPath "off-chain");;
  ensureDir (join projectPath "off-chain/aggregator");;
  ensureDir (join projectPath "off-chain/executor");;
  (* Copy contract templates *)
  let contractsPath := join (module_dir env) "../../contracts" in
  present ← pathExists contractsPath;
  (if present : bool then
     copy (join contractsPath "interfaces")
          (join projectPath "contracts/interfaces");;
     copy (join contractsPath "TaskMailbox.sol")
          (join projectPath "contracts/TaskMailbox.sol");;
     copy (join contractsPath "TaskAVSRegistrar.sol")
          (join projectPath "contracts/TaskAVSRegistrar.sol");;
     copy (join contractsPath "SlashingConditions.sol")
          (join projectPath "contracts/SlashingConditions.sol")
   else mret tt);;
  (* Generate package.json *)
  source ← catch
    (readFile (join (module_dir env) "../templates/package.json.hbs"))
    (λ _, mret getDefaultPackageJsonTemplate);
  rendered ← render_template source config;
  writeFile (join projectPath "package.json") rendered;;
  (* Generate hardhat.config.ts *)
  let hardhatConfig := getHardhatConfig in
  writeFile (join projectPath "hardhat.config.ts") hardhatConfig;;
  (* Generate deployment script *)
  let deployScript := getDeployScript in
  writeFile (join projectPath "scripts/deploy.ts") deployScript;;
  (* Generate test file *)
  let testFile := getTestFile in
  writeFile (join projectPath "test/TaskMailbox.test.ts") testFile;;
  (* Generate off-chain components *)
  generateOffChainComponents projectPath config.

Definition scaffoldProject (env : Env) (projectName template : string)
  : M unit :=
  let projectPath := join (cwd env) projectName in
  exists_ ← pathExists projectPath;
  (if exists_ : bool then throw (DirectoryExists projectName)
   else mret tt);;
  (* Prompt for project details if not provided *)
  answers ← inquirer_prompt env projectName template;
  ensureDir projectPath;;
  console_log ("Created directory: " +:+ Scaffold.projectName answers);;
  (* Create project structure *)
  createProjectStructure env projectPath answers;;
  console_log "Project scaffolded successfully!".

(** The [create] command of the CLI: the name defaults to [my-avs]
    (also when it is empty), the template option to [task-based]; an
    error is printed and ends the process with the exit code 1. *)
Definition create (env : Env) (projectName : option string)
  (template : option string) : M unit :=
  let name :=
    match projectName with
    | Some n => if String.eqb n "" then "my-avs" else n
    | None => "my-avs"
    end in
  catch
    (console_log "Creating new AVS project...";;
     scaffoldProject env name (default "task-based" template);;
     console_log "Project created successfully!")
    (λ e, console_error ("Error: " +:+ message e);; emit (EvExit 1)).

(** The state of the disk and the outcome of a run from an empty
    trace. *)
Definition run {A} (m : M A) (d : files) : result A * world :=
  m (World d []).

End Scaffold.

(** * The vocabulary of the properties *)

Import Fs Scaffold Handlebars.

(** A component that normalization keeps. *)
Definition plain (c : string) : bool :=
  negb (String.eqb c "" || String.eqb c "." || String.eqb c "..").

(** Every path on the way to [p], and [p] itself, is a directory. *)
Definition dir_chain (p : path) (m : files) : Prop :=
  ∀ a, a `prefix_of` p → m !! a = Some Dir.

(** The paths the generator works with. *)
Definition projectPath (env : Env) (name : string) : path :=
  join (cwd env) name.
Definition contractsPath (env : Env) : path :=
  join (module_dir env) "../../contracts".
Definition templatePath (env : Env) : path :=
  join (module_dir env) "../templates/package.json.hbs".

(** The template body in use: the bundled one when it can be read, the
    default one otherwise. *)
Definition template_source (env : Env) (d : files) : string :=
  default getDefaultPackageJsonTemplate (read (templatePath env) d).

(** The text of the root package.json for a template body. *)
Definition rendered (source : string) (config : Answers) : option string :=
  Handlebars.render (lookupProperty config) <$> Handlebars.compile source.

(** The object written to off-chain/package.json and its text. *)
Definition offChainPackageJson (config : Answers) : Json.json :=
  Json.JObject
    [ ("name", Json.JString (projectName config +:+ "-off-chain"));
      ("version", Json.JString "0.1.0");
      ("type", Json.JString "module");
      ("dependencies",
        Json.JObject [ ("ethers", Json.JString "^6.9.2");
                       ("dotenv", Json.JString "^16.3.1") ]) ].

Definition offChainPackageText (config : Answers) : string :=
  Json.stringify (offChainPackageJson config) 2 +:+ nl.

(** The seven directories of a project, made in this order. *)
Definition dirs_built (P : path) (m : files) : files :=
  <[P ++ ["off-chain"; "executor"] := Dir]>
  (<[P ++ ["off-chain"; "aggregator"] := Dir]>
  (<[P ++ ["off-chain"] := Dir]>
  (<[P ++ ["test"] := Dir]>
  (<[P ++ ["scripts"] := Dir]>
  (<[P ++ ["contracts"; "interfaces"] := Dir]>
  (<[P ++ ["contracts"] := Dir]> m)))))).

(** The bundled contracts, copied. *)
Definition contracts_copied (C P : path) (d : files) (c1 c2 c3 : string)
  (m : files) : files :=
  <[P ++ ["contracts"; "SlashingConditions.sol"] := File c3]>
  (<[P ++ ["contracts"; "TaskAVSRegistrar.sol"] := File c2]>
  (<[P ++ ["contracts"; "TaskMailbox.sol"] := File c1]>
  (grafted (C ++ ["interfaces"]) (P ++ ["contracts"; "interfaces"]) d ∪ m))).

(** The seven generated files. *)
Definition artifacts_written (P : path) (config : Answers) (pkg : string)
  (m : files) : files :=
  <[P ++ ["off-chain"; "package.json"] := File (offChainPackageText config)]>
  (<[P ++ ["off-chain"; "executor"; "index.ts"] := File getExecutorCode]>
  (<[P ++ ["off-chain"; "aggregator"; "index.ts"] := File getAggregatorCode]>
  (<[P ++ ["test"; "TaskMailbox.test.ts"] := File getTestFile]>
  (<[P ++ ["scripts"; "deploy.ts"] := File getDeployScript]>
  (<[P ++ ["hardhat.config.ts"] := File getHardhatConfig]>
  (<[P ++ ["package.json"] := File pkg]> m)))))).

(** The events of a run that goes through. *)
Definition events_start (env : Env) (name t : string) (config : Answers)
  : list event :=
  let P := projectPath env name in
  [ EvPathExists P; EvPrompt name t; EvEnsureDir P;
    EvLog ("Created directory: " +:+ projectName config);
    EvEnsureDir (P ++ ["contracts"]);
    EvEnsureDir (P ++ ["contracts"; "interfaces"]);
    EvEnsureDir (P ++ ["scripts"]);
    EvEnsureDir (P ++ ["test"]);
    EvEnsureDir (P ++ ["off-chain"]);
    EvEnsureDir (P ++ ["off-chain"; "aggregator"]);
    EvEnsureDir (P ++ ["off-chain"; "executor"]);
    EvPathExists (contractsPath env) ].

Definition events_copy (env : Env) (name : string) : list event :=
  let P := projectPath env name in
  let C := contractsPath env in
  [ EvCopy (C ++ ["interfaces"]) (P ++ ["contracts"; "interfaces"]);
    EvCopy (C ++ ["TaskMailbox.sol"]) (P ++ ["contracts"; "TaskMailbox.sol"]);
    EvCopy (C ++ ["TaskAVSRegistrar.sol"])
      (P ++ ["contracts"; "TaskAVSRegistrar.sol"]);
    EvCopy (C ++ ["SlashingConditions.sol"])
      (P ++ ["contracts"; "SlashingConditions.sol"]) ].

Definition events_write (env : Env) (name : string) (config : Answers)
  (pkg : string) : list event :=
  let P := projectPath env name in
  [ EvReadFile (templatePath env);
    EvWriteFile (P ++ ["package.json"]) pkg;
    EvWriteFile (P ++ ["hardhat.config.ts"]) getHardhatConfig;
    EvWriteFile (P ++ ["scripts"; "deploy.ts"]) getDeployScript;
    EvWriteFile (P ++ ["test"; "TaskMailbox.test.ts"]) getTestFile;
    EvWriteFile (P ++ ["off-chain"; "aggregator"; "index.ts"])
      getAggregatorCode;
    EvWriteFile (P ++ ["off-chain"; "executor"; "index.ts"]) getExecutorCode;
    EvWriteFile (P ++ ["off-chain"; "package.json"])
      (offChainPackageText config) ].

Definition events_done : list event :=
  [ EvLog "Project scaffolded successfully!" ].

(** The conditions of a run on a fresh target: the disk is well formed
    and holds the directory of the running module; nothing is at the
    target path and no regular file lies on the way to it; and the user
    answers the prompt. *)
Record fresh_target (env : Env) (name t : string) (d : files)
  (config : Answers) : Prop := {
  ft_well_formed : well_formed d;
  ft_module : d !! module_dir env = Some Dir;
  ft_absent : d !! projectPath env name = None;
  ft_clear : blocked (projectPath env name) d = false;
  ft_prompt : prompt env name t = Some config
}.

(** The bundled contracts are all there: the directory of interfaces and
    the three contract files. *)
Record bundled_contracts (env : Env) (d : files) (c1 c2 c3 : string)
  : Prop := {
  bc_interfaces : d !! (contractsPath env ++ ["interfaces"]) = Some Dir;
  bc_mailbox :
    d !! (contractsPath env ++ ["TaskMailbox.sol"]) = Some (File c1);
  bc_registrar :
    d !! (contractsPath env ++ ["TaskAVSRegistrar.sol"]) = Some (File c2);
  bc_slashing :
    d !! (contractsPath env ++ ["SlashingConditions.sol"]) = Some (File c3)
}.

(** A disk that differs from the disk with the target directory only
    below the target. *)
Definition grown (env : Env) (name : string) (d m : files) : Prop :=
  ∀ q, ¬ projectPath env name `prefix_of` q →
       m !! q = with_dirs (projectPath env name) d !! q.

(** The directories the generated files go to. *)
Definition dirs_ready (env : Env) (name : string) (m : files) : Prop :=
  let P := projectPath env name in
  m !! P = Some Dir ∧ m !! (P ++ ["scripts"]) = Some Dir
  ∧ m !! (P ++ ["test"]) = Some Dir
  ∧ m !! (P ++ ["off-chain"]) = Some Dir
  ∧ m !! (P ++ ["off-chain"; "aggregator"]) = Some Dir
  ∧ m !! (P ++ ["off-chain"; "executor"]) = Some Dir.

(** No directory is where a generated file goes. *)
Definition files_free (env : Env) (name : string) (m : files) : Prop :=
  let P := projectPath env name in
  is_dir (m !! (P ++ ["package.json"])) = false
  ∧ is_dir (m !! (P ++ ["hardhat.config.ts"])) = false
  ∧ is_dir (m !! (P ++ ["scripts"; "deploy.ts"])) = false
  ∧ is_dir (m !! (P ++ ["test"; "TaskMailbox.test.ts"])) = false
  ∧ is_dir (m !! (P ++ ["off-chain"; "aggregator"; "index.ts"])) = false
  ∧ is_dir (m !! (P ++ ["off-chain"; "executor"; "index.ts"])) = false
  ∧ is_dir (m !! (P ++ ["off-chain"; "package.json"])) = false.

(** The seven files the generator writes, and the three contracts it
    copies, below the project directory. *)
Definition generated_files : list path :=
  [ ["package.json"]; ["hardhat.config.ts"]; ["scripts"; "deploy.ts"];
    ["test"; "TaskMailbox.test.ts"];
    ["off-chain"; "aggregator"; "index.ts"];
    ["off-chain"; "executor"; "index.ts"];
    ["off-chain"; "package.json"] ].

Definition contract_files : list path :=
  [ ["contracts"; "TaskMailbox.sol"]; ["contracts"; "TaskAVSRegistrar.sol"];
    ["contracts"; "SlashingConditions.sol"] ].

(** The bundled resources are as a run needs them: the contracts are all
    there and the target is not inside the bundled interfaces, or there
    is no contracts directory, also once the target has been made. *)
Definition resources_ready (env : Env) (name : string) (d : files) : Prop :=
  (∃ c1 c2 c3, bundled_contracts env d c1 c2 c3
     ∧ ¬ contractsPath env ++ ["interfaces"] `prefix_of` projectPath env name)
  ∨ (d !! contractsPath env = None
     ∧ ¬ contractsPath env `prefix_of` projectPath env name).

(** The project directory and the generated files are on the disk. *)
Definition project_written (env : Env) (name : string) (config : Answers)
  (pkg : string) (m : files) : Prop :=
  let P := projectPath env name in
  m !! P = Some Dir
  ∧ m !! (P ++ ["package.json"]) = Some (File pkg)
  ∧ m !! (P ++ ["hardhat.config.ts"]) = Some (File getHardhatConfig)
  ∧ m !! (P ++ ["scripts"; "deploy.ts"]) = Some (File getDeployScript)
  ∧ m !! (P ++ ["test"; "TaskMailbox.test.ts"]) = Some (File getTestFile)
  ∧ m !! (P ++ ["off-chain"; "aggregator"; "index.ts"])
    = Some (File getAggregatorCode)
  ∧ m !! (P ++ ["off-chain"; "executor"; "index.ts"])
    = Some (File getExecutorCode)
  ∧ m !! (P ++ ["off-chain"; "package.json"])
    = Some (File (offChainPackageText config)).

(** Nothing changed away from the target and from the way to it. *)
Definition rest_kept (env : Env) (name : string) (d m : files) : Prop :=
  ∀ q, ¬ projectPath env name `prefix_of` q →
       ¬ q `prefix_of` projectPath env name → m !! q = d !! q.

(** A checker for well-formedness. *)
Definition well_formedb (m : files) : bool :=
  forallb
    (λ e, forallb (λ a, bool_decide (a = e.1) || is_dir (m !! a))
            (ancestors_and_self e.1))
    (map_to_list m).

(** The path an event writes to. *)
Definition write_target (e : event) : option path :=
  match e with
  | EvCopy _ dest => Some dest
  | EvWriteFile p _ => Some p
  | _ => None
  end.

(** The events that change the disk. *)
Definition is_mutation (e : event) : bool :=
  match e with
  | EvEnsureDir _ | EvCopy _ _ | EvWriteFile _ _ => true
  | _ => false
  end.

(** Before every write, the directory of its target was made. *)
Definition dir_before_write (tr : list event) : Prop :=
  ∀ i e p, tr !! i = Some e → write_target e = Some p →
    ∃ j, j < i ∧ tr !! j = Some (EvEnsureDir (dirname p)).

(** Before every other change, the project directory was made. *)
Definition root_first (P : path) (tr : list event) : Prop :=
  ∀ i e, tr !! i = Some e → is_mutation e = true →
    e = EvEnsureDir P ∨ ∃ j, j < i ∧ tr !! j = Some (EvEnsureDir P).

(** Before every change, the target path was checked. *)
Definition check_first (P : path) (tr : list event) : Prop :=
  ∀ i e, tr !! i = Some e → is_mutation e = true →
    ∃ j, j < i ∧ tr !! j = Some (EvPathExists P).

Definition ordered (P : path) (tr : list event) : Prop :=
  dir_before_write tr ∧ root_first P tr ∧ check_first P tr.

(** The state of a run: the trace is in order, the target path was
    checked, and the directories [ds] were made. *)
Definition made (P : path) (ds : list path) (tr : list event) : Prop :=
  ordered P tr ∧ EvPathExists P ∈ tr ∧ ∀ p, p ∈ ds → EvEnsureDir p ∈ tr.

(** From a trace in [I], the computation ends in a trace in [J] when it
    returns and in an ordered trace when it fails. *)
Definition traces (P : path) {A : Type} (I : list event → Prop) (m : M A)
  (J : A → list event → Prop) : Prop :=
  ∀ w, I (trace w) →
    match m w with
    | (Ok a, w') => J a (trace w')
    | (Err _, w') => ordered P (trace w')
    end.

(** The compiled template uses the [template] variable. *)
Definition mentions_template (t : Handlebars.compiled) : bool :=
  existsb (λ seg, match seg with
                  | Handlebars.Content _ => false
                  | Handlebars.Mustache _ name => String.eqb name "template"
                  end) t.

(** The two disks are the same but for the root package.json at [pj],
    which is either the same too or rendered from one template body for
    the two configurations. *)
Definition alike (c1 c2 : Answers) (pj : path) (m1 m2 : files) : Prop :=
  (∀ q, q ≠ pj → m1 !! q = m2 !! q)
  ∧ (m1 !! pj = m2 !! pj
     ∨ ∃ source p1 p2,
         rendered source c1 = Some p1 ∧ rendered source c2 = Some p2
         ∧ m1 !! pj = Some (File p1) ∧ m2 !! pj = Some (File p2)).

(** The same, once the root package.json is written. *)
Definition diverged (c1 c2 : Answers) (pj : path) (m1 m2 : files) : Prop :=
  (∀ q, q ≠ pj → m1 !! q = m2 !! q)
  ∧ ∃ source p1 p2,
      rendered source c1 = Some p1 ∧ rendered source c2 = Some p2
      ∧ m1 !! pj = Some (File p1) ∧ m2 !! pj = Some (File p2).

(** Two computations, from disks in [I]: they return the same value on
    disks in [J], or fail with the same error on disks that are alike. *)
Definition related (c1 c2 : Answers) (pj : path) {A : Type}
  (I : files → files → Prop) (ma mb : M A)
  (J : A → files → files → Prop) : Prop :=
  ∀ w1 w2, I (disk w1) (disk w2) →
    match ma w1, mb w2 with
    | (Ok a1, w1'), (Ok a2, w2') => a1 = a2 ∧ J a1 (disk w1') (disk w2')
    | (Err e1, w1'), (Err e2, w2') =>
        e1 = e2 ∧ alike c1 c2 pj (disk w1') (disk w2')
    | _, _ => False
    end.

(** ** Rendering *)

(** The three constant parts of the default root package.json, around
    the name and the description. *)
Definition package_head : string :=
  unlines [ "{"; "  " +:+ q "name" +:+ ": " +:+ dq ].

Definition package_middle : string :=
  unlines
    [ dq +:+ ",";
      "  " +:+ q "version" +:+ ": " +:+ q "0.1.0" +:+ ",";
      "  " +:+ q "description" +:+ ": " +:+ dq ].

Definition package_tail : string :=
  unlines
    [ dq +:+ ",";
      "  " +:+ q "scripts" +:+ ": {";
      "    " +:+ q "compile" +:+ ": " +:+ q "hardhat compile" +:+ ",";
      "    " +:+ q "test" +:+ ": " +:+ q "hardhat test" +:+ ",";
      "    " +:+ q "deploy" +:+ ": " +:+ q "hardhat run scripts/deploy.ts";
      "  },";
      "  " +:+ q "devDependencies" +:+ ": {";
      "    " +:+ q "@nomicfoundation/hardhat-toolbox" +:+ ": "
        +:+ q "^4.0.0" +:+ ",";
      "    " +:+ q "hardhat" +:+ ": " +:+ q "^2.19.4" +:+ ",";
      "    " +:+ q "typescript" +:+ ": " +:+ q "^5.3.3";
      "  }";
      "}" ].

(** The root package.json with what stands for the name and for the
    description. *)
Definition package_text (name_text description_text : string) : string :=
  package_head +:+ name_text +:+ package_middle +:+ description_text
  +:+ package_tail.

(** No character of the string is one that [escapeExpression] replaces. *)
Definition html_safe (s : string) : bool :=
  forallb_chars
    (λ c, negb (is_char 38 c || is_char 60 c || is_char 62 c || is_char 34 c
               || is_char 39 c || is_char 96 c || is_char 61 c)) s.

(** The source text of a template of the fragment. *)
Definition unparse_segment (seg : segment) : string :=
  match seg with
  | Content s => s
  | Mustache true name => "{{" +:+ name +:+ "}}"
  | Mustache false name => "{{{" +:+ name +:+ "}}}"
  end.

Definition unparse (t : compiled) : string :=
  foldr (λ seg acc, unparse_segment seg +:+ acc) "" t.

(** Content without an opening brace and without a backslash. *)
Definition plain_text (s : string) : bool :=
  forallb_chars (λ c, negb (is_char 123 c || is_char 92 c)) s.

Definition well_written (t : compiled) : bool :=
  forallb (λ seg, match seg with
                  | Content s => plain_text s
                  | Mustache _ name => valid_name name
                  end) t.

(** The rendering of what the tokenizer gives from a state. *)
Definition rendering (lookup : string → option string) (st : state)
  (s : string) : option string :=
  render lookup <$> tokenize st s.

(** ** The off-chain package.json *)

(** The constant text before and after the name. *)
Definition offchain_head : string :=
  unlines [ "{"; "  " +:+ q "name" +:+ ": " ].

Definition offchain_tail : string :=
  unlines
    [ ",";
      "  " +:+ q "version" +:+ ": " +:+ q "0.1.0" +:+ ",";
      "  " +:+ q "type" +:+ ": " +:+ q "module" +:+ ",";
      "  " +:+ q "dependencies" +:+ ": {";
      "    " +:+ q "ethers" +:+ ": " +:+ q "^6.9.2" +:+ ",";
      "    " +:+ q "dotenv" +:+ ": " +:+ q "^16.3.1";
      "  }";
      "}";
      "" ].

(** ** Concrete worlds *)

(** A disk with the package of the generator, with and without its
    bundled contracts, and the home of a user with one file in it. *)
Definition bare_entries : list (path * node) :=
  [ ([], Dir); (["home"], Dir); (["home"; "u"], Dir);
    (["home"; "u"; "notes"], File "todo");
    (["pkg"], Dir); (["pkg"; "dist"], Dir);
    (["pkg"; "dist"; "generators"], Dir) ].

Definition contract_entries : list (path * node) :=
  [ (["pkg"; "contracts"], Dir);
    (["pkg"; "contracts"; "interfaces"], Dir);
    (["pkg"; "contracts"; "interfaces"; "ITaskMailbox.sol"],
      File "interface ITaskMailbox {}");
    (["pkg"; "contracts"; "TaskMailbox.sol"], File "contract TaskMailbox {}");
    (["pkg"; "contracts"; "TaskAVSRegistrar.sol"],
      File "contract TaskAVSRegistrar {}");
    (["pkg"; "contracts"; "SlashingConditions.sol"],
      File "contract SlashingConditions {}") ].

Definition bare_disk : files := list_to_map bare_entries.
Definition demo_disk : files := list_to_map (bare_entries ++ contract_entries).

(** The user accepts the name, picks a template and describes the
    project as [x]. *)
Definition demo_env_with (choice : Template) : Env :=
  {| cwd := ["home"; "u"];
     module_dir := ["pkg"; "dist"; "generators"];
     prompt := λ n _, Some {| projectName := n; template := choice;
                              description := "x" |} |}.

Definition demo_env : Env := demo_env_with TaskBased.

(** The user types another name at the prompt. *)
Definition renaming_env : Env :=
  {| cwd := ["home"; "u"];
     module_dir := ["pkg"; "dist"; "generators"];
     prompt := λ _ _, Some {| projectName := "other"; template := Oracle;
                              description := "x" |} |}.

Definition other_config : Answers :=
  {| projectName := "other"; template := Oracle; description := "x" |}.

(** The configurations of the examples. *)
Definition demo_config : Answers :=
  {| projectName := "demo"; template := TaskBased; description := "x" |}.

Definition ampersand_config : Answers :=
  {| projectName := "a&b"; template := TaskBased; description := "x" |}.

Definition oracle_config : Answers :=
  {| projectName := "demo"; template := Oracle; description := "x" |}.

(** ** What every run respects *)

(** From a world in [I], the computation ends in a world in [J] when it
    returns and in a world in [E] when it fails. *)
Definition triple {A : Type} (I : world → Prop) (m : M A)
  (J : A → world → Prop) (E : world → Prop) : Prop :=
  ∀ w, I w →
    match m w with
    | (Ok a, w') => J a w'
    | (Err _, w') => E w'
    end.

(** Nothing of [d] is removed in [m], and nothing changes its kind. *)
Definition kept (d m : files) : Prop :=
  ∀ q n, d !! q = Some n → ∃ n', m !! q = Some n' ∧ same_kind n n' = true.

(** Away from what is at and below [P], [m] is [d] with, at most, new
    directories on the way to [P]. *)
Definition outside_kept (P : path) (d m : files) : Prop :=
  ∀ q, ¬ P `prefix_of` q →
    m !! q = d !! q
    ∨ (d !! q = None ∧ m !! q = Some Dir ∧ q `prefix_of` P).

Definition grows (P : path) (d m : files) : Prop :=
  kept d m ∧ outside_kept P d m.

(** The events of a run of the generator: it looks for the target and
    for the bundled contracts, asks the user once, reads nothing but the
    bundled template, copies from the bundled contracts only, and makes
    and writes at and below the target only; it never prints an error and
    never ends the process. *)
Definition allowed (env : Env) (name t : string) (e : event) : Prop :=
  match e with
  | EvPathExists p => p = projectPath env name ∨ p = contractsPath env
  | EvPrompt n t' => n = name ∧ t' = t
  | EvEnsureDir p => projectPath env name `prefix_of` p
  | EvWriteFile p _ => projectPath env name `prefix_of` dirname p
  | EvCopy src dest =>
      contractsPath env `prefix_of` dirname src
      ∧ projectPath env name `prefix_of` dirname dest
  | EvReadFile p => p = templatePath env
  | EvLog _ => True
  | EvError _ | EvExit _ => False
  end.

(** Before every change, the user was asked. *)
Definition prompt_first (name t : string) (tr : list event) : Prop :=
  ∀ i e, tr !! i = Some e → is_mutation e = true →
    ∃ j, j < i ∧ tr !! j = Some (EvPrompt name t).

(** What holds of the world all along a run from the disk [d]. *)
Record sound (env : Env) (name t : string) (d : files) (w : world)
  : Prop := {
  sound_grows : grows (projectPath env name) d (disk w);
  sound_events : Forall (allowed env name t) (trace w);
  sound_prompt : prompt_first name t (trace w);
  sound_target : disk w = d ∨ disk w !! projectPath env name = Some Dir
}.

(** Before the project directory is made: the disk is as it was. *)
Definition untouched (env : Env) (name t : string) (d : files)
  (asked : bool) (w : world) : Prop :=
  disk w = d
  ∧ Forall (allowed env name t) (trace w)
  ∧ Forall (λ e, is_mutation e = false) (trace w)
  ∧ (asked = true → EvPrompt name t ∈ trace w).

(** Once it is made. *)
Definition begun (env : Env) (name t : string) (d : files) (w : world)
  : Prop :=
  sound env name t d w
  ∧ disk w !! projectPath env name = Some Dir
  ∧ EvPrompt name t ∈ trace w.

(** The computation keeps a property of the disk, whether it returns
    or fails. *)
Definition steady {A : Type} (Q : files → Prop) (m : M A) : Prop :=
  triple (λ w, Q (disk w)) m (λ _ w, Q (disk w)) (λ w, Q (disk w)).

(** ** The command and the trace *)

(** The computation does not look at the trace: it only adds to it. *)
Definition framed {A : Type} (m : M A) : Prop :=
  ∀ d tr,
    m (World d tr)
    = ((m (World d [])).1,
       World (disk (m (World d [])).2) (tr ++ trace (m (World d [])).2)).

(** The name the [create] command works with. *)
Definition given_name (projectName : option string) : string :=
  match projectName with
  | Some n => if String.eqb n "" then "my-avs" else n
  | None => "my-avs"
  end.

(** The lines printed by [console.log]. *)
Definition logs (tr : list event) : list string :=
  omap (λ e, match e with EvLog line => Some line | _ => None end) tr.

(** ** Characters that go through unchanged *)

(** No character of the string is one that [JSON.stringify] escapes:
    the double quote, the backslash and the control characters. *)
Definition json_safe (s : string) : bool :=
  forallb_chars
    (λ c, negb (is_char 34 c || is_char 92 c
               || Nat.ltb (nat_of_ascii c) 32)) s.

(** No character of the string could end an attribute or a string
    literal, or open a tag. *)
Definition no_markup (s : string) : bool :=
  forallb_chars
    (λ c, negb (is_char 60 c || is_char 62 c || is_char 34 c
               || is_char 39 c || is_char 96 c || is_char 61 c)) s.

(** A user who gives up at the prompt. *)
Definition silent_env : Env :=
  {| cwd := ["home"; "u"];
     module_dir := ["pkg"; "dist"; "generators"];
     prompt := λ _ _, None |}.

(** A disk whose bundled contracts directory is there but empty. *)
Definition hollow_disk : files :=
  list_to_map (bare_entries ++ [ (["pkg"; "contracts"], Dir) ]).

(** A disk with a bundled template that records the chosen template. *)
Definition templated_disk : files :=
  list_to_map
    (bare_entries
     ++ [ (["pkg"; "dist"; "templates"], Dir);
          (["pkg"; "dist"; "templates"; "package.json.hbs"],
            File "{{projectName}} ({{template}}): {{{description}}}") ]).

(** * Properties *)

(** ** Paths *)

Section PathFacts.
Implicit Types (p a b : path) (x : string).

Lemma walk_plain p c : plain c = true → walk p c = p ++ [c].
Proof.
  unfold plain, walk. intros H.
  destruct (String.eqb c ""), (String.eqb c "."), (String.eqb c "..");
    done.
Qed.

Lemma foldl_walk_plain l : ∀ p,
  forallb plain l = true → foldl walk p l = p ++ l.
Proof.
  induction l as [|c l IH]; intros p H; simpl in *.
  - by rewrite app_nil_r.
  - apply andb_prop in H as [Hc Hl].
    rewrite walk_plain, IH by done. by rewrite <- app_assoc.
Qed.

Lemma join_rel p s l :
  split s = l → forallb plain l = true → join p s = p ++ l.
Proof. intros <- H. by apply foldl_walk_plain. Qed.

Lemma join_up_templates p :
  join p "../templates/package.json.hbs"
  = removelast p ++ ["templates"; "package.json.hbs"].
Proof.
  change (join p "../templates/package.json.hbs")
    with ((removelast p ++ ["templates"]) ++ ["package.json.hbs"]).
  by rewrite <- app_assoc.
Qed.

Lemma join_up_contracts p :
  join p "../../contracts" = removelast (removelast p) ++ ["contracts"].
Proof. reflexivity. Qed.

Lemma dirname_snoc p x : dirname (p ++ [x]) = p.
Proof. apply removelast_last. Qed.

Lemma dirname_snoc2 p x y : dirname (p ++ [x; y]) = p ++ [x].
Proof.
  change [x; y] with ([x] ++ [y]). rewrite app_assoc. apply dirname_snoc.
Qed.

Lemma ancestors_and_self_snoc p x :
  ancestors_and_self (p ++ [x]) = ancestors_and_self p ++ [p ++ [x]].
Proof.
  unfold ancestors_and_self.
  replace (length (p ++ [x])) with (S (length p))
    by (rewrite length_app; simpl; lia).
  rewrite (seq_S (S (length p)) 0), fmap_app. f_equal.
  - apply list_fmap_ext. intros i n Hn.
    apply lookup_seq in Hn as [-> Hlt].
    rewrite take_app_le by (simpl; lia). done.
  - simpl. f_equal.
    by rewrite firstn_all2 by (rewrite length_app; simpl; lia).
Qed.

Lemma elem_of_ancestors_and_self a p :
  a ∈ ancestors_and_self p ↔ a `prefix_of` p.
Proof.
  unfold ancestors_and_self. rewrite list_elem_of_fmap. split.
  - intros (n & -> & _). apply prefix_take.
  - intros [k ->]. exists (length a). split.
    + by rewrite take_app_length.
    + apply elem_of_seq. rewrite length_app. lia.
Qed.

Lemma prefix_snoc_inv a p x :
  a `prefix_of` p ++ [x] → a `prefix_of` p ∨ a = p ++ [x].
Proof.
  intros [k Hk]. destruct (decide (k = [])) as [->|Hne].
  - right. by rewrite app_nil_r in Hk.
  - left. destruct (exists_last Hne) as (k' & y & ->).
    rewrite app_assoc in Hk. apply app_inj_tail in Hk as [-> _].
    by exists k'.
Qed.

Lemma prefix_app_cons_not p x (l : list string) : ¬ p ++ x :: l `prefix_of` p.
Proof.
  intros H%prefix_length. rewrite length_app in H. simpl in H. lia.
Qed.

Lemma dirname_snoc3 p x y z : dirname (p ++ [x; y; z]) = p ++ [x; y].
Proof.
  change [x; y; z] with ([x; y] ++ [z]). rewrite app_assoc.
  apply dirname_snoc.
Qed.

Lemma removelast_prefix p : removelast p `prefix_of` p.
Proof.
  destruct (decide (p = [])) as [->|Hp]; [done|].
  destruct (exists_last Hp) as (p' & x & ->).
  rewrite removelast_last. by exists [x].
Qed.
End PathFacts.

(** Rewrites [join p s], for a literal [s] of plain components, into
    [p ++ l]. *)
Ltac norm_join :=
  repeat match goal with
  | |- context [join ?p ?s] =>
      let l := eval vm_compute in (split s) in
      rewrite (join_rel p s l eq_refl eq_refl)
  end.

(** ** The file system operations *)

Section FsFacts.
Implicit Types (m : files) (p q src dest : path) (x : string) (n : node).

Lemma blocked_false p m :
  blocked p m = false ↔ ∀ a, a `prefix_of` p → is_file (m !! a) = false.
Proof.
  unfold blocked. rewrite <- not_true_iff_false, existsb_exists. split.
  - intros H a Ha. apply not_true_iff_false. intros Hf. apply H.
    exists a. split; [|done].
    apply list_elem_of_In, elem_of_ancestors_and_self, Ha.
  - intros H (a & Ha & Hf).
    apply list_elem_of_In, elem_of_ancestors_and_self in Ha.
    rewrite (H a Ha) in Hf. done.
Qed.

Lemma dir_chain_not_blocked p m : dir_chain p m → blocked p m = false.
Proof. intros H. apply blocked_false. intros a Ha. by rewrite (H a Ha). Qed.

Lemma lookup_foldr_insert_dir (l : list path) m q :
  foldr (λ a acc, <[a := Dir]> acc) m l !! q
  = if bool_decide (q ∈ l) then Some Dir else m !! q.
Proof.
  induction l as [|a l IH]; cbn [foldr].
  - case_bool_decide as H; [by apply elem_of_nil in H | done].
  - rewrite lookup_insert, IH.
    destruct (decide (a = q)) as [->|Ha].
    + by rewrite bool_decide_eq_true_2 by left.
    + destruct (decide (q ∈ l)) as [Hl|Hl].
      * by rewrite !bool_decide_eq_true_2 by (done || by right).
      * rewrite !bool_decide_eq_false_2; [done | | done].
        by intros [->|?]%elem_of_cons.
Qed.

Lemma with_dirs_lookup p m q :
  with_dirs p m !! q
  = if bool_decide (q `prefix_of` p) then Some Dir else m !! q.
Proof.
  unfold with_dirs. rewrite lookup_foldr_insert_dir.
  by rewrite (bool_decide_ext _ _ (elem_of_ancestors_and_self q p)).
Qed.

Lemma mkdirs_ok p m : blocked p m = false → mkdirs p m = Some (with_dirs p m).
Proof. unfold mkdirs. by intros ->. Qed.

Lemma mkdirs_child p x m :
  dir_chain p m → is_file (m !! (p ++ [x])) = false →
  mkdirs (p ++ [x]) m = Some (<[p ++ [x] := Dir]> m).
Proof.
  intros Hp Hx.
  assert (blocked (p ++ [x]) m = false) as Hb.
  { apply blocked_false. intros a [Ha| ->]%prefix_snoc_inv; [|done].
    by rewrite (Hp a Ha). }
  rewrite (mkdirs_ok _ _ Hb). f_equal.
  apply map_eq. intros q. rewrite with_dirs_lookup, lookup_insert.
  case_bool_decide as Hq; case_decide as Hq'; subst; try done.
  apply prefix_snoc_inv in Hq as [Hq| ->]; [|done]. by rewrite (Hp q Hq).
Qed.

Lemma dir_chain_snoc p x m :
  dir_chain p m → m !! (p ++ [x]) = Some Dir → dir_chain (p ++ [x]) m.
Proof. intros Hp Hx a [Ha| ->]%prefix_snoc_inv; [by apply Hp | done]. Qed.

Lemma dir_chain_insert_ne p k v m :
  dir_chain p m → ¬ k `prefix_of` p → dir_chain p (<[k := v]> m).
Proof.
  intros Hp Hk a Ha. rewrite lookup_insert_ne; [by apply Hp|].
  by intros ->.
Qed.

Lemma write_ok p data m :
  m !! dirname p = Some Dir → is_dir (m !! p) = false →
  write p data m = Some (<[p := File data]> m).
Proof. unfold write. by intros -> ->. Qed.

(** *** Copying *)

Lemma retarget_prefix src dest k : retarget src dest (src ++ k) = dest ++ k.
Proof. unfold retarget. by rewrite drop_app_length. Qed.

Lemma elem_of_subtree src m a n :
  (a, n) ∈ subtree src m ↔ src `prefix_of` a ∧ m !! a = Some n.
Proof.
  unfold subtree. rewrite list_elem_of_filter, elem_of_map_to_list. done.
Qed.

Lemma NoDup_subtree_keys src m : NoDup (subtree src m).*1.
Proof.
  eapply sublist_NoDup; [apply (NoDup_fst_map_to_list m)|].
  apply fmap_sublist, sublist_filter.
Qed.

Lemma NoDup_grafted_keys src dest m :
  NoDup ((prod_map (retarget src dest) id <$> subtree src m).*1).
Proof.
  rewrite <- list_fmap_compose.
  apply NoDup_fmap_2_strong.
  - intros [a n] [a' n'] [[k ->] Ha]%elem_of_subtree
      [[k' ->] Ha']%elem_of_subtree. simpl.
    rewrite !retarget_prefix. intros ->%app_inv_head. congruence.
  - eapply NoDup_fmap_1, NoDup_subtree_keys.
Qed.

(** What the copy puts at a path. *)
Lemma grafted_lookup src dest m q :
  grafted src dest m !! q
  = if bool_decide (dest `prefix_of` q)
    then m !! (src ++ drop (length dest) q) else None.
Proof.
  unfold grafted.
  destruct (list_to_map _ !! q) as [n|] eqn:Hq.
  - apply elem_of_list_to_map_2, list_elem_of_fmap in Hq
      as ([a n'] & [= -> ->] & [[k ->] Ha]%elem_of_subtree).
    rewrite retarget_prefix.
    rewrite bool_decide_eq_true_2 by by exists k.
    by rewrite drop_app_length.
  - case_bool_decide as Hpre; [|done].
    destruct Hpre as [k ->]. rewrite drop_app_length.
    destruct (m !! (src ++ k)) as [n|] eqn:Hn; [|done].
    apply not_elem_of_list_to_map_2 in Hq. destruct Hq.
    apply list_elem_of_fmap. exists (dest ++ k, n). split; [done|].
    apply list_elem_of_fmap. exists (src ++ k, n).
    split; [by simpl; rewrite retarget_prefix|].
    apply elem_of_subtree. split; [by exists k | done].
Qed.

Lemma clashes_false src dest m :
  (∀ k n n', m !! (src ++ k) = Some n → m !! (dest ++ k) = Some n' →
             same_kind n n' = true) →
  clashes src dest m = false.
Proof.
  intros H. unfold clashes. apply not_true_iff_false.
  rewrite existsb_exists.
  intros ([a n] & [[k ->] Ha]%list_elem_of_In%elem_of_subtree & Hc).
  simpl in Hc. rewrite retarget_prefix in Hc.
  destruct (m !! (dest ++ k)) as [n'|] eqn:Hn'; [|done].
  by rewrite (H k n n' Ha Hn') in Hc.
Qed.

(** When a copy goes through. *)
Lemma copy_tree_ok src dest m n :
  m !! src = Some n →
  dir_chain (dirname dest) m →
  ¬ src `prefix_of` dest →
  (∀ k n n', m !! (src ++ k) = Some n → m !! (dest ++ k) = Some n' →
             same_kind n n' = true) →
  copy_tree src dest m = Some (grafted src dest m ∪ m).
Proof.
  intros Hsrc Hchain Hpre Hclash. unfold copy_tree. rewrite Hsrc.
  rewrite (dir_chain_not_blocked _ _ Hchain).
  rewrite bool_decide_eq_false_2 by (intros ->; by apply Hpre).
  rewrite (bool_decide_eq_false_2 _ Hpre), andb_false_r.
  rewrite (clashes_false _ _ _ Hclash).
  by rewrite (Hchain (dirname dest)).
Qed.

(** Copying a regular file adds or replaces one entry. *)
Lemma grafted_file src dest m data :
  m !! src = Some (File data) →
  (∀ k, k ≠ [] → m !! (src ++ k) = None) →
  grafted src dest m ∪ m = <[dest := File data]> m.
Proof.
  intros Hsrc Hleaf. apply map_eq. intros q.
  rewrite lookup_union, grafted_lookup, lookup_insert.
  case_bool_decide as Hpre.
  - destruct Hpre as [k ->]. rewrite drop_app_length.
    destruct (decide (k = [])) as [->|Hk].
    + rewrite !app_nil_r, Hsrc. rewrite decide_True by done.
      by destruct (m !! dest).
    + rewrite (Hleaf k Hk). rewrite decide_False.
      * by destruct (m !! (dest ++ k)).
      * intros Heq. apply Hk. apply (app_inv_head dest).
        by rewrite app_nil_r.
  - rewrite decide_False; [by destruct (m !! q)|].
    intros ->. by apply Hpre.
Qed.

(** A copy does not reach outside its destination. *)
Lemma graft_miss src dest m m' q :
  ¬ dest `prefix_of` q → (grafted src dest m ∪ m') !! q = m' !! q.
Proof.
  intros Hq. rewrite lookup_union, grafted_lookup.
  rewrite bool_decide_eq_false_2 by done. by destruct (m' !! q).
Qed.

Lemma dir_chain_graft p src dest m m' :
  dir_chain p m' → ¬ dest `prefix_of` p ∨ m' !! dest = Some Dir ∧ m !! src = Some Dir
    ∧ dest = p →
  dir_chain p (grafted src dest m ∪ m').
Proof.
  intros Hp Hd a Ha.
  destruct (decide (dest `prefix_of` a)) as [Hda|Hda].
  - destruct Hd as [Hd|(Hd & Hs & ->)].
    + destruct Hd. by etrans.
    + assert (a = p) as -> by (by apply (anti_symm prefix)).
      rewrite lookup_union, grafted_lookup, bool_decide_eq_true_2 by done.
      by rewrite drop_all, app_nil_r, Hs, Hd.
  - rewrite graft_miss by done. by apply Hp.
Qed.

(** The copied entries depend on the source tree only. *)
Lemma grafted_ext src dest m m' :
  (∀ k, m !! (src ++ k) = m' !! (src ++ k)) →
  grafted src dest m = grafted src dest m'.
Proof.
  intros H. apply map_eq. intros q. rewrite !grafted_lookup.
  case_bool_decide; [apply H | done].
Qed.
End FsFacts.

(** ** Running the monad *)

Section MonadFacts.
Context {A B : Type}.
Implicit Types (w : world) (p : path).

Lemma exec_bind (m : M A) (k : A → M B) w a w1 res :
  m w = (Ok a, w1) → k a w1 = res → (m ≫= k) w = res.
Proof. intros Hm <-. unfold mbind, M_bind, bind. by rewrite Hm. Qed.

Lemma exec_bind_err (m : M A) (k : A → M B) w e w1 :
  m w = (Err e, w1) → (m ≫= k) w = (Err e, w1).
Proof. intros Hm. unfold mbind, M_bind, bind. by rewrite Hm. Qed.

Lemma bind_unfold (m : M A) (k : A → M B) w :
  (m ≫= k) w = match m w with
               | (Ok a, w') => k a w'
               | (Err e, w') => (Err e, w')
               end.
Proof. reflexivity. Qed.
End MonadFacts.

Lemma exec_then_log (m : M unit) line w m' tr :
  m w = (Ok tt, World m' tr) →
  (m;; console_log line) w = (Ok tt, World m' (tr ++ [EvLog line])).
Proof. intros H. eapply exec_bind; [exact H|]. reflexivity. Qed.

Section PrimitiveFacts.
Implicit Types (w : world) (p : path).

Lemma emit_run e w : emit e w = (Ok tt, World (disk w) (trace w ++ [e])).
Proof. reflexivity. Qed.

Lemma pathExists_run p w :
  pathExists p w
  = (Ok (exists_at (disk w !! p)),
     World (disk w) (trace w ++ [EvPathExists p])).
Proof. reflexivity. Qed.

Lemma update_run syscall p f e w :
  (emit e;; update syscall p f) w
  = match f (disk w) with
    | Some m => (Ok tt, World m (trace w ++ [e]))
    | None => (Err (FsError syscall p), World (disk w) (trace w ++ [e]))
    end.
Proof.
  unfold mbind, M_bind, bind, emit, update. simpl.
  by destruct (f (disk w)).
Qed.

Lemma ensureDir_ok p w m' :
  mkdirs p (disk w) = Some m' →
  ensureDir p w = (Ok tt, World m' (trace w ++ [EvEnsureDir p])).
Proof. intros H. unfold ensureDir. by rewrite update_run, H. Qed.

Lemma copy_ok src dest w m' :
  copy_tree src dest (disk w) = Some m' →
  copy src dest w = (Ok tt, World m' (trace w ++ [EvCopy src dest])).
Proof. intros H. unfold copy. by rewrite update_run, H. Qed.

Lemma writeFile_ok p data w m' :
  write p data (disk w) = Some m' →
  writeFile p data w = (Ok tt, World m' (trace w ++ [EvWriteFile p data])).
Proof. intros H. unfold writeFile. by rewrite update_run, H. Qed.

Lemma readFile_run p w :
  readFile p w
  = (match read p (disk w) with
     | Some data => Ok data
     | None => Err (FsError "open" p)
     end, World (disk w) (trace w ++ [EvReadFile p])).
Proof. reflexivity. Qed.

(** Loading the template never fails: a failed read gives the default
    body. *)
Lemma load_template_run p w :
  catch (readFile p) (λ _, mret getDefaultPackageJsonTemplate) w
  = (Ok (default getDefaultPackageJsonTemplate (read p (disk w))),
     World (disk w) (trace w ++ [EvReadFile p])).
Proof.
  unfold catch. rewrite readFile_run. by destruct (read p (disk w)).
Qed.
End PrimitiveFacts.

(** ** What a run leaves behind *)

Section Run.
Context (env : Env) (name t : string) (d : files) (config : Answers).
Context (Hft : fresh_target env name t d config).

Local Abbreviation P := (projectPath env name).
Local Abbreviation C := (contractsPath env).
Local Abbreviation T := (templatePath env).
Local Abbreviation m1 := (with_dirs (projectPath env name) d).

Lemma m1_chain : dir_chain P m1.
Proof.
  intros a Ha. rewrite with_dirs_lookup.
  by rewrite bool_decide_eq_true_2.
Qed.

Lemma m1_outside q : ¬ q `prefix_of` P → m1 !! q = d !! q.
Proof.
  intros Hq. rewrite with_dirs_lookup.
  by rewrite bool_decide_eq_false_2.
Qed.

(** Nothing of the old disk is at or below the target. *)
Lemma d_below r : d !! (P ++ r) = None.
Proof.
  destruct (d !! (P ++ r)) as [n|] eqn:Hn; [|done].
  destruct (decide (r = [])) as [->|Hr].
  - rewrite app_nil_r in Hn. by rewrite (ft_absent _ _ _ _ _ Hft) in Hn.
  - pose proof (ft_well_formed _ _ _ _ _ Hft _ _ Hn P) as H.
    rewrite (ft_absent _ _ _ _ _ Hft) in H.
    discriminate H; [by exists r|].
    intros Heq. apply Hr. apply (app_inv_head P). by rewrite app_nil_r.
Qed.

Lemma m1_below r : r ≠ [] → m1 !! (P ++ r) = None.
Proof.
  intros Hr. rewrite m1_outside; [apply d_below|].
  intros Hpre. apply prefix_length in Hpre. rewrite length_app in Hpre.
  destruct r; [done|]. simpl in Hpre. lia.
Qed.

(** What was on the disk is still there. *)
Lemma m1_old q n : d !! q = Some n → m1 !! q = Some n.
Proof.
  intros Hq. rewrite with_dirs_lookup. case_bool_decide as Hpre; [|done].
  pose proof (proj1 (blocked_false _ _) (ft_clear _ _ _ _ _ Hft) q Hpre) as Hf.
  rewrite Hq in Hf. by destruct n.
Qed.

Lemma old_outside q n : d !! q = Some n → ¬ P `prefix_of` q.
Proof. intros Hq [r ->]. by rewrite d_below in Hq. Qed.

(** *** Lookups in a disk built by insertions below the target *)

Lemma dir_chain_insert m r v :
  dir_chain P m → r ≠ [] → dir_chain P (<[P ++ r := v]> m).
Proof.
  intros Hm Hr a Ha. rewrite lookup_insert_ne; [by apply Hm|].
  intros <-. destruct r; [done|]. by apply prefix_app_cons_not in Ha.
Qed.

Lemma mk1 m x :
  dir_chain P m → is_file (m !! (P ++ [x])) = false →
  mkdirs (P ++ [x]) m = Some (<[P ++ [x] := Dir]> m).
Proof. apply mkdirs_child. Qed.

Lemma mk2 m x y :
  dir_chain P m → m !! (P ++ [x]) = Some Dir →
  is_file (m !! (P ++ [x; y])) = false →
  mkdirs (P ++ [x; y]) m = Some (<[P ++ [x; y] := Dir]> m).
Proof.
  intros Hm Hx Hy. change [x; y] with ([x] ++ [y]) in *.
  rewrite app_assoc in *. apply mkdirs_child; [|done].
  intros a [Ha| ->]%prefix_snoc_inv; [by apply Hm | done].
Qed.
End Run.

(** Lookups through insertions at distinct paths below one root. *)
Ltac path_ne :=
  let H := fresh in
  intros H;
  first [ apply app_inv_head in H; discriminate H
        | apply (f_equal length) in H; rewrite ?length_app in H;
          simpl in H; lia ].
Ltac look :=
  repeat first
    [ rewrite lookup_insert_eq
    | rewrite lookup_insert_ne by path_ne ].

Section RunDirs.
Context (env : Env) (name t : string) (d : files) (config : Answers).
Context (Hft : fresh_target env name t d config).

Local Abbreviation P := (projectPath env name).
Local Abbreviation m1 := (with_dirs (projectPath env name) d).

Lemma dirs_then {B} (k : M B) w :
  disk w = m1 →
  (ensureDir (P ++ ["contracts"]);;
   ensureDir (P ++ ["contracts"; "interfaces"]);;
   ensureDir (P ++ ["scripts"]);;
   ensureDir (P ++ ["test"]);;
   ensureDir (P ++ ["off-chain"]);;
   ensureDir (P ++ ["off-chain"; "aggregator"]);;
   ensureDir (P ++ ["off-chain"; "executor"]);;
   k) w
  = k (World (dirs_built P m1)
         (trace w ++
          [ EvEnsureDir (P ++ ["contracts"]);
            EvEnsureDir (P ++ ["contracts"; "interfaces"]);
            EvEnsureDir (P ++ ["scripts"]);
            EvEnsureDir (P ++ ["test"]);
            EvEnsureDir (P ++ ["off-chain"]);
            EvEnsureDir (P ++ ["off-chain"; "aggregator"]);
            EvEnsureDir (P ++ ["off-chain"; "executor"]) ])).
Proof.
  intros Hw. destruct w as [m tr]. simpl in Hw. subst m.
  pose proof (m1_chain env name d) as Hc.
  pose proof (m1_below env name t d config Hft) as Hb.
  eapply exec_bind.
  { apply ensureDir_ok. cbn [disk]. apply mk1; [done|].
    by rewrite Hb. }
  eapply exec_bind.
  { apply ensureDir_ok. cbn [disk]. apply mk2.
    - by repeat apply dir_chain_insert.
    - by look.
    - look. by rewrite Hb. }
  eapply exec_bind.
  { apply ensureDir_ok. cbn [disk]. apply mk1.
    - by repeat apply dir_chain_insert.
    - look. by rewrite Hb. }
  eapply exec_bind.
  { apply ensureDir_ok. cbn [disk]. apply mk1.
    - by repeat apply dir_chain_insert.
    - look. by rewrite Hb. }
  eapply exec_bind.
  { apply ensureDir_ok. cbn [disk]. apply mk1.
    - by repeat apply dir_chain_insert.
    - look. by rewrite Hb. }
  eapply exec_bind.
  { apply ensureDir_ok. cbn [disk]. apply mk2.
    - by repeat apply dir_chain_insert.
    - by look.
    - look. by rewrite Hb. }
  eapply exec_bind.
  { apply ensureDir_ok. cbn [disk]. apply mk2.
    - by repeat apply dir_chain_insert.
    - by look.
    - look. by rewrite Hb. }
  cbn [trace]. rewrite <- !app_assoc. reflexivity.
Qed.
End RunDirs.

Ltac prefix_ne :=
  let H := fresh in
  intros H;
  first
    [ by apply prefix_app_cons_not in H
    | apply prefix_app_inv in H;
      repeat (first [ discriminate (prefix_cons_inv_1 _ _ _ _ H)
                    | apply prefix_cons_inv_2 in H
                    | by apply prefix_nil_not in H ]) ].

(** Lookups in a disk grown env name d from the first directory by insertions and
    copies below the target. *)
Ltac look_below :=
  repeat first
    [ rewrite lookup_insert_eq
    | rewrite lookup_insert_ne by path_ne
    | rewrite graft_miss by prefix_ne ].

Section RunCopies.
Context (env : Env) (name t : string) (d : files) (config : Answers)
  (c1 c2 c3 : string).
Context (Hft : fresh_target env name t d config).
Context (Hbc : bundled_contracts env d c1 c2 c3).
Context (Hout : ¬ contractsPath env ++ ["interfaces"]
                  `prefix_of` projectPath env name).

Local Abbreviation P := (projectPath env name).
Local Abbreviation C := (contractsPath env).
Local Abbreviation m1 := (with_dirs (projectPath env name) d).
Local Abbreviation m8 := (dirs_built (projectPath env name)
                            (with_dirs (projectPath env name) d)).

Lemma grown_m1 : grown env name d m1.
Proof. by intros q Hq. Qed.

Lemma grown_insert m r v : grown env name d m → grown env name d (<[P ++ r := v]> m).
Proof.
  intros Hm q Hq. rewrite lookup_insert_ne; [by apply Hm|].
  intros <-. apply Hq. by eexists.
Qed.

Lemma grown_graft m src r m' : grown env name d m → grown env name d (grafted src (P ++ r) m' ∪ m).
Proof.
  intros Hm q Hq. rewrite graft_miss; [by apply Hm|].
  intros [k ->]. apply Hq. rewrite <- app_assoc. by eexists.
Qed.

(** An old entry that is not on the way to the target is where it
    was, with all that is below it. *)
Lemma source_kept m src n k :
  grown env name d m → d !! src = Some n → ¬ src `prefix_of` P →
  m !! (src ++ k) = d !! (src ++ k).
Proof.
  intros Hm Hsrc Hnot.
  assert (¬ P `prefix_of` src ++ k) as H1.
  { intros HP.
    destruct (prefix_weak_total P src (src ++ k)) as [H|H];
      [done | by exists k | | done].
    destruct H as [r ->].
    by rewrite (d_below env name t d config Hft) in Hsrc. }
  rewrite Hm by done.
  apply m1_outside. intros H. apply Hnot.
  destruct H as [r ->]. rewrite <- app_assoc. by eexists.
Qed.

Lemma file_not_on_the_way src data :
  d !! src = Some (File data) → ¬ src `prefix_of` P.
Proof.
  intros Hsrc Hpre.
  pose proof (proj1 (blocked_false _ _) (ft_clear _ _ _ _ _ Hft) src Hpre)
    as Hf.
  by rewrite Hsrc in Hf.
Qed.

Lemma file_is_leaf src data k :
  d !! src = Some (File data) → k ≠ [] → d !! (src ++ k) = None.
Proof.
  intros Hsrc Hk. destruct (d !! (src ++ k)) as [n|] eqn:Hn; [|done].
  pose proof (ft_well_formed _ _ _ _ _ Hft _ _ Hn src) as H.
  rewrite Hsrc in H. discriminate H; [by exists k|].
  intros Heq. apply Hk, (app_inv_head src). by rewrite app_nil_r.
Qed.

(** Copying a bundled file to a fresh place in the contracts
    directory. *)
Lemma copy_file_fresh m src data x :
  grown env name d m → d !! src = Some (File data) →
  dir_chain (P ++ ["contracts"]) m →
  (∀ k, m !! (P ++ "contracts" :: x :: k) = None) →
  copy_tree src (P ++ ["contracts"; x]) m
  = Some (<[P ++ ["contracts"; x] := File data]> m).
Proof.
  intros Hm Hsrc Hchain Hfresh.
  pose proof (file_not_on_the_way _ _ Hsrc) as Hway.
  erewrite copy_tree_ok.
  - f_equal. apply grafted_file.
    + rewrite <- (app_nil_r src), (source_kept m src _ [] Hm Hsrc Hway).
      by rewrite app_nil_r.
    + intros k Hk. rewrite (source_kept m src _ k Hm Hsrc Hway).
      by eapply file_is_leaf.
  - rewrite <- (app_nil_r src), (source_kept m src _ [] Hm Hsrc Hway).
    by rewrite app_nil_r.
  - by rewrite dirname_snoc2.
  - intros [k Hk].
    assert (P `prefix_of` src ++ k) as HP.
    { rewrite <- Hk. by eexists. }
    destruct (prefix_weak_total P src (src ++ k)) as [H|H];
      [done | by exists k | | done].
    destruct H as [r ->].
    by rewrite (d_below env name t d config Hft) in Hsrc.
  - intros k n n' _ Hn'. rewrite <- app_assoc in Hn'. simpl in Hn'.
    by rewrite Hfresh in Hn'.
Qed.

Lemma copies_run w :
  disk w = m8 →
  (copy (C ++ ["interfaces"]) (P ++ ["contracts"; "interfaces"]);;
   copy (C ++ ["TaskMailbox.sol"]) (P ++ ["contracts"; "TaskMailbox.sol"]);;
   copy (C ++ ["TaskAVSRegistrar.sol"])
     (P ++ ["contracts"; "TaskAVSRegistrar.sol"]);;
   copy (C ++ ["SlashingConditions.sol"])
     (P ++ ["contracts"; "SlashingConditions.sol"])) w
  = (Ok tt, World (contracts_copied C P d c1 c2 c3 m8)
              (trace w ++ events_copy env name)).
Proof.
  intros Hw. destruct w as [m tr]. simpl in Hw. subst m.
  pose proof (m1_chain env name d) as Hc.
  pose proof (m1_below env name t d config Hft) as Hb.
  destruct Hbc as [Hi H1 H2 H3].
  assert (grown env name d m8) as Hg8 by (by repeat apply grown_insert).
  assert (dir_chain (P ++ ["contracts"]) m8) as Hcc.
  { apply dir_chain_snoc; [by repeat apply dir_chain_insert|].
    unfold dirs_built. by look. }
  assert (grafted (C ++ ["interfaces"]) (P ++ ["contracts"; "interfaces"]) m8
          = grafted (C ++ ["interfaces"]) (P ++ ["contracts"; "interfaces"]) d)
    as Hgraft.
  { apply grafted_ext. intros k. by eapply source_kept. }
  eapply exec_bind.
  { apply copy_ok. cbn [disk]. eapply copy_tree_ok.
    - rewrite <- (app_nil_r (C ++ _)), (source_kept m8 _ _ [] Hg8 Hi Hout).
      by rewrite app_nil_r.
    - by rewrite dirname_snoc2.
    - intros [k Hk].
      assert (P `prefix_of` (C ++ ["interfaces"]) ++ k) as HP.
      { rewrite <- Hk. by eexists. }
      destruct (prefix_weak_total P (C ++ ["interfaces"])
                  ((C ++ ["interfaces"]) ++ k)) as [H|H];
        [done | by exists k | | done].
      destruct H as [r Hr]. rewrite Hr in Hi.
      by rewrite (d_below env name t d config Hft) in Hi.
    - intros k n n' Hn Hn'.
      destruct k as [|x k].
      + rewrite app_nil_r in *.
        rewrite <- (app_nil_r (C ++ _)), (source_kept m8 _ _ [] Hg8 Hi Hout),
          app_nil_r, Hi in Hn.
        unfold dirs_built in Hn'. revert Hn'. look. by intros [= <-]; simplify_eq.
      + rewrite <- app_assoc in Hn'. simpl in Hn'.
        unfold dirs_built in Hn'. revert Hn'. look. by rewrite Hb. }
  rewrite Hgraft.
  eapply exec_bind.
  { apply copy_ok. cbn [disk]. apply copy_file_fresh; [|done|..].
    - by apply grown_graft.
    - apply dir_chain_graft; [done|]. left. prefix_ne.
    - intros k. unfold dirs_built. look_below. by rewrite Hb. }
  eapply exec_bind.
  { apply copy_ok. cbn [disk]. apply copy_file_fresh; [|done|..].
    - by apply grown_insert, grown_graft.
    - apply dir_chain_insert_ne; [|prefix_ne].
      apply dir_chain_graft; [done|]. left. prefix_ne.
    - intros k. unfold dirs_built. look_below. by rewrite Hb. }
  erewrite copy_ok.
  2:{ cbn [disk]. apply copy_file_fresh; [|done|..].
    - by apply grown_insert, grown_insert, grown_graft.
    - do 2 (apply dir_chain_insert_ne; [|prefix_ne]).
      apply dir_chain_graft; [done|]. left. prefix_ne.
    - intros k. unfold dirs_built. look_below. by rewrite Hb. }
  cbn [trace]. unfold events_copy, contracts_copied.
  by rewrite <- !app_assoc.
Qed.
End RunCopies.

Section RunArtifacts.
Context (env : Env) (name : string) (config : Answers).

Local Abbreviation P := (projectPath env name).

Lemma artifacts_run (pkg : string) w :
  dirs_ready env name (disk w) → files_free env name (disk w) →
  (writeFile (P ++ ["package.json"]) pkg;;
   writeFile (P ++ ["hardhat.config.ts"]) getHardhatConfig;;
   writeFile (P ++ ["scripts"; "deploy.ts"]) getDeployScript;;
   writeFile (P ++ ["test"; "TaskMailbox.test.ts"]) getTestFile;;
   generateOffChainComponents P config) w
  = (Ok tt,
     World (artifacts_written P config pkg (disk w))
       (trace w ++
        [ EvWriteFile (P ++ ["package.json"]) pkg;
          EvWriteFile (P ++ ["hardhat.config.ts"]) getHardhatConfig;
          EvWriteFile (P ++ ["scripts"; "deploy.ts"]) getDeployScript;
          EvWriteFile (P ++ ["test"; "TaskMailbox.test.ts"]) getTestFile;
          EvWriteFile (P ++ ["off-chain"; "aggregator"; "index.ts"])
            getAggregatorCode;
          EvWriteFile (P ++ ["off-chain"; "executor"; "index.ts"])
            getExecutorCode;
          EvWriteFile (P ++ ["off-chain"; "package.json"])
            (offChainPackageText config) ])).
Proof.
  intros (HP & Hs & Ht & Ho & Ha & He) (F1 & F2 & F3 & F4 & F5 & F6 & F7).
  destruct w as [m tr]. cbn [disk trace] in *.
  eapply exec_bind.
  { apply writeFile_ok, write_ok; cbn [disk];
      [rewrite dirname_snoc; by look | by look]. }
  eapply exec_bind.
  { apply writeFile_ok, write_ok; cbn [disk];
      [rewrite dirname_snoc; by look | by look]. }
  eapply exec_bind.
  { apply writeFile_ok, write_ok; cbn [disk];
      [rewrite dirname_snoc2; by look | by look]. }
  eapply exec_bind.
  { apply writeFile_ok, write_ok; cbn [disk];
      [rewrite dirname_snoc2; by look | by look]. }
  unfold generateOffChainComponents, writeJSON. cbv zeta. norm_join.
  eapply exec_bind.
  { apply writeFile_ok, write_ok; cbn [disk];
      [rewrite dirname_snoc3; by look | by look]. }
  eapply exec_bind.
  { apply writeFile_ok, write_ok; cbn [disk];
      [rewrite dirname_snoc3; by look | by look]. }
  erewrite writeFile_ok.
  2:{ apply write_ok; cbn [disk];
      [rewrite dirname_snoc2; by look | by look]. }
  cbn [disk trace]. rewrite <- !app_assoc. reflexivity.
Qed.
End RunArtifacts.

Section RunWhole.
Context (env : Env) (name t : string) (d : files) (config : Answers)
  (pkg : string).
Context (Hft : fresh_target env name t d config).
Context (Hpkg : rendered (template_source env d) config = Some pkg).

Local Abbreviation P := (projectPath env name).
Local Abbreviation C := (contractsPath env).
Local Abbreviation T := (templatePath env).
Local Abbreviation m1 := (with_dirs (projectPath env name) d).
Local Abbreviation m8 := (dirs_built (projectPath env name)
                            (with_dirs (projectPath env name) d)).

Lemma prompt_ok w :
  inquirer_prompt env name t w
  = (Ok config, World (disk w) (trace w ++ [EvPrompt name t])).
Proof.
  unfold inquirer_prompt. eapply exec_bind; [apply emit_run|].
  by rewrite (ft_prompt _ _ _ _ _ Hft).
Qed.

Lemma render_template_ok source w :
  rendered source config = Some pkg →
  render_template source config w = (Ok pkg, w).
Proof.
  unfold rendered, render_template.
  destruct (Handlebars.compile source); [|done]. by intros [= <-].
Qed.

(** The target is not on the way to the directory of the module. *)
Lemma module_outside a : a `prefix_of` module_dir env → ¬ P `prefix_of` a.
Proof.
  intros Ha. pose proof (ft_module _ _ _ _ _ Hft) as Hm.
  destruct (decide (a = module_dir env)) as [->|Hne].
  - by eapply old_outside.
  - eapply old_outside; [done|].
    by apply (ft_well_formed _ _ _ _ _ Hft _ _ Hm a).
Qed.

Lemma contracts_outside : P `prefix_of` C → P = C.
Proof.
  unfold contractsPath at 1. rewrite join_up_contracts.
  intros [H| ->]%prefix_snoc_inv; [|by rewrite <- join_up_contracts].
  destruct (module_outside (removelast (removelast (module_dir env)))); [|done].
  etrans; apply removelast_prefix.
Qed.

Lemma template_below :
  P `prefix_of` T → T = P ∨ T = P ++ ["package.json.hbs"].
Proof.
  unfold templatePath. rewrite join_up_templates.
  change ["templates"; "package.json.hbs"]
    with (["templates"] ++ ["package.json.hbs"]).
  rewrite app_assoc.
  intros [[H|H]%prefix_snoc_inv|H]%prefix_snoc_inv.
  - destruct (module_outside (removelast (module_dir env))); [|done].
    apply removelast_prefix.
  - right. by rewrite H.
  - by left.
Qed.

(** The template is read as it was before the run. *)
Lemma template_read m :
  grown env name d m → m !! P = Some Dir →
  m !! (P ++ ["package.json.hbs"]) = None →
  read T m = read T d.
Proof.
  intros Hg HP Hh. unfold read.
  destruct (decide (P `prefix_of` T)) as [Hpre|Hpre].
  - assert (d !! T = None) as ->.
    { destruct Hpre as [r ->]. apply (d_below env name t d config Hft). }
    destruct (template_below Hpre) as [-> | ->]; by rewrite ?HP, ?Hh.
  - rewrite Hg by done. rewrite with_dirs_lookup.
    case_bool_decide as Hway; [|done].
    pose proof (proj1 (blocked_false _ _) (ft_clear _ _ _ _ _ Hft) T Hway)
      as Hf.
    by destruct (d !! T) as [[]|].
Qed.

Lemma m8_ready : dirs_ready env name m8.
Proof.
  pose proof (m1_chain env name d P) as HP.
  unfold dirs_ready, dirs_built. repeat split; look; by try apply HP.
Qed.

Lemma m8_grown : grown env name d m8.
Proof. by repeat apply grown_insert. Qed.

(** *** A run with the bundled contracts *)

Lemma run_with_contracts c1 c2 c3 :
  bundled_contracts env d c1 c2 c3 →
  ¬ C ++ ["interfaces"] `prefix_of` P →
  run (scaffoldProject env name t) d
  = (Ok tt,
     World (artifacts_written P config pkg
              (contracts_copied C P d c1 c2 c3 m8))
       ((events_start env name t config ++ events_copy env name
         ++ events_write env name config pkg) ++ events_done)).
Proof.
  intros Hbc Hout.
  pose proof (m1_chain env name d) as Hc.
  pose proof (m1_below env name t d config Hft) as Hb.
  unfold run, scaffoldProject. cbv zeta. fold P.
  eapply exec_bind; [apply pathExists_run|]. cbn [disk trace].
  rewrite (ft_absent _ _ _ _ _ Hft). cbn [exists_at].
  eapply exec_bind; [reflexivity|].
  eapply exec_bind; [apply prompt_ok|].
  eapply exec_bind;
    [apply ensureDir_ok, mkdirs_ok, (ft_clear _ _ _ _ _ Hft)|].
  eapply exec_bind; [apply emit_run|]. cbn [disk trace].
  apply exec_then_log.
  unfold createProjectStructure. cbv zeta.
  change (join (module_dir env) "../../contracts") with C.
  change (join (module_dir env) "../templates/package.json.hbs") with T.
  norm_join.
  rewrite (dirs_then env name t d config Hft) by done. cbn [disk trace].
  eapply exec_bind; [apply pathExists_run|]. cbn [disk trace].
  assert (m8 !! C = Some Dir) as ->.
  { pose proof (bc_interfaces _ _ _ _ _ Hbc) as Hi.
    assert (d !! C = Some Dir) as HC.
    { apply (ft_well_formed _ _ _ _ _ Hft _ _ Hi); [by eexists|].
      intros Heq. apply (f_equal length) in Heq.
      rewrite length_app in Heq. simpl in Heq. lia. }
    rewrite m8_grown by (by eapply old_outside).
    by apply (m1_old env name t d config Hft). }
  cbn [exists_at].
  eapply exec_bind; [by eapply copies_run|]. cbn [disk trace].
  eapply exec_bind; [apply load_template_run|]. cbn [disk trace].
  rewrite template_read.
  2:{ unfold contracts_copied.
      by apply grown_insert, grown_insert, grown_insert, grown_graft, m8_grown. }
  2:{ unfold contracts_copied, dirs_built. look_below. by apply Hc. }
  2:{ unfold contracts_copied, dirs_built. look_below. by apply Hb. }
  eapply exec_bind;
    [apply render_template_ok, Hpkg|].
  etrans; [apply artifacts_run|].
  - cbn [disk]. unfold dirs_ready, contracts_copied, dirs_built.
    repeat split; look_below; by try apply Hc.
  - cbn [disk]. unfold files_free, contracts_copied, dirs_built.
    repeat split; look_below; by rewrite Hb.
  - cbn [disk trace]. rewrite <- !app_assoc. reflexivity.
Qed.

(** *** A run without them *)

Lemma run_without_contracts :
  d !! C = None → ¬ C `prefix_of` P →
  run (scaffoldProject env name t) d
  = (Ok tt,
     World (artifacts_written P config pkg m8)
       ((events_start env name t config
         ++ events_write env name config pkg) ++ events_done)).
Proof.
  intros HC Hway.
  pose proof (m1_chain env name d) as Hc.
  pose proof (m1_below env name t d config Hft) as Hb.
  unfold run, scaffoldProject. cbv zeta. fold P.
  eapply exec_bind; [apply pathExists_run|]. cbn [disk trace].
  rewrite (ft_absent _ _ _ _ _ Hft). cbn [exists_at].
  eapply exec_bind; [reflexivity|].
  eapply exec_bind; [apply prompt_ok|].
  eapply exec_bind;
    [apply ensureDir_ok, mkdirs_ok, (ft_clear _ _ _ _ _ Hft)|].
  eapply exec_bind; [apply emit_run|]. cbn [disk trace].
  apply exec_then_log.
  unfold createProjectStructure. cbv zeta.
  change (join (module_dir env) "../../contracts") with C.
  change (join (module_dir env) "../templates/package.json.hbs") with T.
  norm_join.
  rewrite (dirs_then env name t d config Hft) by done. cbn [disk trace].
  eapply exec_bind; [apply pathExists_run|]. cbn [disk trace].
  assert (m8 !! C = None) as ->.
  { rewrite m8_grown.
    - rewrite with_dirs_lookup. by rewrite bool_decide_eq_false_2.
    - intros HP. apply Hway. by rewrite <- (contracts_outside HP). }
  cbn [exists_at].
  eapply exec_bind; [reflexivity|].
  eapply exec_bind; [apply load_template_run|]. cbn [disk trace].
  rewrite template_read.
  2:{ apply m8_grown. }
  2:{ unfold dirs_built. look_below. by apply Hc. }
  2:{ unfold dirs_built. look_below. by apply Hb. }
  eapply exec_bind;
    [apply render_template_ok, Hpkg|].
  etrans; [apply artifacts_run|].
  - apply m8_ready.
  - cbn [disk]. unfold files_free, dirs_built.
    repeat split; look_below; by rewrite Hb.
  - cbn [disk trace]. rewrite <- !app_assoc. reflexivity.
Qed.
End RunWhole.

(** ** The files of a project *)

(** Membership in a list of distinct literal paths. *)
Ltac in_list := repeat first [ by left | right ].
Ltac not_in_list H :=
  repeat (apply elem_of_cons in H as [H|H]; [done|]);
  by apply elem_of_nil in H.

(** One insertion on the way down: either the path is the inserted one,
    or the insertion is skipped. *)
Ltac peel rel :=
  match goal with
  | |- context [<[?P ++ ?a := ?v]> ?m !! (?P ++ rel)] =>
      let H := fresh "Hne" in
      destruct (decide (rel = a)) as [->|H];
      [| rewrite (lookup_insert_ne m (P ++ a) (P ++ rel) v)
           by (let E := fresh in intros E%app_inv_head; done) ]
  end.

Section FileSets.
Context (env : Env) (name t : string) (d : files) (config : Answers)
  (pkg : string).
Context (Hft : fresh_target env name t d config).

Local Abbreviation P := (projectPath env name).
Local Abbreviation C := (contractsPath env).
Local Abbreviation m1 := (with_dirs (projectPath env name) d).
Local Abbreviation m8 := (dirs_built (projectPath env name)
                            (with_dirs (projectPath env name) d)).

Lemma m1_no_file rel : is_file (m1 !! (P ++ rel)) = false.
Proof.
  destruct (decide (rel = [])) as [->|Hr].
  - rewrite app_nil_r. by rewrite (m1_chain env name d P).
  - by rewrite (m1_below env name t d config Hft).
Qed.

Lemma files_without_contracts rel :
  is_file (artifacts_written P config pkg m8 !! (P ++ rel)) = true
  ↔ rel ∈ generated_files.
Proof.
  unfold artifacts_written, dirs_built, generated_files.
  repeat (peel rel; [look; split; [intros _; in_list | done] |]).
  repeat (peel rel;
    [look; split; [done | intros H; exfalso; not_in_list H] |]).
  rewrite m1_no_file. split; [done|]. intros H. exfalso. not_in_list H.
Qed.

Lemma files_with_contracts c1 c2 c3 rel :
  bundled_contracts env d c1 c2 c3 →
  is_file (artifacts_written P config pkg
             (contracts_copied C P d c1 c2 c3 m8) !! (P ++ rel)) = true
  ↔ rel ∈ generated_files ++ contract_files
    ∨ ∃ s, rel = ["contracts"; "interfaces"] ++ s
           ∧ is_file (d !! (C ++ ["interfaces"] ++ s)) = true.
Proof.
  intros Hbc.
  unfold artifacts_written, contracts_copied, dirs_built,
    generated_files, contract_files.
  repeat (peel rel; [look; split; [intros _; left; in_list | done] |]).
  rewrite lookup_union, grafted_lookup.
  case_bool_decide as Hpre.
  - apply prefix_app_inv in Hpre as [s ->].
    replace (drop (length (P ++ ["contracts"; "interfaces"]))
               (P ++ ["contracts"; "interfaces"] ++ s))
      with s by (by rewrite app_assoc, drop_app_length).
    rewrite <- !app_assoc.
    assert (∀ n, n ∪ (None : option node) = n) as Hn by (by intros []).
    destruct (decide (s = [])) as [->|Hs].
    + rewrite app_nil_r, (bc_interfaces _ _ _ _ _ Hbc). look. simpl.
      split; [done|]. intros [H|(s & Hs & Hf)].
      * exfalso. not_in_list H.
      * simplify_eq/=.
        by rewrite (bc_interfaces _ _ _ _ _ Hbc) in Hf.
    + repeat (rewrite lookup_insert_ne
                by (let E := fresh in
                    intros E%app_inv_head; by simplify_eq/=)).
      rewrite (m1_below env name t d config Hft) by done.
      rewrite Hn. split.
      * intros H. right. by exists s.
      * intros [H|(s' & Hs' & Hf)].
        -- exfalso. not_in_list H.
        -- by simplify_eq/=.
  - assert (∀ n : option node, None ∪ n = n) as Hn by (by intros []).
    rewrite Hn.
    repeat (peel rel;
      [first
        [ by destruct Hpre
        | look; split;
          [done | intros [H|(s & Hs & _)];
                  [exfalso; not_in_list H
                  |destruct Hpre; exists s; by rewrite Hs, app_assoc]]] |]).
    rewrite m1_no_file. split; [done|].
    intros [H|(s & -> & _)]; [exfalso; not_in_list H|].
    destruct Hpre. apply prefix_app. by eexists.
Qed.
End FileSets.

(** ** A run that goes through *)

Lemma well_formedb_sound m : well_formedb m = true → well_formed m.
Proof.
  unfold well_formedb. rewrite forallb_forall.
  intros H p n Hp a Ha Hne.
  specialize (H (p, n)). rewrite forallb_forall in H.
  assert (bool_decide (a = p) || is_dir (m !! a) = true) as Hb.
  { apply H.
    - by apply list_elem_of_In, elem_of_map_to_list.
    - by apply list_elem_of_In, elem_of_ancestors_and_self. }
  rewrite bool_decide_eq_false_2 in Hb by done. simpl in Hb.
  by destruct (m !! a) as [[]|].
Qed.

Section RunOk.
Context (env : Env) (name t : string) (d : files) (config : Answers)
  (pkg : string).
Context (Hft : fresh_target env name t d config).
Context (Hpkg : rendered (template_source env d) config = Some pkg).

Local Abbreviation P := (projectPath env name).
Local Abbreviation C := (contractsPath env).
Local Abbreviation m1 := (with_dirs (projectPath env name) d).
Local Abbreviation m8 := (dirs_built (projectPath env name)
                            (with_dirs (projectPath env name) d)).

Lemma artifacts_written_ok m :
  m !! P = Some Dir → project_written env name config pkg
                         (artifacts_written P config pkg m).
Proof.
  intros HP. unfold project_written, artifacts_written.
  repeat split; by look.
Qed.

Lemma grown_rest_kept m : grown env name d m → rest_kept env name d m.
Proof. intros Hg q Hq Hq'. rewrite Hg by done. by apply m1_outside. Qed.

Lemma run_ok :
  resources_ready env name d →
  ∃ w, run (scaffoldProject env name t) d = (Ok tt, w)
       ∧ project_written env name config pkg (disk w)
       ∧ rest_kept env name d (disk w).
Proof.
  pose proof (m1_chain env name d P) as HP.
  intros [(c1 & c2 & c3 & Hbc & Hout)|[HC Hway]].
  - eexists. split; [by eapply run_with_contracts|]. cbn [disk]. split.
    + apply artifacts_written_ok. unfold contracts_copied, dirs_built.
      look_below. by apply HP.
    + apply grown_rest_kept. unfold artifacts_written, contracts_copied.
      repeat apply grown_insert. apply grown_graft, m8_grown.
  - eexists. split; [by eapply run_without_contracts|]. cbn [disk]. split.
    + apply artifacts_written_ok. unfold dirs_built. look. by apply HP.
    + apply grown_rest_kept. unfold artifacts_written.
      repeat apply grown_insert. apply grown_m1.
Qed.
End RunOk.

(** ** The order of the events *)

Section Ordered.
Context (P : path).
Implicit Types (tr : list event) (e : event) (ds : list path).

Lemma lookup_snoc_inv tr e i e' :
  (tr ++ [e]) !! i = Some e' →
  tr !! i = Some e' ∨ i = length tr ∧ e' = e.
Proof.
  intros H. destruct (decide (i < length tr)) as [Hlt|Hge].
  - left. by rewrite lookup_app_l in H.
  - right. rewrite lookup_app_r in H by lia.
    destruct (i - length tr) as [|n] eqn:Hn; simpl in H; [|done].
    split; [lia | congruence].
Qed.

Lemma earlier tr e x :
  x ∈ tr → ∃ j, j < length tr ∧ (tr ++ [e]) !! j = Some x.
Proof.
  intros (j & Hj)%list_elem_of_lookup. exists j.
  pose proof (lookup_lt_Some _ _ _ Hj). split; [done|].
  by rewrite lookup_app_l.
Qed.

Lemma earlier_kept tr e i x :
  (∃ j, j < i ∧ tr !! j = Some x) →
  ∃ j, j < i ∧ (tr ++ [e]) !! j = Some x.
Proof.
  intros (j & Hlt & Hj). exists j. split; [done|].
  rewrite lookup_app_l; [done|]. by eapply lookup_lt_Some.
Qed.

Lemma ordered_nil : ordered P [].
Proof. repeat split; intros i; intros; by destruct i. Qed.

Lemma ordered_snoc tr e :
  ordered P tr →
  (∀ p, write_target e = Some p → EvEnsureDir (dirname p) ∈ tr) →
  (is_mutation e = true → e = EvEnsureDir P ∨ EvEnsureDir P ∈ tr) →
  (is_mutation e = true → EvPathExists P ∈ tr) →
  ordered P (tr ++ [e]).
Proof.
  intros (H1 & H2 & H3) Hw Hr Hc. repeat split.
  - intros i e' p [Hi|[-> ->]]%lookup_snoc_inv Hp.
    + by eapply earlier_kept, H1.
    + by apply earlier, Hw.
  - intros i e' [Hi|[-> ->]]%lookup_snoc_inv Hm.
    + destruct (H2 i e' Hi Hm) as [->|H]; [by left|].
      right. by apply earlier_kept.
    + destruct (Hr Hm) as [->|H]; [by left|]. right. by apply earlier.
  - intros i e' [Hi|[-> ->]]%lookup_snoc_inv Hm.
    + by eapply earlier_kept, H3.
    + by apply earlier, Hc.
Qed.

Lemma made_quiet ds tr e :
  made P ds tr → is_mutation e = false → made P ds (tr ++ [e]).
Proof.
  intros (Ho & Hc & Hd) He. split; [|split].
  - apply ordered_snoc; [done|..]; try by rewrite He.
    intros p Hp. by destruct e.
  - apply elem_of_app. by left.
  - intros p Hp. apply elem_of_app. left. by apply Hd.
Qed.

Lemma made_dir ds tr p :
  made P ds tr → p = P ∨ P ∈ ds → made P (p :: ds) (tr ++ [EvEnsureDir p]).
Proof.
  intros (Ho & Hc & Hd) Hp. split; [|split].
  - apply ordered_snoc; [done|done|..].
    + intros _. destruct Hp as [->|Hp]; [by left|]. right. by apply Hd.
    + done.
  - apply elem_of_app. by left.
  - intros p' [->|Hp']%elem_of_cons; apply elem_of_app.
    + right. by left.
    + left. by apply Hd.
Qed.

Lemma made_write ds tr e p :
  made P ds tr → write_target e = Some p → is_mutation e = true →
  P ∈ ds → dirname p ∈ ds → made P ds (tr ++ [e]).
Proof.
  intros (Ho & Hc & Hd) He Hm HP Hp. split; [|split].
  - apply ordered_snoc; [done|..].
    + intros p' Hp'. rewrite He in Hp'. injection Hp' as <-. by apply Hd.
    + intros _. right. by apply Hd.
    + done.
  - apply elem_of_app. by left.
  - intros p' Hp'. apply elem_of_app. left. by apply Hd.
Qed.

Lemma traces_bind {A B} I (m : M A) J (k : A → M B) K :
  traces P I m J → (∀ a, traces P (J a) (k a) K) → traces P I (m ≫= k) K.
Proof.
  intros Hm Hk w Hw. specialize (Hm w Hw). rewrite bind_unfold.
  destruct (m w) as [[a|e] w']; [by apply Hk | done].
Qed.

Lemma traces_ret {A} (I : list event → Prop) (a : A) J :
  (∀ tr, I tr → J a tr) → traces P I (mret a) J.
Proof. intros H w Hw. by apply H. Qed.

Lemma traces_throw {A} (I : list event → Prop) (err : error)
  (J : A → list event → Prop) :
  (∀ tr, I tr → ordered P tr) → traces P I (throw err) J.
Proof. intros H w Hw. by apply H. Qed.

Lemma traces_emit (I : list event → Prop) e J :
  (∀ tr, I tr → J tt (tr ++ [e])) → traces P I (emit e) J.
Proof. intros H w Hw. by apply H. Qed.

Lemma traces_update (I : list event → Prop) syscall p f e J :
  (∀ tr, I tr → J tt (tr ++ [e]) ∧ ordered P (tr ++ [e])) →
  traces P I (emit e;; update syscall p f) J.
Proof.
  intros H w Hw. rewrite update_run.
  destruct (H _ Hw). by destruct (f (disk w)).
Qed.

Lemma traces_pathExists (I : list event → Prop) p J :
  (∀ tr b, I tr → J b (tr ++ [EvPathExists p])) →
  traces P I (pathExists p) J.
Proof. intros H w Hw. rewrite pathExists_run. by apply H. Qed.

Lemma traces_load (I : list event → Prop) p J :
  (∀ tr s, I tr → J s (tr ++ [EvReadFile p])) →
  traces P I (catch (readFile p) (λ _, mret getDefaultPackageJsonTemplate)) J.
Proof. intros H w Hw. rewrite load_template_run. by apply H. Qed.

Lemma traces_render (I : list event → Prop) source config J :
  (∀ tr s, I tr → J s tr ∧ ordered P tr) →
  traces P I (render_template source config) J.
Proof.
  intros H w Hw. unfold render_template.
  destruct (Handlebars.compile source); simpl; by eapply H.
Qed.

Lemma traces_weaken {A} I (m : M A) (J J' : A → list event → Prop) :
  traces P I m J → (∀ a tr, J a tr → J' a tr) → traces P I m J'.
Proof.
  intros Hm HJ w Hw. specialize (Hm w Hw).
  destruct (m w) as [[a|e] w']; [by apply HJ | done].
Qed.

(** *** The rules of the operations *)

Lemma rule_check :
  traces P (λ tr, tr = []) (pathExists P) (λ _, made P []).
Proof.
  apply traces_pathExists. intros tr _ ->. split; [|split].
  - apply (ordered_snoc []); [apply ordered_nil|done..].
  - by left.
  - by intros p Hp%elem_of_nil.
Qed.

Lemma rule_ret {A} ds (a : A) : traces P (made P ds) (mret a) (λ _, made P ds).
Proof. by apply traces_ret. Qed.

Lemma rule_throw {A} ds err (J : A → list event → Prop) :
  traces P (made P ds) (throw err) J.
Proof. apply traces_throw. by intros tr [? _]. Qed.

Lemma rule_if {A} ds (b : bool) (m1 m2 : M A) :
  traces P (made P ds) m1 (λ _, made P ds) → traces P (made P ds) m2 (λ _, made P ds) →
  traces P (made P ds) (if b then m1 else m2) (λ _, made P ds).
Proof. by destruct b. Qed.

Lemma rule_emit ds e :
  is_mutation e = false → traces P (made P ds) (emit e) (λ _, made P ds).
Proof. intros He. apply traces_emit. intros tr Htr. by apply made_quiet. Qed.

Lemma rule_log ds line : traces P (made P ds) (console_log line) (λ _, made P ds).
Proof. by apply rule_emit. Qed.

Lemma rule_pathExists ds p : traces P (made P ds) (pathExists p) (λ _, made P ds).
Proof.
  apply traces_pathExists. intros tr _ Htr. by apply made_quiet.
Qed.

Lemma rule_ensureDir ds p :
  p = P ∨ P ∈ ds → traces P (made P ds) (ensureDir p) (λ _, made P (p :: ds)).
Proof.
  intros Hp. apply traces_update. intros tr Htr.
  pose proof (made_dir _ _ p Htr Hp) as H. split; [done | apply H].
Qed.

Lemma rule_copy ds src dest :
  P ∈ ds → dirname dest ∈ ds →
  traces P (made P ds) (copy src dest) (λ _, made P ds).
Proof.
  intros HP Hd. apply traces_update. intros tr Htr.
  pose proof (made_write _ _ (EvCopy src dest) dest Htr eq_refl eq_refl HP Hd)
    as H.
  split; [done | apply H].
Qed.

Lemma rule_writeFile ds p data :
  P ∈ ds → dirname p ∈ ds →
  traces P (made P ds) (writeFile p data) (λ _, made P ds).
Proof.
  intros HP Hd. apply traces_update. intros tr Htr.
  pose proof (made_write _ _ (EvWriteFile p data) p Htr eq_refl eq_refl HP Hd)
    as H.
  split; [done | apply H].
Qed.

Lemma rule_load ds p :
  traces P (made P ds)
    (catch (readFile p) (λ _, mret getDefaultPackageJsonTemplate))
    (λ _, made P ds).
Proof. apply traces_load. intros tr _ Htr. by apply made_quiet. Qed.

Lemma rule_render ds source config :
  traces P (made P ds) (render_template source config) (λ _, made P ds).
Proof. apply traces_render. intros tr _ Htr. split; [done | apply Htr]. Qed.
End Ordered.

Ltac dir_made :=
  rewrite ?dirname_snoc, ?dirname_snoc2, ?dirname_snoc3; in_list.

Ltac trace_rule :=
  first
    [ apply rule_pathExists
    | apply rule_ensureDir; first [ by left | right; in_list ]
    | apply rule_copy; [in_list | dir_made]
    | apply rule_writeFile; [in_list | dir_made]
    | apply rule_log
    | apply rule_load
    | apply rule_render
    | apply rule_ret ].

Ltac trace_steps := repeat (eapply traces_bind; [trace_rule | intros ?; cbv beta]).

Section ScaffoldOrdered.
Context (env : Env) (name t : string).

Local Abbreviation P := (projectPath env name).

Lemma generateOffChainComponents_traces ds config :
  P ∈ ds → P ++ ["off-chain"] ∈ ds →
  P ++ ["off-chain"; "aggregator"] ∈ ds →
  P ++ ["off-chain"; "executor"] ∈ ds →
  traces P (made P ds) (generateOffChainComponents P config)
    (λ _, made P ds).
Proof.
  intros HP Ho Ha He. unfold generateOffChainComponents, writeJSON.
  cbv zeta. norm_join.
  eapply traces_bind;
    [apply rule_writeFile; [done | by rewrite dirname_snoc3] | intros ?; cbv beta].
  eapply traces_bind;
    [apply rule_writeFile; [done | by rewrite dirname_snoc3] | intros ?; cbv beta].
  apply rule_writeFile; [done | by rewrite dirname_snoc2].
Qed.

Lemma createProjectStructure_traces config :
  traces P (made P [P]) (createProjectStructure env P config)
    (λ _ tr, ordered P tr).
Proof.
  unfold createProjectStructure. cbv zeta.
  change (join (module_dir env) "../../contracts") with (contractsPath env).
  change (join (module_dir env) "../templates/package.json.hbs")
    with (templatePath env).
  norm_join.
  do 8 (eapply traces_bind; [trace_rule | intros ?; cbv beta]).
  eapply traces_bind.
  { apply rule_if; [|apply rule_ret].
    do 3 (eapply traces_bind; [trace_rule | intros ?; cbv beta]).
    trace_rule. }
  intros ?; cbv beta.
  do 6 (eapply traces_bind; [trace_rule | intros ?; cbv beta]).
  eapply traces_weaken.
  - apply generateOffChainComponents_traces; in_list.
  - by intros _ tr [? _].
Qed.

Lemma scaffoldProject_traces :
  traces P (λ tr, tr = []) (scaffoldProject env name t)
    (λ _ tr, ordered P tr).
Proof.
  unfold scaffoldProject. cbv zeta. fold P.
  eapply traces_bind; [apply rule_check | intros b; cbv beta].
  eapply traces_bind.
  { apply rule_if; [apply rule_throw | apply rule_ret]. }
  intros ?; cbv beta.
  eapply traces_bind.
  { unfold inquirer_prompt.
    eapply traces_bind; [by apply rule_emit | intros ?; cbv beta].
    destruct (prompt env name t); [apply rule_ret | apply rule_throw]. }
  intros config; cbv beta.
  eapply traces_bind; [apply rule_ensureDir; by left | intros ?; cbv beta].
  eapply traces_bind; [apply rule_log | intros ?; cbv beta].
  eapply traces_bind; [apply createProjectStructure_traces | intros ?; cbv beta].
  apply traces_emit. intros tr Htr.
  apply ordered_snoc; [done | by intros p Hp | by intros Hm..].
Qed.

(** The events of every run are in order. *)
Lemma run_ordered d :
  ordered P (trace (run (scaffoldProject env name t) d).2).
Proof.
  pose proof (scaffoldProject_traces (World d []) eq_refl) as H.
  unfold run. by destruct (scaffoldProject env name t (World d []))
    as [[[]|e] w].
Qed.
End ScaffoldOrdered.

(** ** Two runs that differ in the chosen template *)

Section TwoRuns.
Context (c1 c2 : Answers) (pj : path).

Local Abbreviation alike := (alike c1 c2 pj).
Local Abbreviation diverged := (diverged c1 c2 pj).
Local Abbreviation related := (related c1 c2 pj).
Context (Hname : projectName c1 = projectName c2).
Context (Hdescription : description c1 = description c2).

Lemma alike_refl m : alike m m.
Proof. split; [done | by left]. Qed.

Lemma diverged_alike m1 m2 : diverged m1 m2 → alike m1 m2.
Proof. intros [H1 H2]. split; [done | by right]. Qed.

Lemma related_bind {A B : Type} (I : files → files → Prop) (ma mb : M A)
  (J : A → files → files → Prop) (ka kb : A → M B)
  (K : B → files → files → Prop) :
  related I ma mb J → (∀ a, related (J a) (ka a) (kb a) K) →
  related I (ma ≫= ka) (mb ≫= kb) K.
Proof.
  intros Hm Hk w1 w2 Hw. specialize (Hm w1 w2 Hw). rewrite !bind_unfold.
  destruct (ma w1) as [[a1|e1] w1'], (mb w2) as [[a2|e2] w2']; try done.
  destruct Hm as [<- HJ]. by apply Hk.
Qed.

Lemma related_weaken {A : Type} (I : files → files → Prop) (ma mb : M A)
  (J J' : A → files → files → Prop) :
  related I ma mb J → (∀ a m1 m2, J a m1 m2 → J' a m1 m2) →
  related I ma mb J'.
Proof.
  intros Hm HJ w1 w2 Hw. specialize (Hm w1 w2 Hw).
  destruct (ma w1) as [[a1|e1] w1'], (mb w2) as [[a2|e2] w2']; try done.
  destruct Hm as [<- H]. split; [done | by apply HJ].
Qed.

(** *** On equal disks *)

Lemma same_ret {A : Type} (a : A) : related eq (mret a) (mret a) (λ _, eq).
Proof. by intros w1 w2 Hw. Qed.

Lemma same_throw {A : Type} (e : error) (J : A → files → files → Prop) :
  related eq (throw e) (throw e) J.
Proof. intros w1 w2 Hw. simpl. rewrite Hw. split; [done | apply alike_refl]. Qed.

Lemma related_emit (I : files → files → Prop) (e1 e2 : event) :
  related I (emit e1) (emit e2) (λ _, I).
Proof. by intros w1 w2 Hw. Qed.

Lemma same_update (syscall : string) (p : path) (f : files → option files)
  (e : event) :
  related eq (emit e;; update syscall p f) (emit e;; update syscall p f)
    (λ _, eq).
Proof.
  intros w1 w2 Hw. rewrite !update_run, Hw.
  destruct (f (disk w2)); simpl; [done|].
  split; [done | apply alike_refl].
Qed.

Lemma same_ensureDir (p : path) :
  related eq (ensureDir p) (ensureDir p) (λ _, eq).
Proof. apply same_update. Qed.

Lemma same_copy (src dest : path) :
  related eq (copy src dest) (copy src dest) (λ _, eq).
Proof. apply same_update. Qed.

Lemma same_pathExists (p : path) :
  related eq (pathExists p) (pathExists p) (λ _, eq).
Proof. intros w1 w2 Hw. rewrite !pathExists_run, Hw. done. Qed.

Lemma same_load (p : path) :
  related eq
    (catch (readFile p) (λ _, mret getDefaultPackageJsonTemplate))
    (catch (readFile p) (λ _, mret getDefaultPackageJsonTemplate))
    (λ _, eq).
Proof. intros w1 w2 Hw. rewrite !load_template_run, Hw. done. Qed.

Lemma same_if {A : Type} (b : bool) (ma mb : M A)
  (J : A → files → files → Prop) :
  related eq ma ma J → related eq mb mb J →
  related eq (if b then ma else mb) (if b then ma else mb) J.
Proof. by destruct b. Qed.

(** *** After the root package.json *)

Lemma diverged_write (q : path) (data : string) :
  q ≠ pj →
  related diverged (writeFile q data) (writeFile q data) (λ _, diverged).
Proof.
  intros Hq w1 w2 [Hsame Hpj]. unfold writeFile. rewrite !update_run.
  assert (is_dir (disk w1 !! dirname q) = is_dir (disk w2 !! dirname q))
    as Hd.
  { destruct (decide (dirname q = pj)) as [->|Hne].
    - destruct Hpj as (s & p1 & p2 & _ & _ & -> & ->). done.
    - by rewrite Hsame. }
  unfold write. rewrite Hd, (Hsame q Hq).
  destruct (is_dir (disk w2 !! dirname q) && negb (is_dir (disk w2 !! q))).
  - split; [done|]. cbn [disk]. split.
    + intros q' Hq'. rewrite !lookup_insert. case_decide; [done|].
      by apply Hsame.
    + rewrite !lookup_insert_ne by done. done.
  - split; [done|]. cbn [disk]. by apply diverged_alike.
Qed.

(** The rendering and the write of the root package.json, from equal
    disks. *)
Lemma related_render (source : string) (ka kb : M unit) :
  related diverged ka kb (λ _, alike) →
  related eq
    (rendered ← render_template source c1; writeFile pj rendered;; ka)
    (rendered ← render_template source c2; writeFile pj rendered;; kb)
    (λ _, alike).
Proof.
  intros Hk w1 w2 Hw. rewrite !bind_unfold. unfold render_template.
  destruct (Handlebars.compile source) as [tpl|] eqn:Hc; simpl.
  2:{ rewrite Hw. split; [done | apply alike_refl]. }
  rewrite !bind_unfold. unfold writeFile. rewrite !update_run.
  unfold write. rewrite Hw.
  destruct (is_dir (disk w2 !! dirname pj) && negb (is_dir (disk w2 !! pj))).
  - apply Hk. cbn [disk]. split.
    + intros q Hq. by rewrite !lookup_insert_ne.
    + exists source, (Handlebars.render (lookupProperty c1) tpl),
        (Handlebars.render (lookupProperty c2) tpl).
      unfold rendered. rewrite Hc, !lookup_insert_eq. done.
  - cbn [disk]. split; [done | apply alike_refl].
Qed.

Lemma lookup_without_template name :
  String.eqb name "template" = false →
  lookupProperty c1 name = lookupProperty c2 name.
Proof.
  intros H. unfold lookupProperty. rewrite H, Hname, Hdescription. done.
Qed.

(** Without the [template] variable, the rendering is the same. *)
Lemma render_without_template tpl :
  mentions_template tpl = false →
  Handlebars.render (lookupProperty c1) tpl
  = Handlebars.render (lookupProperty c2) tpl.
Proof.
  induction tpl as [|seg tpl IH]; simpl; [done|].
  intros [Hseg Htpl]%orb_false_elim. rewrite (IH Htpl). f_equal.
  destruct seg as [s|e x]; [done|]. simpl.
  by rewrite (lookup_without_template x Hseg).
Qed.

Context (env1 env2 : Env) (name t1 t2 : string).
Context (Hcwd : cwd env1 = cwd env2).
Context (Hmodule : module_dir env1 = module_dir env2).
Context (Hprompt1 : prompt env1 name t1 = Some c1).
Context (Hprompt2 : prompt env2 name t2 = Some c2).
Context (Hpj : pj = projectPath env1 name ++ ["package.json"]).

Local Abbreviation P := (projectPath env1 name).

Lemma related_prompt {B : Type} (ka kb : Answers → M B)
  (K : B → files → files → Prop) :
  related eq (ka c1) (kb c2) K →
  related eq (inquirer_prompt env1 name t1 ≫= ka)
    (inquirer_prompt env2 name t2 ≫= kb) K.
Proof.
  intros Hk w1 w2 Hw. unfold inquirer_prompt.
  rewrite Hprompt1, Hprompt2, !bind_unfold. by apply Hk.
Qed.

Lemma offchain_related :
  related diverged (generateOffChainComponents P c1)
    (generateOffChainComponents P c2) (λ _, alike).
Proof.
  unfold generateOffChainComponents, writeJSON. cbv zeta.
  rewrite Hname. norm_join.
  eapply related_bind;
    [apply diverged_write; rewrite Hpj; path_ne | intros ?].
  eapply related_bind;
    [apply diverged_write; rewrite Hpj; path_ne | intros ?].
  eapply related_weaken; [apply diverged_write; rewrite Hpj; path_ne|].
  intros ? m1 m2. apply diverged_alike.
Qed.

Lemma structure_related :
  related eq (createProjectStructure env1 P c1)
    (createProjectStructure env2 P c2) (λ _, alike).
Proof.
  unfold createProjectStructure. cbv zeta. rewrite <- Hmodule.
  change (join (module_dir env1) "../../contracts")
    with (contractsPath env1).
  change (join (module_dir env1) "../templates/package.json.hbs")
    with (templatePath env1).
  norm_join.
  do 7 (eapply related_bind; [apply same_ensureDir | intros ?]).
  eapply related_bind; [apply same_pathExists | intros present].
  eapply related_bind.
  { apply same_if; [|apply same_ret].
    do 3 (eapply related_bind; [apply same_copy | intros ?]).
    apply same_copy. }
  intros ?.
  eapply related_bind; [apply same_load | intros source].
  rewrite <- Hpj. apply related_render.
  do 3 (eapply related_bind;
          [apply diverged_write; rewrite Hpj; path_ne | intros ?]).
  apply offchain_related.
Qed.

Lemma scaffold_related :
  related eq (scaffoldProject env1 name t1) (scaffoldProject env2 name t2)
    (λ _, alike).
Proof.
  unfold scaffoldProject. cbv zeta. rewrite <- Hcwd. fold P.
  eapply related_bind; [apply same_pathExists | intros b].
  eapply related_bind.
  { apply same_if; [apply same_throw | apply same_ret]. }
  intros ?. apply related_prompt.
  eapply related_bind; [apply same_ensureDir | intros ?].
  eapply related_bind; [apply related_emit | intros ?].
  eapply related_bind; [apply structure_related | intros ?].
  apply related_emit.
Qed.
End TwoRuns.

(** ** Rendering *)

Section StringFacts.
Implicit Types (s : string) (c : ascii).

Lemma append_cons c s1 s2 : String c s1 +:+ s2 = String c (s1 +:+ s2).
Proof. reflexivity. Qed.

Lemma append_nil_l s : "" +:+ s = s.
Proof. reflexivity. Qed.

Lemma append_nil_r s : s +:+ "" = s.
Proof.
  induction s as [|c s IH]; [done|]. by rewrite append_cons, IH.
Qed.

Lemma append_assoc s1 s2 s3 : (s1 +:+ s2) +:+ s3 = s1 +:+ s2 +:+ s3.
Proof.
  induction s1 as [|c s1 IH]; [done|]. by rewrite !append_cons, IH.
Qed.

Lemma rev_app_append s acc : String.rev_app s acc = String.rev s +:+ acc.
Proof.
  revert acc. unfold String.rev.
  induction s as [|c s IH]; intros acc; simpl; [done|].
  rewrite (IH (String c "")), IH, append_assoc. done.
Qed.

Lemma rev_app_rev s acc :
  String.rev (String.rev_app s acc) = String.rev acc +:+ s.
Proof.
  revert acc. induction s as [|c s IH]; intros acc; simpl.
  - by rewrite append_nil_r.
  - rewrite IH. unfold String.rev at 1. simpl.
    rewrite rev_app_append, append_assoc. done.
Qed.

Lemma escape_safe s : html_safe s = true → escapeExpression s = s.
Proof.
  unfold html_safe, escapeExpression.
  induction s as [|c s IH]; simpl; [done|].
  intros [Hc Hs]%andb_prop. rewrite (IH Hs). unfold escapeChar.
  apply negb_true_iff in Hc.
  repeat (apply orb_false_elim in Hc as [Hc ?]).
  by repeat match goal with H : is_char _ c = false |- _ => rewrite H; clear H end.
Qed.
End StringFacts.

Ltac norm_append := repeat (rewrite append_cons || rewrite append_nil_l).

Section RenderFacts.
Context (lookup : string → option string).

Lemma render_push seg t :
  render lookup (push seg t) = render_segment lookup seg +:+ render lookup t.
Proof.
  destruct seg as [s|e x]; [|done].
  destruct t as [|[s'|e' x'] t]; try done.
  simpl. by rewrite append_assoc.
Qed.

Lemma rendering_step st c s st' out :
  step st c = Some (st', out) →
  rendering lookup st (String c s)
  = (λ r, render lookup out +:+ r) <$> rendering lookup st' s.
Proof.
  intros Hstep. unfold rendering. simpl. rewrite Hstep.
  destruct (tokenize st' s) as [t|]; [|done]. simpl. f_equal.
  clear Hstep. induction out as [|seg out IH]; simpl; [done|].
  by rewrite render_push, IH, append_assoc.
Qed.

Lemma rendering_silent st c s st' :
  step st c = Some (st', []) → rendering lookup st (String c s) = rendering lookup st' s.
Proof.
  intros H. rewrite (rendering_step _ _ _ _ _ H). simpl.
  by destruct (rendering lookup st' s).
Qed.
End RenderFacts.

Section TokenizerFacts.
Context (lookup : string → option string).
Implicit Types (s rest : string) (c : ascii).

Lemma id_char_not_special c :
  is_id_char c = true →
  is_char 123 c = false ∧ is_char 38 c = false ∧ is_char 125 c = false
  ∧ is_blank c = false.
Proof.
  unfold is_id_char, is_digit, is_blank, in_range, is_char.
  intros H.
  assert (nat_of_ascii c ≠ 123 ∧ nat_of_ascii c ≠ 38
          ∧ nat_of_ascii c ≠ 125 ∧ nat_of_ascii c ≠ 32
          ∧ nat_of_ascii c ≠ 9 ∧ nat_of_ascii c ≠ 10
          ∧ nat_of_ascii c ≠ 13) as (?&?&?&?&?&?&?).
  { repeat (apply orb_prop in H as [H|H]);
      repeat (apply andb_prop in H as [H ?]);
      repeat match goal with
             | H : Nat.leb _ _ = true |- _ => apply Nat.leb_le in H
             | H : Nat.eqb _ _ = true |- _ => apply Nat.eqb_eq in H
             end; lia. }
  repeat split; rewrite ?orb_false_iff; repeat split;
    by apply Nat.eqb_neq.
Qed.

Lemma rendering_plain s rest :
  plain_text s = true →
  rendering lookup (SContent false) (s +:+ rest)
  = String.append s <$> rendering lookup (SContent false) rest.
Proof.
  unfold plain_text. induction s as [|c s IH]; simpl; intros H.
  - change ("" +:+ rest) with rest.
    by destruct (rendering lookup (SContent false) rest).
  - apply andb_prop in H as [Hc Hs].
    apply negb_true_iff, orb_false_elim in Hc as [H1 H2].
    rewrite append_cons.
    erewrite rendering_step; [|by simpl; rewrite H1, H2].
    rewrite (IH Hs). by destruct (rendering _ _ rest).
Qed.

Lemma rendering_name triple escaped s acc rest :
  forallb_chars is_id_char s = true →
  rendering lookup (SName triple escaped acc) (s +:+ rest)
  = rendering lookup (SName triple escaped (String.rev_app s acc)) rest.
Proof.
  revert acc. induction s as [|c s IH]; simpl; intros acc H; [done|].
  apply andb_prop in H as [Hc Hs]. rewrite append_cons.
  erewrite rendering_silent; [by apply IH|]. simpl. by rewrite Hc.
Qed.

Lemma rendering_close2 escaped acc rest :
  valid_name (String.rev acc) = true →
  rendering lookup (SName false escaped acc)
    (String "}" (String "}" rest))
  = (λ r, render_segment lookup (Mustache escaped (String.rev acc)) +:+ r)
    <$> rendering lookup (SContent false) rest.
Proof.
  intros Hv.
  erewrite rendering_silent; [|reflexivity].
  erewrite rendering_step;
    [|by simpl; unfold close_name; simpl; rewrite Hv].
  simpl. by rewrite append_nil_r.
Qed.

Lemma rendering_close3 escaped acc rest :
  valid_name (String.rev acc) = true →
  rendering lookup (SName true escaped acc)
    (String "}" (String "}" (String "}" rest)))
  = (λ r, render_segment lookup (Mustache escaped (String.rev acc)) +:+ r)
    <$> rendering lookup (SContent false) rest.
Proof.
  intros Hv.
  erewrite rendering_silent; [|reflexivity].
  erewrite rendering_silent; [|reflexivity].
  erewrite rendering_step;
    [|by simpl; unfold close_name; simpl; rewrite Hv].
  simpl. by rewrite append_nil_r.
Qed.

Lemma valid_name_inv s :
  valid_name s = true →
  ∃ c s', s = String c s' ∧ is_id_char c = true
          ∧ forallb_chars is_id_char s' = true.
Proof.
  unfold valid_name. intros H.
  apply andb_prop in H as [H _]. apply andb_prop in H as [H _].
  apply andb_prop in H as [Hne Hall].
  destruct s as [|c s']; [done|].
  exists c, s'. simpl in Hall. by apply andb_prop in Hall.
Qed.

Lemma rendering_mustache s rest :
  valid_name s = true →
  rendering lookup (SContent false) ("{{" +:+ s +:+ "}}" +:+ rest)
  = (λ r, render_segment lookup (Mustache true s) +:+ r)
    <$> rendering lookup (SContent false) rest.
Proof.
  intros Hv. destruct (valid_name_inv s Hv) as (c & s' & -> & Hc & Hs).
  destruct (id_char_not_special c Hc) as (H1 & H2 & H3 & H4).
  norm_append.
  erewrite rendering_silent; [|reflexivity].
  erewrite rendering_silent; [|reflexivity].
  erewrite rendering_silent;
    [|by simpl; unfold before_name; rewrite H1, H2, H4, Hc].
  rewrite rendering_name by done.
  assert (String.rev (String.rev_app s' (String c "")) = String c s')
    as Hrev by (by rewrite rev_app_rev).
  rewrite rendering_close2 by (by rewrite Hrev).
  by rewrite Hrev.
Qed.

Lemma rendering_raw_mustache s rest :
  valid_name s = true →
  rendering lookup (SContent false) ("{{{" +:+ s +:+ "}}}" +:+ rest)
  = (λ r, render_segment lookup (Mustache false s) +:+ r)
    <$> rendering lookup (SContent false) rest.
Proof.
  intros Hv. destruct (valid_name_inv s Hv) as (c & s' & -> & Hc & Hs).
  destruct (id_char_not_special c Hc) as (H1 & H2 & H3 & H4).
  norm_append.
  erewrite rendering_silent; [|reflexivity].
  erewrite rendering_silent; [|reflexivity].
  erewrite rendering_silent; [|reflexivity].
  erewrite rendering_silent;
    [|by simpl; unfold before_name; rewrite H4, Hc].
  rewrite rendering_name by done.
  assert (String.rev (String.rev_app s' (String c "")) = String c s')
    as Hrev by (by rewrite rev_app_rev).
  rewrite rendering_close3 by (by rewrite Hrev).
  by rewrite Hrev.
Qed.

(** Compiling the text of a template of the fragment and rendering it
    gives what rendering the template gives. *)
Lemma rendering_unparse t :
  well_written t = true →
  rendering lookup (SContent false) (unparse t) = Some (render lookup t).
Proof.
  induction t as [|seg t IH]; simpl; [done|].
  intros [Hseg Ht]%andb_prop. specialize (IH Ht).
  destruct seg as [s|[] x]; simpl.
  - by rewrite rendering_plain, IH.
  - by rewrite append_assoc, append_assoc, rendering_mustache, IH.
  - by rewrite append_assoc, append_assoc, rendering_raw_mustache, IH.
Qed.
End TokenizerFacts.

Lemma default_template_compiles :
  compile getDefaultPackageJsonTemplate
  = Some [ Content package_head; Mustache true "projectName";
           Content package_middle; Mustache true "description";
           Content package_tail ].
Proof. vm_compute. reflexivity. Qed.

Lemma rendered_default config :
  rendered getDefaultPackageJsonTemplate config
  = Some (package_text (escapeExpression (projectName config))
            (escapeExpression (description config))).
Proof.
  unfold rendered. rewrite default_template_compiles. simpl.
  by rewrite append_nil_r.
Qed.

(** * The claims *)

(** ** Root package.json *)




(** ** Rendering in general *)




Lemma demo_fresh : fresh_target demo_env "demo" "task-based" demo_disk demo_config.
Proof.
  split; [apply well_formedb_sound|..]; by vm_compute.
Qed.

Lemma bare_fresh : fresh_target demo_env "demo" "task-based" bare_disk demo_config.
Proof.
  split; [apply well_formedb_sound|..]; by vm_compute.
Qed.

Lemma renaming_fresh :
  fresh_target renaming_env "demo" "task-based" demo_disk other_config.
Proof.
  split; [apply well_formedb_sound|..]; by vm_compute.
Qed.

Lemma demo_bundled :
  bundled_contracts demo_env demo_disk "contract TaskMailbox {}"
    "contract TaskAVSRegistrar {}" "contract SlashingConditions {}".
Proof. split; by vm_compute. Qed.

Lemma demo_not_inside :
  ¬ contractsPath demo_env ++ ["interfaces"]
    `prefix_of` projectPath demo_env "demo".
Proof. vm_compute. intros [k Hk]. discriminate Hk. Qed.

Lemma demo_resources : resources_ready demo_env "demo" demo_disk.
Proof.
  left. eexists _, _, _. split; [apply demo_bundled | apply demo_not_inside].
Qed.

Lemma bare_resources : resources_ready demo_env "demo" bare_disk.
Proof.
  right. split; [by vm_compute|].
  vm_compute. intros [k Hk]. discriminate Hk.
Qed.

(** ** The file set *)




(** ** The bundled resources *)

(** C5: when the bundled template cannot be read, the default body is
    loaded instead, without an error; and a run on a fresh target still
    succeeds, with the root package.json rendered from the default body
    and with the full file set. *)
Theorem C5_template_fallback env name t d config c1 c2 c3 :
  read (templatePath env) d = None →
  (∀ tr, catch (readFile (templatePath env))
           (λ _, mret getDefaultPackageJsonTemplate) (World d tr)
         = (Ok getDefaultPackageJsonTemplate,
            World d (tr ++ [EvReadFile (templatePath env)])))
  ∧ (fresh_target env name t d config →
     bundled_contracts env d c1 c2 c3 →
     ¬ contractsPath env ++ ["interfaces"] `prefix_of` projectPath env name →
     ∃ w, run (scaffoldProject env name t) d = (Ok tt, w)
          ∧ disk w !! (projectPath env name ++ ["package.json"])
            = Some (File (package_text
                            (escapeExpression (projectName config))
                            (escapeExpression (description config))))
          ∧ ∀ rel,
              is_file (disk w !! (projectPath env name ++ rel)) = true
              ↔ rel ∈ generated_files ++ contract_files
                ∨ ∃ s, rel = ["contracts"; "interfaces"] ++ s
                       ∧ is_file (d !! (contractsPath env ++ ["interfaces"]
                                        ++ s)) = true).
Proof.
  intros Hread. split.
  - intros tr. rewrite load_template_run. cbn [disk trace].
    by rewrite Hread.
  - intros Hft Hbc Hout.
    assert (rendered (template_source env d) config
            = Some (package_text (escapeExpression (projectName config))
                      (escapeExpression (description config)))) as Hpkg.
    { unfold template_source. rewrite Hread. apply rendered_default. }
    eexists. split; [by eapply run_with_contracts|]. cbn [disk]. split.
    + unfold artifacts_written. by look.
    + intros rel. by eapply files_with_contracts.
Qed.

Lemma C5_template_fallback_witness :
  ∃ w, run (scaffoldProject demo_env "demo" "task-based") demo_disk
       = (Ok tt, w)
       ∧ disk w !! (projectPath demo_env "demo" ++ ["package.json"])
         = Some (File (package_text (escapeExpression "demo")
                         (escapeExpression "x")))
       ∧ ∀ rel,
           is_file (disk w !! (projectPath demo_env "demo" ++ rel)) = true
           ↔ rel ∈ generated_files ++ contract_files
             ∨ ∃ s, rel = ["contracts"; "interfaces"] ++ s
                    ∧ is_file (demo_disk
                               !! (contractsPath demo_env ++ ["interfaces"]
                                   ++ s)) = true.
Proof.
  apply (proj2 (C5_template_fallback demo_env "demo" "task-based" demo_disk
                  demo_config _ _ _ eq_refl)
           demo_fresh demo_bundled demo_not_inside).
Defined.



(** ** The off-chain package.json *)

Lemma offchain_text config :
  offChainPackageText config
  = offchain_head +:+ Json.quote (projectName config +:+ "-off-chain")
    +:+ offchain_tail.
Proof.
  unfold offChainPackageText, offChainPackageJson, Json.stringify.
  cbn [Json.serialize map join_with fst snd replicate
       String.string_of_list_ascii String.eqb Ascii.eqb Bool.eqb].
  rewrite !append_assoc. reflexivity.
Qed.



(** ** The name of the directory and the names in the files *)



(** ** An existing target *)



(** ** The order of the operations *)

(** C9: in every run, before an event that writes to a path (a copy or
    a write of a file) there is the making of the directory of that path,
    and before every change of the disk other than the making of the
    project directory there is the making of the project directory. *)
Theorem C9_directories_before_writes env name t d :
  dir_before_write (trace (run (scaffoldProject env name t) d).2)
  ∧ root_first (projectPath env name)
      (trace (run (scaffoldProject env name t) d).2).
Proof.
  destruct (run_ordered env name t d) as (H1 & H2 & _). by split.
Qed.

(** ** The choice of the template *)

(** C7: two runs from one disk, with the same working directory and
    module directory, whose answers differ at most in the template: they
    end alike (both succeed or both fail with the same error) and their
    disks are the same at every path but the root package.json, which is
    the same too unless it is rendered from one template body for the
    two answers; the renderings of a template body that does not use the
    template variable are the same, and so are those of the default
    body. *)
Theorem C7_template_noninterference env1 env2 name t1 t2 d c1 c2 :
  cwd env1 = cwd env2 → module_dir env1 = module_dir env2 →
  prompt env1 name t1 = Some c1 → prompt env2 name t2 = Some c2 →
  projectName c1 = projectName c2 → description c1 = description c2 →
  (run (scaffoldProject env1 name t1) d).1
  = (run (scaffoldProject env2 name t2) d).1
  ∧ alike c1 c2 (projectPath env1 name ++ ["package.json"])
      (disk (run (scaffoldProject env1 name t1) d).2)
      (disk (run (scaffoldProject env2 name t2) d).2)
  ∧ (∀ source tpl,
       compile source = Some tpl → mentions_template tpl = false →
       rendered source c1 = rendered source c2)
  ∧ rendered getDefaultPackageJsonTemplate c1
    = rendered getDefaultPackageJsonTemplate c2.
Proof.
  intros Hcwd Hmod Hp1 Hp2 Hname Hdesc.
  pose proof (scaffold_related c1 c2 _ Hname env1 env2 name t1 t2
                Hcwd Hmod Hp1 Hp2 eq_refl (World d []) (World d []) eq_refl)
    as H.
  unfold run.
  destruct (scaffoldProject env1 name t1 (World d [])) as [[[]|e1] w1],
    (scaffoldProject env2 name t2 (World d [])) as [[[]|e2] w2];
    try done; destruct H as [H1 H2]; simpl.
  all: split; [by f_equal|]. all: split; [done|].
  all: split;
    [ intros source tpl Hc Ht; unfold rendered; rewrite Hc; simpl;
      by rewrite (render_without_template c1 c2 Hname Hdesc tpl Ht)
    | by rewrite !rendered_default, Hname, Hdesc ].
Qed.

Lemma C7_template_noninterference_witness :
  (run (scaffoldProject (demo_env_with TaskBased) "demo" "task-based")
     demo_disk).1
  = (run (scaffoldProject (demo_env_with Oracle) "demo" "oracle")
       demo_disk).1
  ∧ alike demo_config oracle_config ["home"; "u"; "demo"; "package.json"]
      (disk (run (scaffoldProject (demo_env_with TaskBased) "demo"
                    "task-based") demo_disk).2)
      (disk (run (scaffoldProject (demo_env_with Oracle) "demo" "oracle")
               demo_disk).2)
  ∧ (∀ source tpl,
       compile source = Some tpl → mentions_template tpl = false →
       rendered source demo_config = rendered source oracle_config)
  ∧ rendered getDefaultPackageJsonTemplate demo_config
    = rendered getDefaultPackageJsonTemplate oracle_config.
Proof.
  apply (C7_template_noninterference (demo_env_with TaskBased)
           (demo_env_with Oracle) "demo" "task-based" "oracle" demo_disk
           demo_config oracle_config);
    reflexivity.
Defined.

(** * Further properties of the generator *)

(** ** The disk along a run *)

Section Grows.
Implicit Types (m d : files) (p q src dest P : path) (n : node).

Lemma same_kind_refl n : same_kind n n = true.
Proof. by destruct n. Qed.

Lemma same_kind_trans n1 n2 n3 :
  same_kind n1 n2 = true → same_kind n2 n3 = true → same_kind n1 n3 = true.
Proof. by destruct n1, n2, n3. Qed.

Lemma same_kind_sym n1 n2 : same_kind n1 n2 = same_kind n2 n1.
Proof. by destruct n1, n2. Qed.

Lemma grows_refl P m : grows P m m.
Proof.
  split.
  - intros q n Hq. exists n. split; [done | apply same_kind_refl].
  - intros q _. by left.
Qed.

Lemma grows_trans P d m m' : grows P d m → grows P m m' → grows P d m'.
Proof.
  intros [Hk1 Ho1] [Hk2 Ho2]. split.
  - intros q n Hq. destruct (Hk1 q n Hq) as (n1 & Hn1 & Hs1).
    destruct (Hk2 q n1 Hn1) as (n2 & Hn2 & Hs2).
    exists n2. split; [done | by eapply same_kind_trans].
  - intros q Hq.
    destruct (Ho1 q Hq) as [H1|(H1 & H1' & HP)],
      (Ho2 q Hq) as [H2|(H2 & H2' & HP')].
    + left. congruence.
    + right. split; [congruence|]. by split.
    + right. split; [done|]. split; [congruence | done].
    + congruence.
Qed.

Lemma grows_mkdirs P p m m' :
  P `prefix_of` p → mkdirs p m = Some m' → grows P m m'.
Proof.
  intros HP. unfold mkdirs. destruct (blocked p m) eqn:Hb; [done|].
  intros [= <-]. pose proof (proj1 (blocked_false p m) Hb) as Hfree.
  split.
  - intros q n Hq. rewrite with_dirs_lookup. case_bool_decide as Hqp.
    + exists Dir. split; [done|]. specialize (Hfree q Hqp).
      rewrite Hq in Hfree. by destruct n.
    + exists n. split; [done | apply same_kind_refl].
  - intros q Hq. rewrite with_dirs_lookup. case_bool_decide as Hqp.
    + destruct (prefix_weak_total _ _ _ Hqp HP) as [HqP|HPq]; [|done].
      specialize (Hfree q Hqp).
      destruct (m !! q) as [[]|] eqn:Hm; [done | by left | by right].
    + by left.
Qed.

Lemma grows_write P p data m m' :
  P `prefix_of` p → write p data m = Some m' → grows P m m'.
Proof.
  intros HP. unfold write.
  destruct (is_dir (m !! dirname p) && negb (is_dir (m !! p))) eqn:Hc; [|done].
  intros [= <-]. apply andb_true_iff in Hc as [_ Hp%negb_true_iff].
  split.
  - intros q n Hq. destruct (decide (q = p)) as [->|Hne].
    + rewrite lookup_insert_eq. eexists. split; [done|].
      rewrite Hq in Hp. by destruct n.
    + rewrite lookup_insert_ne by done. exists n.
      split; [done | apply same_kind_refl].
  - intros q Hq. left. rewrite lookup_insert_ne; [done|]. by intros <-.
Qed.

Lemma clashes_false_inv src dest m k n n' :
  clashes src dest m = false →
  m !! (src ++ k) = Some n → m !! (dest ++ k) = Some n' →
  same_kind n n' = true.
Proof.
  intros Hc Hs Hd. unfold clashes in Hc.
  destruct (same_kind n n') eqn:Hk; [done|].
  assert (existsb
            (λ e, match m !! retarget src dest e.1 with
                  | Some n => negb (same_kind e.2 n)
                  | None => false
                  end) (subtree src m) = true) as Hex; [|congruence].
  apply existsb_exists. exists (src ++ k, n). split.
  - apply list_elem_of_In, elem_of_subtree. split; [by eexists | done].
  - simpl. rewrite retarget_prefix, Hd. by rewrite Hk.
Qed.

Lemma grows_copy P src dest m m' :
  P `prefix_of` dirname dest → copy_tree src dest m = Some m' → grows P m m'.
Proof.
  intros HP. unfold copy_tree.
  destruct (m !! src) as [n|] eqn:Hsrc; [|done].
  destruct (blocked (dirname dest) m) eqn:Hb; [done|].
  case_bool_decide; [done|].
  destruct (is_dir (Some n) && bool_decide (src `prefix_of` dest)); [done|].
  destruct (clashes src dest m) eqn:Hc; [done|].
  assert (P `prefix_of` dest) as HPd.
  { etrans; [done | apply removelast_prefix]. }
  intros Hm'.
  assert (∃ m1, m' = grafted src dest m ∪ m1 ∧ grows P m m1)
    as (m1 & -> & Hk & Ho).
  { destruct (exists_at (m !! dirname dest)).
    - apply (inj Some) in Hm' as <-. exists m. split; [done | apply grows_refl].
    - destruct (mkdirs (dirname dest) m) as [m1|] eqn:Hm1; [|done].
      apply (inj Some) in Hm' as <-. exists m1. split; [done|].
      exact (grows_mkdirs _ _ _ _ HP Hm1). }
  split.
  - intros q n0 Hq. rewrite lookup_union.
    rewrite grafted_lookup. case_bool_decide as Hdq.
    + destruct Hdq as [k ->]. rewrite drop_app_length.
      destruct (m !! (src ++ k)) as [ns|] eqn:Hs.
      * destruct (Hk _ _ Hq) as (n1 & -> & Hs1). simpl.
        exists ns. split; [done|]. rewrite same_kind_sym.
        by eapply clashes_false_inv.
      * rewrite (left_id_L None _). by apply Hk.
    + rewrite (left_id_L None _). by apply Hk.
  - intros q Hq. rewrite graft_miss; [by apply Ho|].
    intros Hdq. apply Hq. by etrans.
Qed.
End Grows.

Section Triples.
Context {A B : Type}.
Implicit Types (I E : world → Prop).

Lemma triple_bind I (m : M A) (J : A → world → Prop) (k : A → M B)
  (K : B → world → Prop) E :
  triple I m J E → (∀ a, triple (J a) (k a) K E) → triple I (m ≫= k) K E.
Proof.
  intros Hm Hk w Hw. specialize (Hm w Hw). rewrite bind_unfold.
  destruct (m w) as [[a|e] w']; [by apply Hk | done].
Qed.

Lemma triple_ret I (a : A) (J : A → world → Prop) E :
  (∀ w, I w → J a w) → triple I (mret a) J E.
Proof. intros H w Hw. by apply H. Qed.

Lemma triple_throw I (err : error) (J : A → world → Prop) E :
  (∀ w, I w → E w) → triple I (throw err) J E.
Proof. intros H w Hw. by apply H. Qed.

Lemma triple_if I (b : bool) (m1 m2 : M A) (J : A → world → Prop) E :
  triple I m1 J E → triple I m2 J E → triple I (if b then m1 else m2) J E.
Proof. by destruct b. Qed.
End Triples.

Section Sound.
Context (env : Env) (name t : string) (d : files).
Implicit Types (w : world) (e : event) (tr : list event).

Local Abbreviation P := (projectPath env name).
Local Abbreviation C := (contractsPath env).
Local Abbreviation T := (templatePath env).
Local Abbreviation sound := (sound env name t d).
Local Abbreviation begun := (begun env name t d).
Local Abbreviation untouched := (untouched env name t d).
Local Abbreviation allowed := (allowed env name t).

Lemma prompt_first_quiet tr :
  Forall (λ e, is_mutation e = false) tr → prompt_first name t tr.
Proof.
  intros H i e Hi He. rewrite Forall_lookup in H.
  specialize (H i e Hi). simpl in H. congruence.
Qed.

Lemma prompt_first_snoc tr e :
  prompt_first name t tr →
  (is_mutation e = true → EvPrompt name t ∈ tr) →
  prompt_first name t (tr ++ [e]).
Proof.
  intros H He i e' [Hi|[-> ->]]%lookup_snoc_inv Hm.
  - by eapply earlier_kept, H.
  - by apply earlier, He.
Qed.

Lemma untouched_sound asked w : untouched asked w → sound w.
Proof.
  intros (Hd & Ha & Hq & _). split.
  - rewrite Hd. apply grows_refl.
  - done.
  - by apply prompt_first_quiet.
  - by left.
Qed.

Lemma untouched_snoc asked w e :
  untouched asked w → allowed e → is_mutation e = false →
  untouched asked (World (disk w) (trace w ++ [e])).
Proof.
  intros (Hd & Ha & Hq & Hp) He Hm. repeat split; cbn [disk trace].
  - done.
  - apply Forall_app. split; [done | by constructor].
  - apply Forall_app. split; [done | by constructor].
  - intros H. apply elem_of_app. left. by apply Hp.
Qed.

Lemma kept_dir m m' p : kept m m' → m !! p = Some Dir → m' !! p = Some Dir.
Proof.
  intros Hk Hp. destruct (Hk p Dir Hp) as (n & Hn & Hs).
  by destruct n.
Qed.

Lemma begun_step w e m' :
  begun w → allowed e → grows P (disk w) m' →
  begun (World m' (trace w ++ [e])).
Proof.
  intros ([Hg Ha Hp Ht] & HP & Hasked) He Hm.
  assert (m' !! P = Some Dir) as HP'.
  { eapply kept_dir; [apply Hm | done]. }
  split; [split|split]; cbn [disk trace].
  - by eapply grows_trans.
  - apply Forall_app. split; [done | by constructor].
  - by apply prompt_first_snoc.
  - by right.
  - done.
  - apply elem_of_app. by left.
Qed.

Lemma begun_snoc w e :
  begun w → allowed e → begun (World (disk w) (trace w ++ [e])).
Proof. intros Hw He. apply begun_step; [done | done | apply grows_refl]. Qed.

Lemma begun_sound w : begun w → sound w.
Proof. by intros [H _]. Qed.

(** *** The operations before the project directory is made *)

Lemma untouched_pathExists asked p :
  allowed (EvPathExists p) →
  triple (untouched asked) (pathExists p) (λ _, untouched asked) sound.
Proof.
  intros Hp w Hw. rewrite pathExists_run. by apply untouched_snoc.
Qed.

Lemma untouched_prompt :
  triple (untouched false) (inquirer_prompt env name t)
    (λ _, untouched true) sound.
Proof.
  intros w Hw. unfold inquirer_prompt. rewrite bind_unfold, emit_run.
  assert (untouched true (World (disk w) (trace w ++ [EvPrompt name t])))
    as H.
  { destruct (untouched_snoc false w (EvPrompt name t) Hw)
      as (H1 & H2 & H3 & _); [done..|].
    repeat split; [done..|].
    intros _. cbn [trace]. apply elem_of_app. right. by left. }
  destruct (prompt env name t); simpl; [done|].
  by eapply untouched_sound.
Qed.

Lemma untouched_ensureDir :
  triple (untouched true) (ensureDir P) (λ _, begun) sound.
Proof.
  intros w (Hd & Ha & Hq & Hp). unfold ensureDir. rewrite update_run.
  assert (Forall allowed (trace w ++ [EvEnsureDir P])) as Ha'.
  { apply Forall_app. split; [done|].
    constructor; [simpl; reflexivity | constructor]. }
  assert (prompt_first name t (trace w ++ [EvEnsureDir P])) as Hp'.
  { apply prompt_first_snoc; [by apply prompt_first_quiet|].
    intros _. by apply Hp. }
  destruct (mkdirs P (disk w)) as [m'|] eqn:Hm.
  - assert (grows P d m') as Hg.
    { rewrite <- Hd. by eapply grows_mkdirs. }
    assert (m' !! P = Some Dir) as HP.
    { unfold mkdirs in Hm. destruct (blocked P (disk w)); [done|].
      apply (inj Some) in Hm as <-. rewrite with_dirs_lookup.
      by rewrite bool_decide_true. }
    split; [split|split]; cbn [disk trace]; try done.
    + by right.
    + apply elem_of_app. left. by apply Hp.
  - split; cbn [disk trace]; try done.
    + rewrite Hd. apply grows_refl.
    + by left.
Qed.

(** *** The operations after it *)

Lemma begun_ret {X} (x : X) : triple begun (mret x) (λ _, begun) sound.
Proof. by apply triple_ret. Qed.

Lemma begun_emit e :
  allowed e → triple begun (emit e) (λ _, begun) sound.
Proof. intros He w Hw. rewrite emit_run. by apply begun_snoc. Qed.

Lemma begun_pathExists p :
  allowed (EvPathExists p) →
  triple begun (pathExists p) (λ _, begun) sound.
Proof. intros Hp w Hw. rewrite pathExists_run. by apply begun_snoc. Qed.

Lemma begun_update e syscall p f :
  allowed e → (∀ m m', f m = Some m' → grows P m m') →
  triple begun (emit e;; update syscall p f) (λ _, begun) sound.
Proof.
  intros He Hf w Hw. rewrite update_run.
  destruct (f (disk w)) as [m'|] eqn:Hm.
  - apply begun_step; [done | done | by apply Hf].
  - by apply begun_sound, begun_snoc.
Qed.

Lemma begun_ensureDir p :
  P `prefix_of` p → triple begun (ensureDir p) (λ _, begun) sound.
Proof.
  intros Hp. apply begun_update; [done|].
  intros m m'. by apply grows_mkdirs.
Qed.

Lemma begun_copy src dest :
  C `prefix_of` dirname src → P `prefix_of` dirname dest →
  triple begun (copy src dest) (λ _, begun) sound.
Proof.
  intros Hs Hd. apply begun_update; [done|].
  intros m m'. by apply grows_copy.
Qed.

Lemma begun_writeFile p data :
  P `prefix_of` dirname p →
  triple begun (writeFile p data) (λ _, begun) sound.
Proof.
  intros Hp. apply begun_update; [done|].
  intros m m'. apply grows_write. etrans; [done | apply removelast_prefix].
Qed.

Lemma begun_load :
  triple begun
    (catch (readFile T) (λ _, mret getDefaultPackageJsonTemplate))
    (λ _, begun) sound.
Proof. intros w Hw. rewrite load_template_run. by apply begun_snoc. Qed.

Lemma begun_render source config :
  triple begun (render_template source config) (λ _, begun) sound.
Proof.
  intros w Hw. unfold render_template.
  destruct (compile source); simpl; [done | by apply begun_sound].
Qed.
End Sound.

Ltac below_target :=
  rewrite ?dirname_snoc, ?dirname_snoc2, ?dirname_snoc3;
  first [ reflexivity | by apply prefix_app_r ].

Ltac sound_walk :=
  repeat match goal with
  | |- triple _ (_ ≫= _) _ _ => eapply triple_bind; [|intros ?; cbv beta]
  | |- triple _ (if _ then _ else _) _ _ => apply triple_if
  | |- triple _ (mret _) _ _ => apply begun_ret
  | |- triple _ (console_log _) _ _ => by apply begun_emit
  | |- triple _ (pathExists _) _ _ => apply begun_pathExists; by right
  | |- triple _ (ensureDir _) _ _ => apply begun_ensureDir; below_target
  | |- triple _ (copy _ _) _ _ => apply begun_copy; below_target
  | |- triple _ (writeFile _ _) _ _ => apply begun_writeFile; below_target
  | |- triple _ (writeJSON _ _ _) _ _ => apply begun_writeFile; below_target
  | |- triple _ (catch (readFile _) _) _ _ => apply begun_load
  | |- triple _ (render_template _ _) _ _ => apply begun_render
  end.

Section ScaffoldSound.
Context (env : Env) (name t : string) (d : files).

Local Abbreviation P := (projectPath env name).
Local Abbreviation sound := (sound env name t d).
Local Abbreviation begun := (begun env name t d).

Lemma generateOffChainComponents_sound config :
  triple begun (generateOffChainComponents P config) (λ _, begun) sound.
Proof.
  unfold generateOffChainComponents. cbv zeta. norm_join. sound_walk.
Qed.

Lemma createProjectStructure_sound config :
  triple begun (createProjectStructure env P config) (λ _, begun) sound.
Proof.
  unfold createProjectStructure. cbv zeta.
  change (join (module_dir env) "../../contracts") with (contractsPath env).
  change (join (module_dir env) "../templates/package.json.hbs")
    with (templatePath env).
  norm_join. sound_walk.
  apply generateOffChainComponents_sound.
Qed.

Lemma scaffoldProject_sound :
  triple (untouched env name t d false) (scaffoldProject env name t)
    (λ _, begun) sound.
Proof.
  unfold scaffoldProject. cbv zeta. fold P.
  eapply triple_bind; [apply untouched_pathExists; by left|].
  intros b; cbv beta.
  eapply triple_bind.
  { apply (triple_if _ _ _ _ (λ _, untouched env name t d false)).
    - apply triple_throw. intros w. apply untouched_sound.
    - by apply triple_ret. }
  intros ?; cbv beta.
  eapply triple_bind; [apply untouched_prompt|]. intros config; cbv beta.
  eapply triple_bind; [apply untouched_ensureDir|]. intros ?; cbv beta.
  eapply triple_bind; [by apply begun_emit|]. intros ?; cbv beta.
  eapply triple_bind; [apply createProjectStructure_sound|].
  intros ?; cbv beta. by apply begun_emit.
Qed.

(** Every run from an empty trace. *)
Lemma run_sound : sound (run (scaffoldProject env name t) d).2.
Proof.
  assert (untouched env name t d false (World d [])) as H0.
  { repeat split; [constructor.. | done]. }
  pose proof (scaffoldProject_sound (World d []) H0) as H.
  unfold run.
  destruct (scaffoldProject env name t (World d [])) as [[[]|e] w];
    [by apply begun_sound | done].
Qed.

Lemma run_made :
  (run (scaffoldProject env name t) d).1 = Ok tt →
  disk (run (scaffoldProject env name t) d).2 !! P = Some Dir.
Proof.
  assert (untouched env name t d false (World d [])) as H0.
  { repeat split; [constructor.. | done]. }
  pose proof (scaffoldProject_sound (World d []) H0) as H.
  unfold run.
  destruct (scaffoldProject env name t (World d [])) as [[[]|e] w];
    [|done].
  intros _. apply H.
Qed.
End ScaffoldSound.

(** ** What no run does *)

(** X1: every run leaves what is not at or below the target path as it
    was, but for the directories it makes on the way to the target. *)
Theorem scaffold_outside_untouched env name t d :
  outside_kept (projectPath env name) d
    (disk (run (scaffoldProject env name t) d).2).
Proof. apply (run_sound env name t d). Qed.

Lemma run_preserves env name t d x n :
  well_formed d → d !! x = Some n →
  disk (run (scaffoldProject env name t) d).2 !! x = Some n.
Proof.
  intros Hwf Hx.
  destruct (d !! projectPath env name) as [nP|] eqn:HP.
  - unfold run, scaffoldProject. cbv zeta. fold (projectPath env name).
    erewrite exec_bind; [|apply pathExists_run|]; cbn [disk trace].
    2:{ rewrite HP. reflexivity. }
    done.
  - assert (¬ projectPath env name `prefix_of` x) as Hout.
    { intros Hpre. destruct (decide (projectPath env name = x)) as [Heq|Hne].
      - rewrite Heq in HP. congruence.
      - rewrite (Hwf x n Hx _ Hpre Hne) in HP. done. }
    destruct (proj2 (sound_grows _ _ _ _ _ (run_sound env name t d)) x Hout)
      as [H|(H & _)]; congruence.
Qed.

(** X2: on a well-formed disk, whatever was there before a run is
    there after it, unchanged: the generator overwrites no file of the
    user. *)
Theorem scaffold_preserves_existing env name t d x n :
  well_formed d → d !! x = Some n →
  disk (run (scaffoldProject env name t) d).2 !! x = Some n.
Proof. apply run_preserves. Qed.

Lemma scaffold_preserves_existing_witness :
  disk (run (scaffoldProject demo_env "demo" "task-based") demo_disk).2
    !! ["home"; "u"; "notes"] = Some (File "todo").
Proof.
  apply (scaffold_preserves_existing demo_env "demo" "task-based" demo_disk
           ["home"; "u"; "notes"] (File "todo")).
  - apply well_formedb_sound. vm_compute. reflexivity.
  - vm_compute. reflexivity.
Defined.

(** X3: the events of every run are those of the generator: checks of
    the target and of the bundled contracts, one question to the user,
    the reading of the bundled template, copies from the bundled
    contracts to below the target, and directories and files at and
    below the target. *)
Theorem scaffold_events_allowed env name t d :
  Forall (allowed env name t) (trace (run (scaffoldProject env name t) d).2).
Proof. apply (run_sound env name t d). Qed.

(** X4: in every run, the user is asked before anything changes on the
    disk. *)
Theorem scaffold_asks_first env name t d :
  prompt_first name t (trace (run (scaffoldProject env name t) d).2).
Proof. apply (run_sound env name t d). Qed.



(** ** What a run leaves at the target *)

(** X6: every run leaves the disk as it was or leaves a directory at
    the target path, and a run that succeeds leaves the directory. *)
Theorem scaffold_target_left env name t d :
  (disk (run (scaffoldProject env name t) d).2 = d
   ∨ disk (run (scaffoldProject env name t) d).2 !! projectPath env name
     = Some Dir)
  ∧ ((run (scaffoldProject env name t) d).1 = Ok tt →
     disk (run (scaffoldProject env name t) d).2 !! projectPath env name
     = Some Dir).
Proof.
  split; [apply (run_sound env name t d) | apply run_made].
Qed.

Lemma scaffold_target_left_witness :
  disk (run (scaffoldProject demo_env "demo" "task-based") demo_disk).2
    !! ["home"; "u"; "demo"] = Some Dir.
Proof.
  apply (proj2 (scaffold_target_left demo_env "demo" "task-based" demo_disk)).
  vm_compute. reflexivity.
Defined.

(** X7: after a run that succeeded, a second run with the same name
    fails with the error of an existing directory and changes nothing. *)
Theorem scaffold_twice_fails env name t t' d :
  (run (scaffoldProject env name t) d).1 = Ok tt →
  run (scaffoldProject env name t')
    (disk (run (scaffoldProject env name t) d).2)
  = (Err (DirectoryExists name),
     World (disk (run (scaffoldProject env name t) d).2)
       [EvPathExists (projectPath env name)]).
Proof.
  intros Hok. pose proof (run_made env name t d Hok) as HP.
  unfold run at 1. unfold scaffoldProject at 1. cbv zeta.
  fold (projectPath env name).
  eapply exec_bind; [apply pathExists_run|]. cbn [disk trace app].
  rewrite HP. reflexivity.
Qed.

Lemma scaffold_twice_fails_witness :
  run (scaffoldProject demo_env "demo" "oracle")
    (disk (run (scaffoldProject demo_env "demo" "task-based") demo_disk).2)
  = (Err (DirectoryExists "demo"),
     World (disk (run (scaffoldProject demo_env "demo" "task-based")
                    demo_disk).2)
       [EvPathExists ["home"; "u"; "demo"]]).
Proof.
  apply (scaffold_twice_fails demo_env "demo" "task-based" "oracle" demo_disk).
  vm_compute. reflexivity.
Defined.

(** ** Well-formed disks *)

Section WellFormed.
Implicit Types (m : files) (p q a src dest : path) (n : node).

Lemma proper_prefix_dirname a p :
  a `prefix_of` p → a ≠ p → a `prefix_of` dirname p.
Proof.
  intros [k ->] Hne. unfold dirname.
  destruct k as [|x k _] using rev_ind.
  - by rewrite app_nil_r in Hne.
  - rewrite app_assoc, removelast_last. by apply prefix_app_r.
Qed.

Lemma well_formed_mkdirs p m m' :
  well_formed m → mkdirs p m = Some m' → well_formed m'.
Proof.
  intros Hwf. unfold mkdirs. destruct (blocked p m); [done|].
  intros [= <-] q n Hq a Ha Hne. rewrite with_dirs_lookup in Hq |- *.
  case_bool_decide as Hqp.
  - rewrite bool_decide_eq_true_2; [done | by etrans].
  - case_bool_decide; [done|]. by eapply Hwf.
Qed.

Lemma well_formed_write p data m m' :
  well_formed m → write p data m = Some m' → well_formed m'.
Proof.
  intros Hwf. unfold write.
  destruct (is_dir (m !! dirname p) && negb (is_dir (m !! p))) eqn:Hc; [|done].
  apply andb_true_iff in Hc as [Hd Hp%negb_true_iff].
  assert (m !! dirname p = Some Dir) as Hdir.
  { by destruct (m !! dirname p) as [[]|]. }
  intros [= <-] q n Hq a Ha Hne.
  destruct (decide (q = p)) as [->|Hqp].
  - pose proof (proper_prefix_dirname a p Ha Hne) as Had.
    rewrite lookup_insert_ne by done.
    destruct (decide (a = dirname p)) as [->|Hne']; [done|].
    by eapply Hwf.
  - rewrite lookup_insert_ne in Hq by done.
    pose proof (Hwf q n Hq a Ha Hne) as Hdir'.
    rewrite lookup_insert_ne; [done|].
    intros <-. by rewrite Hdir' in Hp.
Qed.

Lemma well_formed_copy src dest m m' :
  well_formed m → copy_tree src dest m = Some m' → well_formed m'.
Proof.
  intros Hwf. unfold copy_tree.
  destruct (m !! src) as [ns|] eqn:Hsrc; [|done].
  destruct (blocked (dirname dest) m) eqn:Hb; [done|].
  case_bool_decide as Hsd; [done|].
  destruct (is_dir (Some ns) && bool_decide (src `prefix_of` dest)); [done|].
  destruct (clashes src dest m) eqn:Hc; [done|].
  intros Hm'.
  assert (∃ m1, m' = grafted src dest m ∪ m1 ∧ well_formed m1
                ∧ m1 !! dirname dest = Some Dir
                ∧ ∀ k, m1 !! (dest ++ k) = m !! (dest ++ k)
                       ∨ (k = [] ∧ dest = [] ∧ m !! [] = None))
    as (m1 & -> & Hwf1 & Hdd & Hsame).
  { destruct (exists_at (m !! dirname dest)) eqn:Hex.
    - apply (inj Some) in Hm' as <-. exists m.
      split; [done|]. split; [done|]. split; [|by left].
      pose proof (proj1 (blocked_false _ _) Hb (dirname dest)) as Hf.
      specialize (Hf (reflexivity _)).
      by destruct (m !! dirname dest) as [[]|].
    - destruct (mkdirs (dirname dest) m) as [m1|] eqn:Hm1; [|done].
      apply (inj Some) in Hm' as <-. exists m1.
      split; [done|]. split; [by eapply well_formed_mkdirs|].
      unfold mkdirs in Hm1. rewrite Hb in Hm1. apply (inj Some) in Hm1 as <-.
      split.
      + rewrite with_dirs_lookup. by rewrite bool_decide_eq_true_2.
      + intros k. rewrite with_dirs_lookup. case_bool_decide as Hpre; [|by left].
        right. destruct dest as [|x dest _] using rev_ind.
        * apply prefix_nil_inv in Hpre. simpl in Hpre. subst k.
          repeat split. simpl in Hex. by destruct (m !! []).
        * unfold dirname in Hpre. rewrite removelast_last in Hpre.
          apply prefix_length in Hpre. rewrite !length_app in Hpre.
          simpl in Hpre. lia. }
  clear Hm'. intros x n Hx a Ha Hne.
  rewrite lookup_union, grafted_lookup in Hx.
  rewrite lookup_union, grafted_lookup.
  destruct (decide (dest `prefix_of` a)) as [Hda|Hda].
  - (* [a] is at or below the destination *)
    rewrite bool_decide_eq_true_2 by done.
    destruct Hda as [ka ->].
    assert (dest `prefix_of` x) as [kx ->].
    { etrans; [|done]. by apply prefix_app_r. }
    rewrite bool_decide_eq_true_2 in Hx by (by eexists).
    rewrite drop_app_length in Hx. rewrite drop_app_length.
    assert (ka `prefix_of` kx) as Hk.
    { by apply prefix_app_inv in Ha. }
    assert (ka ≠ kx) as Hkne by (by intros ->).
    destruct (m !! (src ++ kx)) as [nx|] eqn:Hsx.
    + rewrite (Hwf _ _ Hsx (src ++ ka)).
      * by destruct (m1 !! (dest ++ ka)).
      * by apply prefix_app.
      * by intros ?%app_inv_head.
    + rewrite (left_id_L None _) in Hx.
      assert (m1 !! (dest ++ ka) = Some Dir) as Hdir.
      { eapply Hwf1; [done | by apply prefix_app|].
        by intros ?%app_inv_head. }
      rewrite Hdir. destruct (m !! (src ++ ka)) as [na|] eqn:Hsa; [|done].
      destruct (Hsame ka) as [Hka|(-> & -> & Hroot)].
      * rewrite Hka in Hdir.
        pose proof (clashes_false_inv _ _ _ _ _ _ Hc Hsa Hdir) as Hk'.
        by destruct na.
      * destruct (Hsame kx) as [Hkx|(-> & _)]; [|done].
        rewrite Hkx in Hx. simpl in Hx.
        rewrite (Hwf _ _ Hx [] (prefix_nil _)) in Hroot; [done|].
        by intros <-.
  - rewrite bool_decide_eq_false_2 by done.
    rewrite (left_id_L None _).
    destruct (decide (dest `prefix_of` x)) as [Hdx|Hdx].
    + (* [x] is at or below the destination, [a] is above it *)
      assert (a `prefix_of` dirname dest) as Had.
      { destruct (prefix_weak_total _ _ _ Ha Hdx) as [H|H]; [|done].
        apply proper_prefix_dirname; [done|].
        intros ->. apply Hda. reflexivity. }
      destruct (decide (a = dirname dest)) as [->|Hne']; [done|].
      by eapply Hwf1.
    + rewrite bool_decide_eq_false_2 in Hx by done.
      rewrite (left_id_L None _) in Hx. by eapply Hwf1.
Qed.
End WellFormed.

Section Steady.
Context (Q : files → Prop).
Context (Hmkdirs : ∀ p m m', Q m → mkdirs p m = Some m' → Q m').
Context (Hwrite : ∀ p data m m', Q m → write p data m = Some m' → Q m').
Context (Hcopy : ∀ src dest m m', Q m → copy_tree src dest m = Some m' → Q m').

Lemma steady_bind {A B} (m : M A) (k : A → M B) :
  steady Q m → (∀ a, steady Q (k a)) → steady Q (m ≫= k).
Proof. intros Hm Hk. by eapply triple_bind. Qed.

Lemma steady_if {A} (b : bool) (m1 m2 : M A) :
  steady Q m1 → steady Q m2 → steady Q (if b then m1 else m2).
Proof. by destruct b. Qed.

Lemma steady_ret {A} (a : A) : steady Q (mret a).
Proof. by intros w Hw. Qed.

Lemma steady_throw {A} e : steady Q (throw e : M A).
Proof. by intros w Hw. Qed.

Lemma steady_emit e : steady Q (emit e).
Proof. by intros w Hw. Qed.

Lemma steady_pathExists p : steady Q (pathExists p).
Proof. intros w Hw. by rewrite pathExists_run. Qed.

Lemma steady_load p :
  steady Q (catch (readFile p) (λ _, mret getDefaultPackageJsonTemplate)).
Proof. intros w Hw. by rewrite load_template_run. Qed.

Lemma steady_render source config : steady Q (render_template source config).
Proof.
  intros w Hw. unfold render_template. by destruct (compile source).
Qed.

Lemma steady_prompt env name t : steady Q (inquirer_prompt env name t).
Proof.
  intros w Hw. unfold inquirer_prompt. rewrite bind_unfold, emit_run.
  by destruct (prompt env name t).
Qed.

Lemma steady_ensureDir p : steady Q (ensureDir p).
Proof.
  intros w Hw. unfold ensureDir. rewrite update_run.
  destruct (mkdirs p (disk w)) eqn:H; [by eapply Hmkdirs | done].
Qed.

Lemma steady_copy src dest : steady Q (copy src dest).
Proof.
  intros w Hw. unfold copy. rewrite update_run.
  destruct (copy_tree src dest (disk w)) eqn:H; [by eapply Hcopy | done].
Qed.

Lemma steady_writeFile p data : steady Q (writeFile p data).
Proof.
  intros w Hw. unfold writeFile. rewrite update_run.
  destruct (write p data (disk w)) eqn:H; [by eapply Hwrite | done].
Qed.

Ltac steady_walk :=
  repeat match goal with
  | |- steady _ (_ ≫= _) => apply steady_bind; [|intros ?]
  | |- steady _ (if _ then _ else _) => apply steady_if
  | |- steady _ (mret _) => apply steady_ret
  | |- steady _ (throw _) => apply steady_throw
  | |- steady _ (console_log _) => apply steady_emit
  | |- steady _ (pathExists _) => apply steady_pathExists
  | |- steady _ (ensureDir _) => apply steady_ensureDir
  | |- steady _ (copy _ _) => apply steady_copy
  | |- steady _ (writeFile _ _) => apply steady_writeFile
  | |- steady _ (writeJSON _ _ _) => apply steady_writeFile
  | |- steady _ (catch (readFile _) _) => apply steady_load
  | |- steady _ (render_template _ _) => apply steady_render
  | |- steady _ (inquirer_prompt _ _ _) => apply steady_prompt
  end.

Lemma generateOffChainComponents_steady P config :
  steady Q (generateOffChainComponents P config).
Proof. unfold generateOffChainComponents. cbv zeta. steady_walk. Qed.

Lemma createProjectStructure_steady env P config :
  steady Q (createProjectStructure env P config).
Proof.
  unfold createProjectStructure. cbv zeta. steady_walk.
  apply generateOffChainComponents_steady.
Qed.

Lemma scaffoldProject_steady env name t :
  steady Q (scaffoldProject env name t).
Proof.
  unfold scaffoldProject. cbv zeta. steady_walk.
  apply createProjectStructure_steady.
Qed.

Lemma run_steady env name t d :
  Q d → Q (disk (run (scaffoldProject env name t) d).2).
Proof.
  intros Hd. pose proof (scaffoldProject_steady env name t (World d []) Hd).
  unfold run. by destruct (scaffoldProject env name t (World d []))
    as [[[]|e] w].
Qed.
End Steady.

Lemma run_well_formed env name t d :
  well_formed d → well_formed (disk (run (scaffoldProject env name t) d).2).
Proof.
  apply run_steady.
  - apply well_formed_mkdirs.
  - apply well_formed_write.
  - apply well_formed_copy.
Qed.

(** X8: every run, successful or failing, leaves a well-formed disk
    well formed: every entry still lies in a directory. *)
Theorem scaffold_keeps_well_formed env name t d :
  well_formed d → well_formed (disk (run (scaffoldProject env name t) d).2).
Proof. apply run_well_formed. Qed.

Lemma scaffold_keeps_well_formed_witness :
  well_formed
    (disk (run (scaffoldProject demo_env "demo" "task-based") demo_disk).2).
Proof.
  apply (scaffold_keeps_well_formed demo_env "demo" "task-based" demo_disk).
  apply well_formedb_sound. vm_compute. reflexivity.
Defined.

(** ** A run that fails half way *)

Section NoRollback.
Context (env : Env) (name t : string) (d : files) (config : Answers).
Context (Hft : fresh_target env name t d config).
Context (HC : exists_at (d !! contractsPath env) = true).
Context (Hi : d !! (contractsPath env ++ ["interfaces"]) = None).

Local Abbreviation P := (projectPath env name).
Local Abbreviation C := (contractsPath env).
Local Abbreviation m1 := (with_dirs (projectPath env name) d).
Local Abbreviation m8 := (dirs_built (projectPath env name)
                            (with_dirs (projectPath env name) d)).

Lemma m8_chain : dir_chain P m8.
Proof.
  unfold dirs_built.
  repeat (apply (dir_chain_insert env name); [|done]).
  apply m1_chain.
Qed.

Lemma m8_old q n : d !! q = Some n → m8 !! q = Some n.
Proof.
  intros Hq. rewrite (m8_grown env name d).
  - by apply (m1_old env name t d config Hft).
  - by eapply old_outside.
Qed.

Lemma copy_interfaces_fails :
  copy_tree (C ++ ["interfaces"]) (P ++ ["contracts"; "interfaces"]) m8
  = None.
Proof.
  unfold copy_tree.
  destruct (decide (C ++ ["interfaces"] `prefix_of` P)) as [Hway|Hway].
  - rewrite (m8_chain _ Hway).
    assert (dir_chain (P ++ ["contracts"]) m8) as Hc.
    { apply dir_chain_snoc; [apply m8_chain|]. unfold dirs_built. by look. }
    rewrite dirname_snoc2, (dir_chain_not_blocked _ _ Hc).
    rewrite bool_decide_eq_false_2.
    2:{ intros Heq. rewrite Heq in Hway.
        by apply prefix_app_cons_not in Hway. }
    rewrite bool_decide_eq_true_2; [done|].
    etrans; [done | by apply prefix_app_r].
  - assert (m8 !! (C ++ ["interfaces"]) = None) as ->; [|done].
    rewrite (m8_grown env name d).
    + rewrite with_dirs_lookup. by rewrite bool_decide_eq_false_2.
    + intros [HP|HP]%prefix_snoc_inv.
      * destruct (d !! C) as [n|] eqn:Hn; [|done].
        by apply (old_outside env name t d config Hft) in Hn.
      * apply Hway. by rewrite HP.
Qed.

Lemma run_copy_fails :
  run (scaffoldProject env name t) d
  = (Err (FsError "copy" (P ++ ["contracts"; "interfaces"])),
     World m8
       (events_start env name t config
        ++ [EvCopy (C ++ ["interfaces"]) (P ++ ["contracts"; "interfaces"])])).
Proof.
  unfold run, scaffoldProject. cbv zeta. fold P.
  eapply exec_bind; [apply pathExists_run|]. cbn [disk trace].
  rewrite (ft_absent _ _ _ _ _ Hft). cbn [exists_at].
  eapply exec_bind; [reflexivity|].
  eapply exec_bind; [apply (prompt_ok env name t d config Hft)|].
  eapply exec_bind;
    [apply ensureDir_ok, mkdirs_ok, (ft_clear _ _ _ _ _ Hft)|].
  eapply exec_bind; [apply emit_run|]. cbn [disk trace].
  apply exec_bind_err.
  unfold createProjectStructure. cbv zeta.
  change (join (module_dir env) "../../contracts") with C.
  norm_join.
  rewrite (dirs_then env name t d config Hft) by done. cbn [disk trace].
  eapply exec_bind; [apply pathExists_run|]. cbn [disk trace].
  assert (exists_at (m8 !! C) = true) as ->.
  { destruct (d !! C) as [n|] eqn:Hn; [|done]. by rewrite (m8_old _ _ Hn). }
  apply exec_bind_err, exec_bind_err.
  unfold copy. rewrite update_run. cbn [disk trace].
  rewrite copy_interfaces_fails. by rewrite <- app_assoc.
Qed.
End NoRollback.

(** X9: when the bundled contracts directory is there without its
    interfaces, a run on a fresh target fails at the first copy, after
    the eight directories of the project were made, and leaves them on
    the disk: nothing is rolled back. *)
Theorem scaffold_no_rollback env name t d config :
  fresh_target env name t d config →
  exists_at (d !! contractsPath env) = true →
  d !! (contractsPath env ++ ["interfaces"]) = None →
  run (scaffoldProject env name t) d
  = (Err (FsError "copy"
            (projectPath env name ++ ["contracts"; "interfaces"])),
     World (dirs_built (projectPath env name)
              (with_dirs (projectPath env name) d))
       (events_start env name t config
        ++ [EvCopy (contractsPath env ++ ["interfaces"])
              (projectPath env name ++ ["contracts"; "interfaces"])])).
Proof. apply run_copy_fails. Qed.

Lemma hollow_fresh :
  fresh_target demo_env "demo" "task-based" hollow_disk demo_config.
Proof.
  split; [apply well_formedb_sound|..]; by vm_compute.
Qed.

Lemma scaffold_no_rollback_witness :
  run (scaffoldProject demo_env "demo" "task-based") hollow_disk
  = (Err (FsError "copy" ["home"; "u"; "demo"; "contracts"; "interfaces"]),
     World (dirs_built ["home"; "u"; "demo"]
              (with_dirs ["home"; "u"; "demo"] hollow_disk))
       (events_start demo_env "demo" "task-based" demo_config
        ++ [EvCopy ["pkg"; "contracts"; "interfaces"]
              ["home"; "u"; "demo"; "contracts"; "interfaces"]])).
Proof.
  apply (scaffold_no_rollback demo_env "demo" "task-based" hollow_disk
           demo_config hollow_fresh); reflexivity.
Defined.

(** ** A target that cannot be made *)

(** X10: when nothing is at the target path but a regular file lies on
    the way to it, the run fails at the making of the project
    directory, after the user has answered, and leaves the disk as it
    was. *)
Theorem scaffold_blocked_target env name t d config :
  d !! projectPath env name = None →
  blocked (projectPath env name) d = true →
  prompt env name t = Some config →
  run (scaffoldProject env name t) d
  = (Err (FsError "mkdir" (projectPath env name)),
     World d [ EvPathExists (projectPath env name); EvPrompt name t;
               EvEnsureDir (projectPath env name) ]).
Proof.
  intros Habs Hb Hp. unfold run, scaffoldProject. cbv zeta.
  fold (projectPath env name).
  eapply exec_bind; [apply pathExists_run|]. cbn [disk trace app].
  rewrite Habs. cbn [exists_at].
  eapply exec_bind; [reflexivity|].
  eapply exec_bind.
  { unfold inquirer_prompt. eapply exec_bind; [apply emit_run|].
    rewrite Hp. reflexivity. }
  cbn [disk trace app]. apply exec_bind_err.
  unfold ensureDir. rewrite update_run. cbn [disk trace app].
  unfold mkdirs. by rewrite Hb.
Qed.

Lemma scaffold_blocked_target_witness :
  run (scaffoldProject demo_env "notes/app" "task-based") demo_disk
  = (Err (FsError "mkdir" ["home"; "u"; "notes"; "app"]),
     World demo_disk
       [ EvPathExists ["home"; "u"; "notes"; "app"];
         EvPrompt "notes/app" "task-based";
         EvEnsureDir ["home"; "u"; "notes"; "app"] ]).
Proof.
  apply (scaffold_blocked_target demo_env "notes/app" "task-based" demo_disk
           {| projectName := "notes/app"; template := TaskBased;
              description := "x" |});
    reflexivity.
Defined.

(** ** The bundled template *)


Lemma templated_fresh :
  fresh_target (demo_env_with Oracle) "demo" "oracle" templated_disk
    oracle_config.
Proof.
  split; [apply well_formedb_sound|..]; by vm_compute.
Qed.


(** ** What the answers reach *)

Section Answers.
Context (P : path).
Implicit Types (m : files) (q : path).

Lemma artifacts_written_agree c1 c2 pkg1 pkg2 m q :
  q ≠ P ++ ["package.json"] → q ≠ P ++ ["off-chain"; "package.json"] →
  artifacts_written P c1 pkg1 m !! q = artifacts_written P c2 pkg2 m !! q.
Proof.
  intros H1 H2. unfold artifacts_written.
  rewrite (lookup_insert_ne _ (P ++ ["off-chain"; "package.json"])) by done.
  rewrite (lookup_insert_ne _ (P ++ ["off-chain"; "package.json"])) by done.
  repeat match goal with
  | |- <[?k := ?v]> _ !! q = <[?k := ?v]> _ !! q =>
      destruct (decide (k = q)) as [<-|?];
      [by rewrite !lookup_insert_eq | rewrite !(lookup_insert_ne _ k) by done]
  end.
  by rewrite !lookup_insert_ne by done.
Qed.
End Answers.

(** X12: two runs on a fresh target whose users answer differently:
    the disks they leave are the same at every path but the two
    package.json files. *)
Theorem answers_reach_two_files env1 env2 name t d c1 c2 pkg1 pkg2 q :
  cwd env1 = cwd env2 → module_dir env1 = module_dir env2 →
  fresh_target env1 name t d c1 → fresh_target env2 name t d c2 →
  rendered (template_source env1 d) c1 = Some pkg1 →
  rendered (template_source env2 d) c2 = Some pkg2 →
  resources_ready env1 name d →
  q ≠ projectPath env1 name ++ ["package.json"] →
  q ≠ projectPath env1 name ++ ["off-chain"; "package.json"] →
  disk (run (scaffoldProject env1 name t) d).2 !! q
  = disk (run (scaffoldProject env2 name t) d).2 !! q.
Proof.
  intros Hcwd Hmod Hft1 Hft2 Hpkg1 Hpkg2 Hres Hq1 Hq2.
  assert (projectPath env2 name = projectPath env1 name) as HP.
  { unfold projectPath. by rewrite Hcwd. }
  assert (contractsPath env2 = contractsPath env1) as HC.
  { unfold contractsPath. by rewrite Hmod. }
  destruct Hres as [(x1 & x2 & x3 & Hbc & Hout)|[Hnone Hway]].
  - assert (bundled_contracts env2 d x1 x2 x3) as Hbc2.
    { destruct Hbc. split; by rewrite HC. }
    rewrite (run_with_contracts env1 name t d c1 pkg1 Hft1 Hpkg1 x1 x2 x3)
      by done.
    rewrite (run_with_contracts env2 name t d c2 pkg2 Hft2 Hpkg2 x1 x2 x3)
      by (by rewrite ?HC, ?HP).
    cbn [snd disk]. rewrite HP, HC.
    by apply artifacts_written_agree.
  - rewrite (run_without_contracts env1 name t d c1 pkg1 Hft1 Hpkg1) by done.
    rewrite (run_without_contracts env2 name t d c2 pkg2 Hft2 Hpkg2)
      by (by rewrite ?HC, ?HP).
    cbn [snd disk]. rewrite HP.
    by apply artifacts_written_agree.
Qed.

Lemma answers_reach_two_files_witness :
  disk (run (scaffoldProject demo_env "demo" "task-based") demo_disk).2
    !! ["home"; "u"; "demo"; "hardhat.config.ts"]
  = disk (run (scaffoldProject renaming_env "demo" "task-based") demo_disk).2
      !! ["home"; "u"; "demo"; "hardhat.config.ts"].
Proof.
  apply (answers_reach_two_files demo_env renaming_env "demo" "task-based"
           demo_disk demo_config other_config
           (package_text "demo" "x") (package_text "other" "x")
           ["home"; "u"; "demo"; "hardhat.config.ts"]
           eq_refl eq_refl demo_fresh renaming_fresh eq_refl eq_refl
           demo_resources).
  - vm_compute. discriminate.
  - vm_compute. discriminate.
Defined.

(** ** The copied contracts *)



(** ** Two projects, one after the other *)

Section TwoProjects.
Context (env : Env) (name1 t1 name2 t2 : string) (d : files)
  (c1 c2 : Answers) (pkg1 pkg2 : string).
Context (Hft1 : fresh_target env name1 t1 d c1).
Context (Hft2 : fresh_target env name2 t2 d c2).
Context (Hpkg1 : rendered (template_source env d) c1 = Some pkg1).
Context (Hres1 : resources_ready env name1 d).
Context (Hapart1 : ¬ projectPath env name1 `prefix_of` projectPath env name2).
Context (Hapart2 : ¬ projectPath env name2 `prefix_of` projectPath env name1).

Local Abbreviation P1 := (projectPath env name1).
Local Abbreviation P2 := (projectPath env name2).
Local Abbreviation C := (contractsPath env).
Local Abbreviation T := (templatePath env).
Local Abbreviation d1 := (disk (run (scaffoldProject env name1 t1) d).2).

Lemma first_outside x :
  ¬ P1 `prefix_of` x →
  d1 !! x = d !! x ∨ (d !! x = None ∧ d1 !! x = Some Dir ∧ x `prefix_of` P1).
Proof. apply (run_sound env name1 t1 d). Qed.

Lemma second_fresh : fresh_target env name2 t2 d1 c2.
Proof.
  destruct Hft2 as [Hwf Hmod Habs Hclear Hprompt]. split.
  - by apply run_well_formed.
  - by apply run_preserves.
  - destruct (first_outside P2 Hapart1) as [->|(_ & _ & H)]; done.
  - apply blocked_false. intros a Ha.
    pose proof (proj1 (blocked_false _ _) Hclear a Ha) as Hf.
    destruct (first_outside a) as [->|(_ & -> & _)]; [|done..].
    intros H. apply Hapart1. by etrans.
  - done.
Qed.

Lemma first_template : read T d1 = read T d.
Proof.
  unfold read. destruct (d !! T) as [n|] eqn:HT.
  { by rewrite (run_preserves env name1 t1 d T n (ft_well_formed _ _ _ _ _ Hft1) HT). }
  destruct (decide (P1 `prefix_of` T)) as [Hpre|Hpre].
  - assert (is_file (d1 !! T) = false) as Hf; [|by destruct (d1 !! T) as [[]|]].
    apply not_true_iff_false. intros Hfile.
    assert (∃ r, T = P1 ++ r ∧ (r = [] ∨ r = ["package.json.hbs"]))
      as (r & Hr & Hcases).
    { destruct (template_below env name1 t1 d c1 Hft1 Hpre) as [H|H].
      - exists []. rewrite app_nil_r. split; [done | by left].
      - exists ["package.json.hbs"]. split; [done | by right]. }
    rewrite Hr in Hfile.
    destruct Hres1 as [(x1 & x2 & x3 & Hbc & Hout)|[Hnone Hway]].
    + rewrite (run_with_contracts env name1 t1 d c1 pkg1 Hft1 Hpkg1 x1 x2 x3)
        in Hfile by done.
      cbn [snd disk] in Hfile.
      apply (files_with_contracts env name1 t1 d c1 pkg1 Hft1 x1 x2 x3 r Hbc)
        in Hfile as [Hin|(s & -> & _)].
      * destruct Hcases as [-> | ->]; not_in_list Hin.
      * by destruct Hcases.
    + rewrite (run_without_contracts env name1 t1 d c1 pkg1 Hft1 Hpkg1)
        in Hfile by done.
      cbn [snd disk] in Hfile.
      apply (files_without_contracts env name1 t1 d c1 pkg1 Hft1 r) in Hfile.
      destruct Hcases as [-> | ->]; not_in_list Hfile.
  - destruct (first_outside T Hpre) as [->|(_ & -> & _)]; [|done].
    by rewrite HT.
Qed.

Lemma second_resources :
  resources_ready env name2 d → resources_ready env name2 d1.
Proof.
  pose proof (ft_well_formed _ _ _ _ _ Hft1) as Hwf.
  intros [(x1 & x2 & x3 & Hbc & Hout)|[Hnone Hway]].
  - left. exists x1, x2, x3. split; [|done].
    destruct Hbc. split; by apply run_preserves.
  - right. split; [|done].
    assert (¬ C `prefix_of` P1) as Hway1.
    { destruct Hres1 as [(x1 & x2 & x3 & Hbc & Hout)|[_ H]]; [|done].
      pose proof (bc_interfaces _ _ _ _ _ Hbc) as Hi.
      rewrite (Hwf _ _ Hi C) in Hnone; [done | by eexists|].
      intros Heq. apply (f_equal length) in Heq.
      rewrite length_app in Heq. simpl in Heq. lia. }
    destruct (decide (P1 `prefix_of` C)) as [Hpre|Hpre].
    + destruct Hway1.
      by rewrite <- (contracts_outside env name1 t1 d c1 Hft1 Hpre).
    + destruct (first_outside C Hpre) as [->|(_ & _ & H)]; done.
Qed.

Lemma two_runs :
  rendered (template_source env d) c2 = Some pkg2 →
  resources_ready env name2 d →
  ∃ w1 w2,
    run (scaffoldProject env name1 t1) d = (Ok tt, w1)
    ∧ run (scaffoldProject env name2 t2) (disk w1) = (Ok tt, w2)
    ∧ project_written env name1 c1 pkg1 (disk w2)
    ∧ project_written env name2 c2 pkg2 (disk w2).
Proof.
  intros Hpkg2 Hres2.
  destruct (run_ok env name1 t1 d c1 pkg1 Hft1 Hpkg1 Hres1)
    as (w1 & Hrun1 & Hw1 & _).
  assert (d1 = disk w1) as Hd1 by (by rewrite Hrun1).
  assert (rendered (template_source env (disk w1)) c2 = Some pkg2) as Hpkg2'.
  { unfold template_source in *. by rewrite <- Hd1, first_template. }
  pose proof second_fresh as Hfresh. rewrite Hd1 in Hfresh.
  pose proof (second_resources Hres2) as Hres2'. rewrite Hd1 in Hres2'.
  destruct (run_ok env name2 t2 (disk w1) c2 pkg2 Hfresh Hpkg2' Hres2')
    as (w2 & Hrun2 & Hw2 & _).
  exists w1, w2. split; [done|]. split; [done|]. split; [|done].
  assert (disk w2 = disk (run (scaffoldProject env name2 t2) (disk w1)).2)
    as -> by (by rewrite Hrun2).
  pose proof (ft_well_formed _ _ _ _ _ Hfresh) as Hwf1.
  destruct Hw1 as (H1 & H2 & H3 & H4 & H5 & H6 & H7 & H8).
  repeat split; by apply run_preserves.
Qed.
End TwoProjects.


Lemma second_demo_fresh :
  fresh_target demo_env "second" "oracle" demo_disk
    {| projectName := "second"; template := TaskBased; description := "x" |}.
Proof.
  split; [apply well_formedb_sound|..]; by vm_compute.
Qed.


Section Framed.
Context {A B : Type}.

Lemma framed_ret (a : A) : framed (mret a : M A).
Proof. intros d tr. simpl. by rewrite app_nil_r. Qed.

Lemma framed_throw (e : error) : framed (throw e : M A).
Proof. intros d tr. simpl. by rewrite app_nil_r. Qed.

Lemma framed_query (f : files → result A) : framed (query f).
Proof. intros d tr. simpl. by rewrite app_nil_r. Qed.

Lemma framed_bind (m : M A) (k : A → M B) :
  framed m → (∀ a, framed (k a)) → framed (m ≫= k).
Proof.
  intros Hm Hk d tr. rewrite !bind_unfold, (Hm d tr).
  destruct (m (World d [])) as [[a|e] [d' tr']]; simpl; [|done].
  rewrite (Hk a d' (tr ++ tr')), (Hk a d' tr'). simpl.
  by rewrite app_assoc.
Qed.

Lemma framed_catch (m : M A) (h : error → M A) :
  framed m → (∀ e, framed (h e)) → framed (catch m h).
Proof.
  intros Hm Hh d tr. unfold catch. rewrite (Hm d tr).
  destruct (m (World d [])) as [[a|e] [d' tr']]; simpl; [done|].
  rewrite (Hh e d' (tr ++ tr')), (Hh e d' tr'). simpl.
  by rewrite app_assoc.
Qed.

Lemma framed_if (b : bool) (m1 m2 : M A) :
  framed m1 → framed m2 → framed (if b then m1 else m2).
Proof. by destruct b. Qed.
End Framed.

Lemma framed_emit e : framed (emit e).
Proof. by intros d tr. Qed.

Lemma framed_update syscall p f : framed (update syscall p f).
Proof.
  intros d tr. unfold update. simpl.
  destruct (f d); simpl; by rewrite app_nil_r.
Qed.

Lemma pathExists_framed p : framed (pathExists p).
Proof.
  unfold pathExists. apply framed_bind; [apply framed_emit|].
  intros ?. apply framed_query.
Qed.

Lemma ensureDir_framed p : framed (ensureDir p).
Proof.
  unfold ensureDir. apply framed_bind; [apply framed_emit|].
  intros ?. apply framed_update.
Qed.

Lemma copy_framed src dest : framed (copy src dest).
Proof.
  unfold copy. apply framed_bind; [apply framed_emit|].
  intros ?. apply framed_update.
Qed.

Lemma readFile_framed p : framed (readFile p).
Proof.
  unfold readFile. apply framed_bind; [apply framed_emit|].
  intros ?. apply framed_query.
Qed.

Lemma writeFile_framed p data : framed (writeFile p data).
Proof.
  unfold writeFile. apply framed_bind; [apply framed_emit|].
  intros ?. apply framed_update.
Qed.

Lemma render_template_framed source config :
  framed (render_template source config).
Proof.
  unfold render_template.
  destruct (compile source); [apply framed_ret | apply framed_throw].
Qed.

Lemma inquirer_prompt_framed env name t : framed (inquirer_prompt env name t).
Proof.
  unfold inquirer_prompt. apply framed_bind; [apply framed_emit|].
  intros ?. destruct (prompt env name t); [apply framed_ret | apply framed_throw].
Qed.

Ltac framed_walk :=
  repeat match goal with
  | |- framed (_ ≫= _) => apply framed_bind; [|intros ?]
  | |- framed (catch _ _) => apply framed_catch; [|intros ?]
  | |- framed (if _ then _ else _) => apply framed_if
  | |- framed (mret _) => apply framed_ret
  | |- framed (throw _) => apply framed_throw
  | |- framed (emit _) => apply framed_emit
  | |- framed (console_log _) => apply framed_emit
  | |- framed (console_error _) => apply framed_emit
  | |- framed (pathExists _) => apply pathExists_framed
  | |- framed (ensureDir _) => apply ensureDir_framed
  | |- framed (copy _ _) => apply copy_framed
  | |- framed (readFile _) => apply readFile_framed
  | |- framed (writeFile _ _) => apply writeFile_framed
  | |- framed (writeJSON _ _ _) => apply writeFile_framed
  | |- framed (render_template _ _) => apply render_template_framed
  | |- framed (inquirer_prompt _ _ _) => apply inquirer_prompt_framed
  end.

Lemma generateOffChainComponents_framed P config :
  framed (generateOffChainComponents P config).
Proof. unfold generateOffChainComponents. cbv zeta. framed_walk. Qed.

Lemma createProjectStructure_framed env P config :
  framed (createProjectStructure env P config).
Proof.
  unfold createProjectStructure. cbv zeta. framed_walk.
  apply generateOffChainComponents_framed.
Qed.

Lemma scaffoldProject_framed env name t : framed (scaffoldProject env name t).
Proof.
  unfold scaffoldProject. cbv zeta. framed_walk.
  apply createProjectStructure_framed.
Qed.

Lemma framed_run {A} (m : M A) d tr :
  framed m →
  m (World d tr) = ((run m d).1, World (disk (run m d).2) (tr ++ trace (run m d).2)).
Proof. intros H. apply H. Qed.

(** ** The command *)

Section Create.
Context (env : Env) (projectName template : option string) (d : files).

Local Abbreviation name := (given_name projectName).
Local Abbreviation t := (default "task-based" template).

Lemma create_run :
  run (create env projectName template) d
  = (Ok tt,
     World (disk (run (scaffoldProject env name t) d).2)
       ([EvLog "Creating new AVS project..."]
        ++ trace (run (scaffoldProject env name t) d).2
        ++ match (run (scaffoldProject env name t) d).1 with
           | Ok _ => [EvLog "Project created successfully!"]
           | Err e => [EvError ("Error: " +:+ message e); EvExit 1]
           end)).
Proof.
  unfold run, create. fold name. unfold catch.
  rewrite bind_unfold. unfold console_log at 1. rewrite emit_run.
  cbn [disk trace app]. rewrite bind_unfold.
  rewrite (scaffoldProject_framed env name t d
             [EvLog "Creating new AVS project..."]).
  destruct (scaffoldProject env name t (World d [])) as [[[]|e] [d' tr']];
    cbn [fst snd disk trace].
  - unfold console_log. rewrite emit_run. cbn [disk trace].
    by rewrite <- app_assoc.
  - rewrite bind_unfold. unfold console_error. rewrite !emit_run.
    cbn [disk trace]. by rewrite <- !app_assoc.
Qed.
End Create.






(** ** The template option *)

(** X18: the template given on the command line is only the default of
    the question: when the user answers the same, two runs with
    different template options end alike and leave the same disk. *)
Theorem template_option_only_default env name t1 t2 d :
  prompt env name t1 = prompt env name t2 →
  (run (scaffoldProject env name t1) d).1
  = (run (scaffoldProject env name t2) d).1
  ∧ disk (run (scaffoldProject env name t1) d).2
    = disk (run (scaffoldProject env name t2) d).2.
Proof.
  intros Hp. unfold run, scaffoldProject. cbv zeta.
  rewrite !(bind_unfold (pathExists _)), pathExists_run. cbn [disk trace app].
  destruct (exists_at (d !! join (cwd env) name)).
  { rewrite !bind_unfold. done. }
  rewrite !(bind_unfold (mret tt)). cbn [mret M_ret ret].
  rewrite !(bind_unfold (inquirer_prompt _ _ _)).
  unfold inquirer_prompt. rewrite !bind_unfold, !emit_run. cbn [disk trace app].
  rewrite Hp. destruct (prompt env name t2) as [answers|]; [|done].
  cbn [mret M_ret ret].
  match goal with
  | |- (?k ?w1).1 = (?k ?w2).1 ∧ _ =>
      assert (framed k) as Hk
  end.
  { framed_walk. apply createProjectStructure_framed. }
  rewrite (Hk d [EvPathExists (join (cwd env) name); EvPrompt name t1]).
  rewrite (Hk d [EvPathExists (join (cwd env) name); EvPrompt name t2]).
  done.
Qed.

Lemma template_option_only_default_witness :
  (run (scaffoldProject demo_env "demo" "task-based") demo_disk).1
  = (run (scaffoldProject demo_env "demo" "bogus") demo_disk).1
  ∧ disk (run (scaffoldProject demo_env "demo" "task-based") demo_disk).2
    = disk (run (scaffoldProject demo_env "demo" "bogus") demo_disk).2.
Proof.
  apply (template_option_only_default demo_env "demo" "task-based" "bogus"
           demo_disk).
  reflexivity.
Defined.

(** ** Escaping *)

Section Escaping.
Implicit Types (s : string) (c : ascii) (f : ascii → bool).

Lemma length_append s1 s2 :
  String.length (s1 +:+ s2) = String.length s1 + String.length s2.
Proof.
  induction s1 as [|c s1 IH]; [by rewrite append_nil_l|].
  rewrite append_cons. simpl. by rewrite IH.
Qed.

Lemma forallb_chars_append f s1 s2 :
  forallb_chars f (s1 +:+ s2) = forallb_chars f s1 && forallb_chars f s2.
Proof.
  induction s1 as [|c s1 IH]; [by rewrite append_nil_l|].
  rewrite append_cons. simpl. by rewrite IH, andb_assoc.
Qed.

Lemma append_inv_tail s1 s2 s :
  s1 +:+ s = s2 +:+ s → s1 = s2.
Proof.
  revert s2. induction s1 as [|c s1 IH]; intros [|c2 s2] H.
  - done.
  - apply (f_equal String.length) in H.
    rewrite !length_append in H. simpl in H. lia.
  - apply (f_equal String.length) in H.
    rewrite !length_append in H. simpl in H. lia.
  - rewrite !append_cons in H. injection H as -> H. by rewrite (IH s2 H).
Qed.

Lemma escapeChar_length c : 1 ≤ String.length (escapeChar c).
Proof.
  unfold escapeChar.
  repeat match goal with
  | |- context [if ?b then _ else _] => destruct b
  end; simpl; lia.
Qed.

Lemma escapeChar_unsafe c :
  html_safe (String c "") = false → 2 ≤ String.length (escapeChar c).
Proof.
  unfold html_safe, escapeChar. simpl. rewrite andb_true_r.
  intros H%negb_false_iff.
  repeat match goal with
  | |- context [if ?b then _ else _] => destruct b eqn:?
  end; simpl; lia.
Qed.

Lemma escapeExpression_length s :
  String.length s ≤ String.length (escapeExpression s).
Proof.
  unfold escapeExpression. induction s as [|c s IH]; simpl; [done|].
  rewrite length_append. pose proof (escapeChar_length c). lia.
Qed.

Lemma escapeExpression_longer s :
  html_safe s = false →
  String.length s < String.length (escapeExpression s).
Proof.
  unfold escapeExpression, html_safe.
  induction s as [|c s IH]; simpl; [done|].
  rewrite length_append. intros [Hc|Hs]%andb_false_iff.
  - assert (html_safe (String c "") = false) as H.
    { unfold html_safe. simpl. by rewrite Hc. }
    pose proof (escapeChar_unsafe c H).
    pose proof (escapeExpression_length s). unfold escapeExpression in *. lia.
  - specialize (IH Hs). pose proof (escapeChar_length c). lia.
Qed.

Lemma escapeChar_no_markup c : no_markup (escapeChar c) = true.
Proof.
  unfold escapeChar.
  repeat match goal with
  | |- context [if ?b then _ else _] => destruct b eqn:?
  end; try reflexivity.
  unfold no_markup. simpl.
  by repeat match goal with H : is_char _ c = false |- _ => rewrite H; clear H end.
Qed.

Lemma escapeExpression_no_markup s : no_markup (escapeExpression s) = true.
Proof.
  unfold escapeExpression, no_markup.
  induction s as [|c s IH]; simpl; [done|].
  rewrite forallb_chars_append, IH, andb_true_r.
  apply escapeChar_no_markup.
Qed.

Lemma quoteChar_safe c :
  json_safe (String c "") = true → Json.quoteChar c = String c "".
Proof.
  unfold json_safe, Json.quoteChar, is_char. simpl. rewrite andb_true_r.
  intros H%negb_true_iff.
  apply orb_false_elim in H as [[H1 H2]%orb_false_elim H3].
  apply Nat.ltb_ge in H3.
  rewrite H1, H2, (proj2 (Nat.ltb_ge _ _) H3).
  repeat match goal with
  | |- context [Nat.eqb ?a ?b] =>
      destruct (Nat.eqb_spec a b); [lia|]
  end.
  done.
Qed.

Lemma quoteChar_length c : 1 ≤ String.length (Json.quoteChar c).
Proof.
  unfold Json.quoteChar.
  repeat match goal with
  | |- context [if ?b then _ else _] => destruct b
  end; simpl; lia.
Qed.

Lemma quoteChar_unsafe c :
  json_safe (String c "") = false → 2 ≤ String.length (Json.quoteChar c).
Proof.
  unfold json_safe, Json.quoteChar. simpl. rewrite andb_true_r.
  intros H%negb_false_iff.
  repeat match goal with
  | |- context [if ?b then _ else _] => destruct b eqn:?
  end; simpl; lia.
Qed.

Lemma quote_inner_safe s :
  json_safe s = true → flat_map_chars Json.quoteChar s = s.
Proof.
  unfold json_safe. induction s as [|c s IH]; simpl; [done|].
  intros [Hc Hs]%andb_prop. rewrite (IH Hs), quoteChar_safe; [done|].
  unfold json_safe. simpl. by rewrite Hc.
Qed.

Lemma quote_inner_length s :
  String.length s ≤ String.length (flat_map_chars Json.quoteChar s).
Proof.
  induction s as [|c s IH]; simpl; [done|].
  rewrite length_append. pose proof (quoteChar_length c). lia.
Qed.

Lemma quote_inner_longer s :
  json_safe s = false →
  String.length s < String.length (flat_map_chars Json.quoteChar s).
Proof.
  unfold json_safe. induction s as [|c s IH]; simpl; [done|].
  rewrite length_append. intros [Hc|Hs]%andb_false_iff.
  - assert (json_safe (String c "") = false) as H.
    { unfold json_safe. simpl. by rewrite Hc. }
    pose proof (quoteChar_unsafe c H). pose proof (quote_inner_length s). lia.
  - specialize (IH Hs). pose proof (quoteChar_length c). lia.
Qed.

Lemma quote_plain s : Json.quote s = q s ↔ json_safe s = true.
Proof.
  unfold Json.quote, q. split.
  - intros H%(inj (String.append dq))%append_inv_tail.
    destruct (json_safe s) eqn:Hs; [done|].
    pose proof (quote_inner_longer s Hs) as Hl. rewrite H in Hl. lia.
  - intros H. by rewrite quote_inner_safe.
Qed.
End Escaping.

(** X19: the root package.json rendered from the default template
    carries the name and the description as the user gave them exactly
    when neither holds one of the seven characters that Handlebars
    escapes. *)
Theorem root_package_verbatim_iff config :
  rendered getDefaultPackageJsonTemplate config
  = Some (package_text (projectName config) (description config))
  ↔ html_safe (projectName config) = true
    ∧ html_safe (description config) = true.
Proof.
  rewrite rendered_default. split.
  - intros H%(inj Some). unfold package_text in H.
    apply (f_equal String.length) in H. rewrite !length_append in H.
    pose proof (escapeExpression_length (projectName config)) as H1.
    pose proof (escapeExpression_length (description config)) as H2.
    destruct (html_safe (projectName config)) eqn:Hn.
    + destruct (html_safe (description config)) eqn:Hd; [done|].
      pose proof (escapeExpression_longer _ Hd). lia.
    + pose proof (escapeExpression_longer _ Hn). lia.
  - intros [Hn Hd]. by rewrite (escape_safe _ Hn), (escape_safe _ Hd).
Qed.

(** X20: whatever the user answers, the name and the description
    written into the root package.json by the default template hold no
    double quote (nor a single quote, a backquote, an angle bracket or
    an equals sign): an answer cannot end the string it is written in. *)
Theorem root_package_no_markup config :
  rendered getDefaultPackageJsonTemplate config
  = Some (package_text (escapeExpression (projectName config))
            (escapeExpression (description config)))
  ∧ no_markup (escapeExpression (projectName config)) = true
  ∧ no_markup (escapeExpression (description config)) = true.
Proof.
  split; [apply rendered_default|].
  split; apply escapeExpression_no_markup.
Qed.

(** X21: the text of off-chain/package.json holds the name of the
    project and the suffix between double quotes, as the user gave it,
    exactly when the name holds no double quote, no backslash and no
    control character; these are escaped by [JSON.stringify]. *)
Theorem offchain_name_verbatim_iff config :
  offChainPackageText config
  = offchain_head +:+ q (projectName config +:+ "-off-chain")
    +:+ offchain_tail
  ↔ json_safe (projectName config) = true.
Proof.
  rewrite offchain_text. split.
  - intros H%(inj (String.append offchain_head))%append_inv_tail.
    apply quote_plain in H. unfold json_safe in H.
    rewrite forallb_chars_append in H. by apply andb_prop in H as [H _].
  - intros H. f_equal. f_equal. apply quote_plain.
    unfold json_safe in *. rewrite forallb_chars_append, H. reflexivity.
Qed.

(** ** Paths *)

Section JoinFacts.
Implicit Types (p base : path) (c r : string).

Lemma split_go_append cur r1 r2 :
  split_go cur (r1 +:+ "/" +:+ r2) = split_go cur r1 ++ split r2.
Proof.
  revert cur. induction r1 as [|c r1 IH]; intros cur.
  - rewrite append_nil_l, append_cons, append_nil_l. reflexivity.
  - rewrite append_cons. simpl.
    destruct (Ascii.eqb c "/"); by rewrite IH.
Qed.

Lemma removelast_normalized p :
  Forall (λ x, plain x = true) p →
  Forall (λ x, plain x = true) (removelast p).
Proof.
  induction 1 as [|x l Hx Hl IH]; simpl; [done|].
  destruct l; [done | by constructor].
Qed.

Lemma walk_normalized p c :
  Forall (λ x, plain x = true) p → Forall (λ x, plain x = true) (walk p c).
Proof.
  intros Hp. unfold walk.
  destruct (String.eqb c "" || String.eqb c ".") eqn:H1; [done|].
  destruct (String.eqb c "..") eqn:H2.
  - by apply removelast_normalized.
  - apply Forall_app. split; [done|]. constructor; [|done].
    unfold plain. apply orb_false_elim in H1 as [-> ->]. by rewrite H2.
Qed.

Lemma foldl_walk_normalized l : ∀ p,
  Forall (λ x, plain x = true) p →
  Forall (λ x, plain x = true) (foldl walk p l).
Proof.
  induction l as [|c l IH]; intros p Hp; simpl; [done|].
  by apply IH, walk_normalized.
Qed.

Lemma join_normalized base r :
  Forall (λ x, plain x = true) base →
  Forall (λ x, plain x = true) (join base r).
Proof. apply foldl_walk_normalized. Qed.
End JoinFacts.


(** X23: whatever the name given on the command line, the paths the
    generator works with are normalized when the working directory and
    the directory of the module are: no component is empty, [.] or
    [..]. *)
Theorem paths_normalized env name :
  Forall (λ x, plain x = true) (cwd env) →
  Forall (λ x, plain x = true) (module_dir env) →
  Forall (λ x, plain x = true) (projectPath env name)
  ∧ Forall (λ x, plain x = true) (contractsPath env)
  ∧ Forall (λ x, plain x = true) (templatePath env).
Proof.
  intros Hc Hm. repeat split; by apply join_normalized.
Qed.

Lemma paths_normalized_witness :
  Forall (λ x, plain x = true) (projectPath demo_env "../a/./b//c")
  ∧ Forall (λ x, plain x = true) (contractsPath demo_env)
  ∧ Forall (λ x, plain x = true) (templatePath demo_env).
Proof.
  apply (paths_normalized demo_env "../a/./b//c");
    repeat constructor.
Defined.

(** ** The sequence of a run that goes through *)



(** X25: a run that succeeds on a well-formed disk leaves a directory
    at the target path and at every path on the way to it: the missing
    parents of the target are made too. *)
Theorem scaffold_makes_parents env name t d :
  well_formed d →
  (run (scaffoldProject env name t) d).1 = Ok tt →
  dir_chain (projectPath env name)
    (disk (run (scaffoldProject env name t) d).2).
Proof.
  intros Hwf Hok a Ha.
  pose proof (run_made env name t d Hok) as HP.
  destruct (decide (a = projectPath env name)) as [->|Hne]; [done|].
  by apply (run_well_formed env name t d Hwf _ _ HP a).
Qed.

Lemma scaffold_makes_parents_witness :
  dir_chain (projectPath demo_env "a/b/c")
    (disk (run (scaffoldProject demo_env "a/b/c" "task-based") demo_disk).2).
Proof.
  apply (scaffold_makes_parents demo_env "a/b/c" "task-based" demo_disk).
  - apply well_formedb_sound. vm_compute. reflexivity.
  - vm_compute. reflexivity.
Defined.
